(** * cloudwatch_query.py: a shallow embedding and its specification

    The program parses a time window from the command line, starts one
    CloudWatch Logs Insights query per configured log group, polls each
    query until it reaches a terminal state, flattens the rows and
    optionally saves them as JSON or CSV.

    Conventions of the embedding.
    - A Python [str] is a Rocq [string] holding the UTF-8 bytes of the
      text.  Byte order on UTF-8 agrees with code point order, and every
      character the program inspects (digits, separators, JSON and CSV
      punctuation, the letters of [".json"] and [".csv"]) is ASCII.  A
      lone surrogate, which a [str] can hold and UTF-8 refuses, is held
      as the three bytes the [surrogatepass] handler gives it, see
      [PyStr.utf8_encodable].
    - A Python [int] is a [Z].
    - A Python [dict] is an insertion-ordered association list, see
      [Dict].
    - An exception is a value of [exn]; a call that may raise returns a
      [result].
    - Library functions the program calls ([datetime.strptime],
      [datetime.__add__], [datetime.timestamp], [json.dumps],
      [json.loads], [json.dump], [csv.DictWriter], [csv.reader],
      [Path.suffix]) follow the CPython reference implementations.
    - The console takes every line printed, and a file that could be
      opened takes every text that UTF-8 can encode: storage that fails
      after [open] is outside the embedding. *)

From Stdlib Require Import String Ascii List ZArith Lia Bool Arith.
From Stdlib Require Import Sorting.Sorted.
Import ListNotations.

Local Open Scope string_scope.
Local Open Scope Z_scope.

(** ** Exceptions and results *)

Inductive exn : Type :=
| ValueError (msg : string)
| OverflowError (msg : string)
| RuntimeError (msg : string)
| KeyError (key : string)
| OSError (msg : string)
| ClientError (msg : string)
| UnicodeEncodeError (reason : string).

Inductive result (A : Type) : Type :=
| Ok (a : A)
| Raise (e : exn).

Arguments Ok {A} a.
Arguments Raise {A} e.

Definition bind {A B : Type} (r : result A) (k : A -> result B) : result B :=
  match r with
  | Ok a => k a
  | Raise e => Raise e
  end.

Notation "x <- r ;; k" := (bind r (fun x => k))
  (at level 61, r at next level, right associativity).

(** ** Characters and strings *)

Module PyStr.

Definition code (c : ascii) : Z := Z.of_nat (nat_of_ascii c).

Definition chr (n : Z) : ascii := ascii_of_nat (Z.to_nat n).

(** The double quote and the backslash, by code. *)
Definition dquote : ascii := "034"%char.
Definition backslash : ascii := "092"%char.
Definition LF : ascii := "010"%char.
Definition CR : ascii := "013"%char.

Definition is_digit (c : ascii) : bool :=
  (48 <=? code c) && (code c <=? 57).

Definition in_range (lo hi : ascii) (c : ascii) : bool :=
  (code lo <=? code c) && (code c <=? code hi).

Definition is_char (x : ascii) (c : ascii) : bool := Ascii.eqb x c.

(** [str.isspace] on the ASCII range: TAB, LF, VT, FF, CR, the four
    separators FS..US and the space. *)
Definition is_space (c : ascii) : bool :=
  ((9 <=? code c) && (code c <=? 13))
  || ((28 <=? code c) && (code c <=? 31))
  || (code c =? 32).

Definition digit_val (c : ascii) : Z := code c - 48.

(** [int(s)] for a string of decimal digits. *)
Fixpoint int_of_digits_acc (s : string) (acc : Z) : Z :=
  match s with
  | EmptyString => acc
  | String c s' => int_of_digits_acc s' (10 * acc + digit_val c)
  end.

Definition int_of_digits (s : string) : Z := int_of_digits_acc s 0.

Definition digit_char (d : Z) : ascii := chr (48 + d).

(** The decimal digits of [n], zero padded to [width] characters
    (format spec [0{width}d]), for [0 <= n < 10 ^ width]. *)
Fixpoint zero_pad (width : nat) (n : Z) : string :=
  match width with
  | O => EmptyString
  | S w => zero_pad w (n / 10) ++ String (digit_char (n mod 10)) EmptyString
  end.

(** Every byte is below 128. *)
Fixpoint is_ascii (s : string) : bool :=
  match s with
  | EmptyString => true
  | String c s' => (code c <? 128) && is_ascii s'
  end.

(** [str.lower] on the letters [A] to [Z]; every other byte is kept.
    This is [str.lower] on ASCII text ([is_ascii]).  On other text
    [str.lower] also lowers the cased characters beyond ASCII, so the
    result here can differ from it in those characters; no character
    beyond ASCII is lowered to a letter of [".json"] or [".csv"], so
    the comparison of a lowered suffix with these two is the same. *)
Definition lower_char (c : ascii) : ascii :=
  if (65 <=? code c) && (code c <=? 90) then chr (code c + 32) else c.

Fixpoint lower (s : string) : string :=
  match s with
  | EmptyString => EmptyString
  | String c s' => String (lower_char c) (lower s')
  end.

(** A continuation byte of UTF-8. *)
Definition is_continuation (c : ascii) : bool :=
  (128 <=? code c) && (code c <=? 191).

(** [len(s)]: the number of code points, which is the number of bytes
    that are not continuation bytes. *)
Fixpoint code_points (s : string) : Z :=
  match s with
  | EmptyString => 0
  | String c s' => (if is_continuation c then 0 else 1) + code_points s'
  end.

(** The first two bytes of a surrogate, U+D800 to U+DFFF, as
    [surrogatepass] writes it: 237, then a byte from 160 to 191. *)
Definition surrogate_start (c c' : ascii) : bool :=
  (code c =? 237) && (160 <=? code c') && (code c' <=? 191).

(** [s.encode("utf-8")] succeeds: the text holds no surrogate. *)
Fixpoint utf8_encodable (s : string) : bool :=
  match s with
  | EmptyString => true
  | String c s' =>
    match s' with
    | String c' _ => negb (surrogate_start c c')
    | EmptyString => true
    end && utf8_encodable s'
  end.

Fixpoint repeat_char (c : ascii) (n : nat) : string :=
  match n with
  | O => EmptyString
  | S n' => String c (repeat_char c n')
  end.

Fixpoint join (sep : string) (l : list string) : string :=
  match l with
  | [] => EmptyString
  | [x] => x
  | x :: rest => x ++ sep ++ join sep rest
  end.

(** [s.strip()] *)
Fixpoint lstrip (s : string) : string :=
  match s with
  | String c s' => if is_space c then lstrip s' else s
  | EmptyString => s
  end.

Fixpoint rstrip (s : string) : string :=
  match s with
  | EmptyString => EmptyString
  | String c s' =>
    match rstrip s' with
    | EmptyString => if is_space c then EmptyString else String c EmptyString
    | r => String c r
    end
  end.

Definition strip (s : string) : string := rstrip (lstrip s).

Fixpoint existsb_char (p : ascii -> bool) (s : string) : bool :=
  match s with
  | EmptyString => false
  | String c s' => p c || existsb_char p s'
  end.

End PyStr.

(** ** The [datetime] module *)

Module DateTime.

Record datetime : Type := mk_datetime {
  year : Z; month : Z; day : Z;
  hour : Z; minute : Z; second : Z; microsecond : Z
}.

Record timedelta : Type := mk_timedelta {
  td_days : Z; td_seconds : Z; td_microseconds : Z
}.

Definition MINYEAR : Z := 1.
Definition MAXYEAR : Z := 9999.
Definition MAXORDINAL : Z := 3652059.

Definition DI400Y : Z := 146097.
Definition DI100Y : Z := 36524.
Definition DI4Y : Z := 1461.

Definition is_leap (y : Z) : bool :=
  (y mod 4 =? 0) && (negb (y mod 100 =? 0) || (y mod 400 =? 0)).

Definition days_before_year (y : Z) : Z :=
  let y' := y - 1 in y' * 365 + y' / 4 - y' / 100 + y' / 400.

(** [_DAYS_IN_MONTH], indexed from 1. *)
Definition DAYS_IN_MONTH (m : Z) : Z :=
  match m with
  | 1 => 31 | 2 => 28 | 3 => 31 | 4 => 30 | 5 => 31 | 6 => 30
  | 7 => 31 | 8 => 31 | 9 => 30 | 10 => 31 | 11 => 30 | 12 => 31
  | _ => -1
  end.

(** [_DAYS_BEFORE_MONTH], indexed from 1. *)
Definition DAYS_BEFORE_MONTH (m : Z) : Z :=
  match m with
  | 1 => 0 | 2 => 31 | 3 => 59 | 4 => 90 | 5 => 120 | 6 => 151
  | 7 => 181 | 8 => 212 | 9 => 243 | 10 => 273 | 11 => 304 | 12 => 334
  | _ => -1
  end.

Definition days_in_month (y m : Z) : Z :=
  if (m =? 2) && is_leap y then 29 else DAYS_IN_MONTH m.

Definition days_before_month (y m : Z) : Z :=
  DAYS_BEFORE_MONTH m + (if (2 <? m) && is_leap y then 1 else 0).

Definition ymd2ord (y m d : Z) : Z :=
  days_before_year y + days_before_month y m + d.

(** [_ord2ymd]: the date of a proleptic Gregorian ordinal, 1 being
    0001-01-01. *)
Definition ord2ymd (n : Z) : Z * Z * Z :=
  let n := n - 1 in
  let n400 := n / DI400Y in
  let n := n mod DI400Y in
  let year := n400 * 400 + 1 in
  let n100 := n / DI100Y in
  let n := n mod DI100Y in
  let n4 := n / DI4Y in
  let n := n mod DI4Y in
  let n1 := n / 365 in
  let n := n mod 365 in
  let year := year + n100 * 100 + n4 * 4 + n1 in
  if (n1 =? 4) || (n100 =? 4) then (year - 1, 12, 31)
  else
    let leapyear := (n1 =? 3) && (negb (n4 =? 24) || (n100 =? 3)) in
    let month := Z.shiftr (n + 50) 5 in
    let preceding :=
      DAYS_BEFORE_MONTH month + (if (2 <? month) && leapyear then 1 else 0) in
    if n <? preceding then
      let month := month - 1 in
      let preceding :=
        preceding
        - (DAYS_IN_MONTH month + (if (month =? 2) && leapyear then 1 else 0)) in
      (year, month, n - preceding + 1)
    else (year, month, n - preceding + 1).

(** [_check_date_fields] and [_check_time_fields] of the constructor. *)
Definition check_date_fields (y m d : Z) : result unit :=
  if negb ((MINYEAR <=? y) && (y <=? MAXYEAR)) then
    Raise (ValueError "year is out of range")
  else if negb ((1 <=? m) && (m <=? 12)) then
    Raise (ValueError "month must be in 1..12")
  else if negb ((1 <=? d) && (d <=? days_in_month y m)) then
    Raise (ValueError "day is out of range for month")
  else Ok tt.

Definition check_time_fields (h mi s us : Z) : result unit :=
  if negb ((0 <=? h) && (h <=? 23)) then
    Raise (ValueError "hour must be in 0..23")
  else if negb ((0 <=? mi) && (mi <=? 59)) then
    Raise (ValueError "minute must be in 0..59")
  else if negb ((0 <=? s) && (s <=? 59)) then
    Raise (ValueError "second must be in 0..59")
  else if negb ((0 <=? us) && (us <=? 999999)) then
    Raise (ValueError "microsecond must be in 0..999999")
  else Ok tt.

(** [datetime(year, month, day, hour, minute, second, microsecond)]. *)
Definition new (y m d h mi s us : Z) : result datetime :=
  _ <- check_date_fields y m d ;;
  _ <- check_time_fields h mi s us ;;
  Ok (mk_datetime y m d h mi s us).

Definition valid (dt : datetime) : bool :=
  match new (year dt) (month dt) (day dt)
            (hour dt) (minute dt) (second dt) (microsecond dt) with
  | Ok _ => true
  | Raise _ => false
  end.

Definition toordinal (dt : datetime) : Z :=
  ymd2ord (year dt) (month dt) (day dt).

(** [timedelta(days, hours=, minutes=, seconds=, microseconds=)] on
    integer arguments: carries are normalised so that
    [0 <= seconds < 86400] and [0 <= microseconds < 1000000], and a
    magnitude above 999999999 days is refused. *)
Definition timedelta_new (days hours minutes seconds microseconds : Z)
  : result timedelta :=
  let s := hours * 3600 + minutes * 60 + seconds + microseconds / 1000000 in
  let us := microseconds mod 1000000 in
  let d := days + s / 86400 in
  let s := s mod 86400 in
  if 999999999 <? Z.abs d then
    Raise (OverflowError "timedelta # of days is too large")
  else Ok (mk_timedelta d s us).

(** [timedelta.__add__]. *)
Definition timedelta_add (a b : timedelta) : result timedelta :=
  timedelta_new (td_days a + td_days b) 0 0
                (td_seconds a + td_seconds b)
                (td_microseconds a + td_microseconds b).

(** [datetime.__add__]. *)
Definition add (dt : datetime) (other : timedelta) : result datetime :=
  delta <- timedelta_new (toordinal dt) (hour dt) (minute dt) (second dt)
                         (microsecond dt) ;;
  delta <- timedelta_add delta other ;;
  let hour := td_seconds delta / 3600 in
  let rem := td_seconds delta mod 3600 in
  let minute := rem / 60 in
  let second := rem mod 60 in
  if (0 <? td_days delta) && (td_days delta <=? MAXORDINAL) then
    let '(y, m, d) := ord2ymd (td_days delta) in
    Ok (mk_datetime y m d hour minute second (td_microseconds delta))
  else Raise (OverflowError "date value out of range").

(** [datetime._cmp]: lexicographic on the seven fields. *)
Definition cmp (a b : datetime) : comparison :=
  match year a ?= year b with
  | Eq =>
    match month a ?= month b with
    | Eq =>
      match day a ?= day b with
      | Eq =>
        match hour a ?= hour b with
        | Eq =>
          match minute a ?= minute b with
          | Eq =>
            match second a ?= second b with
            | Eq => microsecond a ?= microsecond b
            | c => c
            end
          | c => c
          end
        | c => c
        end
      | c => c
      end
    | c => c
    end
  | c => c
  end.

(** [a >= b]. *)
Definition ge (a b : datetime) : bool :=
  match cmp a b with
  | Lt => false
  | _ => true
  end.

(** Microseconds between [dt], read as UTC, and 1970-01-01T00:00:00Z. *)
Definition utc_microseconds (dt : datetime) : Z :=
  ((toordinal dt - 719163) * 86400
   + (hour dt * 3600 + minute dt * 60 + second dt)) * 1000000
  + microsecond dt.

(** [int(dt.replace(tzinfo=timezone.utc).timestamp())]: the float
    holds [utc_microseconds dt / 10**6] and [int] truncates towards
    zero.  With [microsecond dt = 0] the float is the exact integer.
    With other microseconds the float is the quotient rounded to a
    double, where this definition takes the quotient itself: the two
    truncate to the same integer while the double resolves a
    microsecond, which it does for less than [2^33] seconds, that is
    up to the year 2242. *)
Definition timestamp_int (dt : datetime) : Z :=
  Z.quot (utc_microseconds dt) 1000000.

(** [str(dt)]: ISO format with a space separator, the fraction only
    when it is not zero. *)
Definition to_str (dt : datetime) : string :=
  (PyStr.zero_pad 4 (year dt) ++ "-" ++ PyStr.zero_pad 2 (month dt) ++ "-"
   ++ PyStr.zero_pad 2 (day dt) ++ " " ++ PyStr.zero_pad 2 (hour dt) ++ ":"
   ++ PyStr.zero_pad 2 (minute dt) ++ ":" ++ PyStr.zero_pad 2 (second dt)
   ++ (if (microsecond dt =? 0)%Z then EmptyString
       else "." ++ PyStr.zero_pad 6 (microsecond dt)))%string.

End DateTime.

(** ** [datetime.strptime]

    [_strptime] turns the format into a regular expression, matches it
    at the start of the data with [re.match], refuses data that goes on
    after the match, converts the groups with [int] and builds the
    [datetime].  The expression of a directive is an ordered alternation
    of fixed-length digit patterns; white space in the format becomes
    [\s+].  The matcher below is the backtracking one of [re]: the
    alternatives of a directive are tried in order, [\s+] is greedy, and
    the first way through wins. *)

Module Strptime.

Import PyStr.

(** One element of the compiled expression. *)
Inductive item : Type :=
| Lit (c : ascii)
| Spaces
| Dir (name : ascii) (alts : list (list (ascii -> bool))).

Definition d09 : ascii -> bool := is_digit.
Definition rng (lo hi : ascii) : ascii -> bool := in_range lo hi.
Definition one (c : ascii) : ascii -> bool := is_char c.

(** The expressions of [TimeRE] for the directives of the format.
    The classes are those of ASCII text: the [\d] of the code also
    matches the decimal digits of other scripts, and its [\s] the
    other white space of Unicode, none of which these classes
    match. *)
Definition directive (d : ascii) : option (list (list (ascii -> bool))) :=
  if Ascii.eqb d "Y" then Some [[d09; d09; d09; d09]]
  else if Ascii.eqb d "m" then
    Some [[one "1"; rng "0" "2"]; [one "0"; rng "1" "9"]; [rng "1" "9"]]
  else if Ascii.eqb d "d" then
    Some [[one "3"; rng "0" "1"]; [rng "1" "2"; d09]; [one "0"; rng "1" "9"];
          [rng "1" "9"]; [one " "; rng "1" "9"]]
  else if Ascii.eqb d "H" then
    Some [[one "2"; rng "0" "3"]; [rng "0" "1"; d09]; [d09]]
  else if Ascii.eqb d "M" then
    Some [[rng "0" "5"; d09]; [d09]]
  else if Ascii.eqb d "S" then
    Some [[one "6"; rng "0" "1"]; [rng "0" "5"; d09]; [d09]]
  else None.

(** [TimeRE.pattern]: a run of white space becomes one [\s+], a
    directive its expression, any other character itself. *)
Fixpoint pattern (after_space : bool) (format : string)
  : option (list item) :=
  match format with
  | EmptyString => Some []
  | String c rest =>
    if is_space c then
      match pattern true rest with
      | Some p => Some (if after_space then p else Spaces :: p)
      | None => None
      end
    else if Ascii.eqb c "%" then
      match rest with
      | String d rest' =>
        match directive d, pattern false rest' with
        | Some alts, Some p => Some (Dir d alts :: p)
        | _, _ => None
        end
      | EmptyString => None
      end
    else
      match pattern false rest with
      | Some p => Some (Lit c :: p)
      | None => None
      end
  end.

(** A fixed-length sequence of character classes against a prefix. *)
Fixpoint match_classes (cls : list (ascii -> bool)) (s : string)
  : option (string * string) :=
  match cls with
  | [] => Some (EmptyString, s)
  | p :: cls' =>
    match s with
    | String c s' =>
      if p c then
        match match_classes cls' s' with
        | Some (m, r) => Some (String c m, r)
        | None => None
        end
      else None
    | EmptyString => None
    end
  end.

Section Backtracking.

Context {A : Type}.

(** Ordered alternation: the first alternative whose continuation
    succeeds. *)
Fixpoint first_alt (alts : list (list (ascii -> bool))) (s : string)
         (k : string -> string -> option A) : option A :=
  match alts with
  | [] => None
  | a :: alts' =>
    match match_classes a s with
    | Some (m, r) =>
      match k m r with
      | Some x => Some x
      | None => first_alt alts' s k
      end
    | None => first_alt alts' s k
    end
  end.

(** Greedy [\s+]: the longest run first, then shorter ones. *)
Fixpoint spaces_then (s : string) (k : string -> option A) : option A :=
  match s with
  | String c s' =>
    if is_space c then
      match spaces_then s' k with
      | Some x => Some x
      | None => k s'
      end
    else None
  | EmptyString => None
  end.

End Backtracking.

Definition groups : Type := list (ascii * string).

(** [re.match]: the groups and the unmatched rest. *)
Fixpoint re_match (p : list item) (s : string) (g : groups)
  : option (groups * string) :=
  match p with
  | [] => Some (g, s)
  | Lit c :: p' =>
    match s with
    | String c' s' => if Ascii.eqb c c' then re_match p' s' g else None
    | EmptyString => None
    end
  | Spaces :: p' => spaces_then s (fun r => re_match p' r g)
  | Dir d alts :: p' =>
    first_alt alts s (fun m r => re_match p' r (g ++ [(d, m)])%list)
  end.

Fixpoint group (g : groups) (d : ascii) (default : Z) : Z :=
  match g with
  | [] => default
  | (d', m) :: g' =>
    if Ascii.eqb d d' then
      (* a leading blank of [%d] is skipped by [int] *)
      match m with
      | String " " m' => int_of_digits m'
      | _ => int_of_digits m
      end
    else group g' d default
  end.

(** [datetime.strptime(data_string, format)]. *)
Definition strptime (data_string format : string) : result DateTime.datetime :=
  match pattern false format with
  | None => Raise (ValueError "bad directive in format")
  | Some p =>
    match re_match p data_string [] with
    | None => Raise (ValueError "time data does not match format")
    | Some (g, rest) =>
      match rest with
      | String _ _ => Raise (ValueError "unconverted data remains")
      | EmptyString =>
        DateTime.new (group g "Y" 1900) (group g "m" 1) (group g "d" 1)
                     (group g "H" 0) (group g "M" 0) (group g "S" 0) 0
      end
    end
  end.

End Strptime.

(** ** The program: time arguments *)

(** [to_epoch]. *)
Definition to_epoch (dt : DateTime.datetime) : Z :=
  DateTime.timestamp_int dt.

(** [parse_cli_time]. *)
Definition parse_cli_time (date_str time_str : string)
  : result DateTime.datetime :=
  Strptime.strptime (date_str ++ " " ++ time_str) "%Y-%m-%d %H:%M:%S".

(** [timedelta(hours=5)]. *)
Definition five_hours : result DateTime.timedelta :=
  DateTime.timedelta_new 0 5 0 0 0.

(** ** Python dictionaries

    A [dict] keeps its keys in insertion order; assigning to a key that
    is present replaces the value in place, assigning to a new key
    appends it. *)

Module Dict.

Section Dict.

Context {V : Type}.

Definition t : Type := list (string * V).

Definition empty : t := [].

(** [d.get(k)] *)
Fixpoint get (d : t) (k : string) : option V :=
  match d with
  | [] => None
  | (k', v) :: d' => if String.eqb k k' then Some v else get d' k
  end.

(** [d[k]] *)
Definition getitem (d : t) (k : string) : result V :=
  match get d k with
  | Some v => Ok v
  | None => Raise (KeyError k)
  end.

(** [d[k] = v] *)
Fixpoint set (d : t) (k : string) (v : V) : t :=
  match d with
  | [] => [(k, v)]
  | (k', v') :: d' =>
    if String.eqb k k' then (k', v) :: d' else (k', v') :: set d' k v
  end.

(** [d.keys()] *)
Definition keys (d : t) : list string := map fst d.

(** [dict(pairs)] *)
Definition of_pairs (l : list (string * V)) : t :=
  fold_left (fun d kv => set d (fst kv) (snd kv)) l empty.

(** The representation invariant: no key twice. *)
Definition wf (d : t) : Prop := NoDup (keys d).

End Dict.

Arguments t V : clear implicits.

End Dict.

(** ** The [json] module *)

Module Json.

Import PyStr.

(** The Python objects the program serialises, and [None] and the
    booleans of a document read back.  Numbers do not occur in the
    program's data and the decoder below refuses them. *)
#[local] Unset Elimination Schemes.

Inductive pyobj : Type :=
| PNone
| PBool (b : bool)
| PStr (s : string)
| PList (l : list pyobj)
| PDict (d : list (string * pyobj)).

#[local] Set Elimination Schemes.

Definition hex_char (d : Z) : ascii :=
  if d <? 10 then chr (48 + d) else chr (87 + d).

(** [ESCAPE_DCT] of [json.encoder]: the replacement of a character
    matched by [ESCAPE], [None] for a character written as it is. *)
Definition escape_char (c : ascii) : option string :=
  if Ascii.eqb c backslash then Some (String backslash (String backslash EmptyString))
  else if Ascii.eqb c dquote then Some (String backslash (String dquote EmptyString))
  else if code c =? 8 then Some (String backslash "b")
  else if code c =? 12 then Some (String backslash "f")
  else if code c =? 10 then Some (String backslash "n")
  else if code c =? 13 then Some (String backslash "r")
  else if code c =? 9 then Some (String backslash "t")
  else if code c <? 32 then
    Some (String backslash
            (String "u" (String "0" (String "0"
               (String (hex_char (code c / 16))
                  (String (hex_char (code c mod 16)) EmptyString))))))
  else None.

Fixpoint escape (s : string) : string :=
  match s with
  | EmptyString => EmptyString
  | String c s' =>
    match escape_char c with
    | Some e => e ++ escape s'
    | None => String c (escape s')
    end
  end.

(** [encode_basestring], used with [ensure_ascii=False]. *)
Definition encode_basestring (s : string) : string :=
  String dquote (escape s ++ String dquote EmptyString).

(** A line break and the indentation of [level], two blanks a level. *)
Definition newline_indent (level : nat) : string :=
  String LF (repeat_char " " (2 * level)).

(** [_iterencode] with [indent=2]: the item separator is a comma
    followed by [newline_indent], the key separator a colon and a
    blank; an empty list is [[]], an empty dict two braces. *)
Fixpoint encode (level : nat) (o : pyobj) : string :=
  match o with
  | PNone => "null"
  | PBool true => "true"
  | PBool false => "false"
  | PStr s => encode_basestring s
  | PList [] => "[]"
  | PList l =>
    "[" ++ newline_indent (S level)
        ++ join ("," ++ newline_indent (S level)) (map (encode (S level)) l)
        ++ newline_indent level ++ "]"
  | PDict [] => "{}"
  | PDict d =>
    "{" ++ newline_indent (S level)
        ++ join ("," ++ newline_indent (S level))
                (map (fun kv => encode_basestring (fst kv) ++ ": "
                                ++ encode (S level) (snd kv)) d)
        ++ newline_indent level ++ "}"
  end.

(** [json.dumps(obj, ensure_ascii=False, indent=2)] *)
Definition dumps (o : pyobj) : string := encode 0 o.

(** A string, [None] or a boolean, encoded. *)
Definition scalar (o : pyobj) : option string :=
  match o with
  | PNone => Some "null"
  | PBool true => Some "true"
  | PBool false => Some "false"
  | PStr s => Some (encode_basestring s)
  | PList _ => None
  | PDict _ => None
  end.

(** The chunks of [_make_iterencode] with [indent=2], which [encode]
    joins and [json.dump] writes one by one.  In a list
    ([list_chunks], on the scalar text and the chunks of each item), a
    scalar item is one chunk together with the bracket or separator
    before it; a list or dict item comes after that bracket or
    separator as chunks of its own.  In a dict ([dict_chunks], on the
    key and the chunks of the value of each item) the separator, the
    key, the colon and the value are chunks of their own. *)
Fixpoint list_chunks (level : nat) (first : bool)
         (items : list (option string * list string)) : list string :=
  match items with
  | [] => []
  | (sc, chunks) :: items' =>
    let buf := (if first then "[" else ",") ++ newline_indent (S level) in
    app (match sc with
         | Some t => [buf ++ t]
         | None => buf :: chunks
         end)
        (list_chunks level false items')
  end.

Fixpoint dict_chunks (level : nat) (first : bool)
         (items : list (string * list string)) : list string :=
  match items with
  | [] => []
  | (k, chunks) :: items' =>
    app (if first then [] else ["," ++ newline_indent (S level)])
        (encode_basestring k :: ": "
         :: app chunks (dict_chunks level false items'))
  end.

Fixpoint iterencode (level : nat) (o : pyobj) : list string :=
  match o with
  | PNone => ["null"]
  | PBool true => ["true"]
  | PBool false => ["false"]
  | PStr s => [encode_basestring s]
  | PList [] => ["[]"]
  | PList l =>
    app (list_chunks level true
                     (map (fun v => (scalar v, iterencode (S level) v)) l))
        [newline_indent level; "]"]
  | PDict [] => ["{}"]
  | PDict d =>
    "{" :: newline_indent (S level)
    :: app (dict_chunks level true
                        (map (fun kv => (fst kv, iterencode (S level) (snd kv)))
                             d))
           [newline_indent level; "}"]
  end.

(** *** Decoding *)

Definition is_ws (c : ascii) : bool :=
  (code c =? 32) || (code c =? 9) || (code c =? 10) || (code c =? 13).

Fixpoint skip_ws (s : string) : string :=
  match s with
  | String c r => if is_ws c then skip_ws r else s
  | EmptyString => s
  end.

Definition hex_val (c : ascii) : option Z :=
  if is_digit c then Some (code c - 48)
  else if in_range "a" "f" c then Some (code c - 87)
  else if in_range "A" "F" c then Some (code c - 55)
  else None.

Definition hex4 (a b c d : ascii) : option Z :=
  match hex_val a, hex_val b, hex_val c, hex_val d with
  | Some x, Some y, Some z, Some w => Some (((x * 16 + y) * 16 + z) * 16 + w)
  | _, _, _, _ => None
  end.

(** The UTF-8 bytes of a code point that is not a surrogate. *)
Definition utf8 (u : Z) : string :=
  if u <? 128 then String (chr u) EmptyString
  else if u <? 2048 then
    String (chr (192 + u / 64)) (String (chr (128 + u mod 64)) EmptyString)
  else if u <? 65536 then
    String (chr (224 + u / 4096))
      (String (chr (128 + (u / 64) mod 64)) (String (chr (128 + u mod 64)) EmptyString))
  else
    String (chr (240 + u / 262144))
      (String (chr (128 + (u / 4096) mod 64))
         (String (chr (128 + (u / 64) mod 64))
            (String (chr (128 + u mod 64)) EmptyString))).

(** [BACKSLASH] of [json.decoder]. *)
Definition unescape (e : ascii) : option ascii :=
  if Ascii.eqb e dquote then Some dquote
  else if Ascii.eqb e backslash then Some backslash
  else if Ascii.eqb e "/" then Some "/"%char
  else if Ascii.eqb e "b" then Some (chr 8)
  else if Ascii.eqb e "f" then Some (chr 12)
  else if Ascii.eqb e "n" then Some (chr 10)
  else if Ascii.eqb e "r" then Some (chr 13)
  else if Ascii.eqb e "t" then Some (chr 9)
  else None.

Definition is_high_surrogate (u : Z) : bool := (55296 <=? u) && (u <=? 56319).
Definition is_low_surrogate (u : Z) : bool := (56320 <=? u) && (u <=? 57343).

(** [py_scanstring] in strict mode, from just after the opening
    quote: the decoded text and what follows the closing quote.  A
    surrogate that is not half of a pair has no UTF-8 form and is
    refused here. *)
Fixpoint scanstring (s : string) : result (string * string) :=
  match s with
  | EmptyString => Raise (ValueError "Unterminated string starting at")
  | String c r =>
    if Ascii.eqb c dquote then Ok (EmptyString, r)
    else if Ascii.eqb c backslash then
      match r with
      | EmptyString => Raise (ValueError "Unterminated string starting at")
      | String e r1 =>
        if Ascii.eqb e "u" then
          match r1 with
          | String h1 (String h2 (String h3 (String h4 r2))) =>
            match hex4 h1 h2 h3 h4 with
            | None => Raise (ValueError "Invalid \uXXXX escape")
            | Some u =>
              if is_high_surrogate u then
                match r2 with
                | String b (String "u" (String g1 (String g2 (String g3
                    (String g4 r3))))) =>
                  if Ascii.eqb b backslash then
                    match hex4 g1 g2 g3 g4 with
                    | None => Raise (ValueError "Invalid \uXXXX escape")
                    | Some u2 =>
                      if is_low_surrogate u2 then
                        p <- scanstring r3 ;;
                        Ok (utf8 (65536 + ((u - 55296) * 1024 + (u2 - 56320)))
                              ++ fst p, snd p)
                      else Raise (ValueError "lone surrogate")
                    end
                  else Raise (ValueError "lone surrogate")
                | _ => Raise (ValueError "lone surrogate")
                end
              else if is_low_surrogate u then
                Raise (ValueError "lone surrogate")
              else
                p <- scanstring r2 ;; Ok (utf8 u ++ fst p, snd p)
            end
          | _ => Raise (ValueError "Invalid \uXXXX escape")
          end
        else
          match unescape e with
          | None => Raise (ValueError "Invalid \escape")
          | Some ch => p <- scanstring r1 ;; Ok (String ch (fst p), snd p)
          end
      end
    else if code c <? 32 then
      Raise (ValueError "Invalid control character at")
    else p <- scanstring r ;; Ok (String c (fst p), snd p)
  end.

(** [s] without the prefix [p], when it starts with it. *)
Fixpoint starts_with (p s : string) : option string :=
  match p with
  | EmptyString => Some s
  | String a p' =>
    match s with
    | String b s' => if Ascii.eqb a b then starts_with p' s' else None
    | EmptyString => None
    end
  end.

(** [scan_once], [JSONObject] and [JSONArray].  [fuel] bounds the
    nesting and the number of members; [loads] gives the length of
    the document. *)
Fixpoint scan_once (fuel : nat) (s : string) : result (pyobj * string) :=
  match fuel with
  | O => Raise (ValueError "fuel")
  | S fuel' =>
    match s with
    | EmptyString => Raise (ValueError "Expecting value")
    | String c r =>
      if Ascii.eqb c dquote then
        p <- scanstring r ;; Ok (PStr (fst p), snd p)
      else if Ascii.eqb c "{" then
        match skip_ws r with
        | String c1 r1 =>
          if Ascii.eqb c1 "}" then Ok (PDict [], r1)
          else if Ascii.eqb c1 dquote then
            p <- object_pairs fuel' r1 ;;
            Ok (PDict (Dict.of_pairs (fst p)), snd p)
          else Raise (ValueError "Expecting property name enclosed in double quotes")
        | EmptyString =>
          Raise (ValueError "Expecting property name enclosed in double quotes")
        end
      else if Ascii.eqb c "[" then
        match skip_ws r with
        | String c1 r1 =>
          if Ascii.eqb c1 "]" then Ok (PList [], r1)
          else p <- array_values fuel' (String c1 r1) ;;
               Ok (PList (fst p), snd p)
        | EmptyString => Raise (ValueError "Expecting value")
        end
      else
        match starts_with "null" s, starts_with "true" s, starts_with "false" s with
        | Some r', _, _ => Ok (PNone, r')
        | _, Some r', _ => Ok (PBool true, r')
        | _, _, Some r' => Ok (PBool false, r')
        | _, _, _ => Raise (ValueError "Expecting value")
        end
    end
  end

(** The members of an object, from just after the quote that opens a
    key, through the closing brace. *)
with object_pairs (fuel : nat) (s : string)
  : result (list (string * pyobj) * string) :=
  match fuel with
  | O => Raise (ValueError "fuel")
  | S fuel' =>
    k <- scanstring s ;;
    match skip_ws (snd k) with
    | String c r =>
      if Ascii.eqb c ":" then
        v <- scan_once fuel' (skip_ws r) ;;
        match skip_ws (snd v) with
        | String c1 r1 =>
          if Ascii.eqb c1 "}" then Ok ([(fst k, fst v)], r1)
          else if Ascii.eqb c1 "," then
            match skip_ws r1 with
            | String c2 r2 =>
              if Ascii.eqb c2 dquote then
                p <- object_pairs fuel' r2 ;;
                Ok ((fst k, fst v) :: fst p, snd p)
              else Raise (ValueError "Expecting property name enclosed in double quotes")
            | EmptyString =>
              Raise (ValueError "Expecting property name enclosed in double quotes")
            end
          else Raise (ValueError "Expecting ',' delimiter")
        | EmptyString => Raise (ValueError "Expecting ',' delimiter")
        end
      else Raise (ValueError "Expecting ':' delimiter")
    | EmptyString => Raise (ValueError "Expecting ':' delimiter")
    end
  end

(** The elements of an array, from the first character of an
    element, through the closing bracket. *)
with array_values (fuel : nat) (s : string)
  : result (list pyobj * string) :=
  match fuel with
  | O => Raise (ValueError "fuel")
  | S fuel' =>
    v <- scan_once fuel' s ;;
    match skip_ws (snd v) with
    | String c1 r1 =>
      if Ascii.eqb c1 "]" then Ok ([fst v], r1)
      else if Ascii.eqb c1 "," then
        p <- array_values fuel' (skip_ws r1) ;;
        Ok (fst v :: fst p, snd p)
      else Raise (ValueError "Expecting ',' delimiter")
    | EmptyString => Raise (ValueError "Expecting ',' delimiter")
    end
  end.

(** [json.loads]: one value between optional white space, nothing
    after it. *)
Definition loads (s : string) : result pyobj :=
  p <- scan_once (S (String.length s)) (skip_ws s) ;;
  match skip_ws (snd p) with
  | EmptyString => Ok (fst p)
  | String _ _ => Raise (ValueError "Extra data")
  end.

End Json.

(** ** [sorted] on a set of strings *)

Module PySorted.

(** Insertion into a strictly ascending list; an element already
    there is not added again, as in a set. *)
Fixpoint insert (x : string) (l : list string) : list string :=
  match l with
  | [] => [x]
  | y :: l' =>
    match String.compare x y with
    | Lt => x :: y :: l'
    | Eq => y :: l'
    | Gt => y :: insert x l'
    end
  end.

(** [sorted(set(l))] *)
Definition sorted_set (l : list string) : list string :=
  fold_right insert [] l.

Definition lt (a b : string) : Prop := String.compare a b = Lt.

End PySorted.

(** ** The [csv] module *)

Module Csv.

Import PyStr.

(** With [QUOTE_MINIMAL] a field is quoted when it holds the
    delimiter, the quote character or a character of the line
    terminator. *)
Definition special (c : ascii) : bool :=
  is_char "," c || is_char dquote c || is_char CR c || is_char LF c.

(** Inside quotes a quote character is written twice. *)
Fixpoint double_quotes (s : string) : string :=
  match s with
  | EmptyString => EmptyString
  | String c s' =>
    if is_char dquote c then String dquote (String dquote (double_quotes s'))
    else String c (double_quotes s')
  end.

Definition quoted (s : string) : string :=
  String dquote (double_quotes s ++ String dquote EmptyString).

Definition field (s : string) : string :=
  if existsb_char special s then quoted s else s.

(** [writer.writerow]: a record that is one empty field is written
    as an empty quoted field. *)
Definition writerow (fields : list string) : string :=
  match fields with
  | [EmptyString] => quoted EmptyString
  | _ => join "," (map field fields)
  end ++ String CR (String LF EmptyString).

(** [DictWriter._dict_to_list] with [restval] empty and
    [extrasaction="raise"]. *)
Definition dict_to_list (fieldnames : list string) (rowdict : Dict.t string)
  : result (list string) :=
  if forallb (fun k => existsb (String.eqb k) fieldnames) (Dict.keys rowdict)
  then Ok (map (fun k => match Dict.get rowdict k with
                         | Some v => v
                         | None => EmptyString
                         end) fieldnames)
  else Raise (ValueError "dict contains fields not in fieldnames").

(** The records of [writerows], in order. *)
Fixpoint dicts_to_lists (fieldnames : list string) (rows : list (Dict.t string))
  : result (list (list string)) :=
  match rows with
  | [] => Ok []
  | r :: rows' =>
    x <- dict_to_list fieldnames r ;;
    xs <- dicts_to_lists fieldnames rows' ;;
    Ok (x :: xs)
  end.

(** The text [writerows] adds to the file. *)
Definition text (records : list (list string)) : string :=
  fold_right (fun r acc => writerow r ++ acc) EmptyString records.

(** *** Reading

    [csv.reader] with the default dialect (delimiter comma, quote
    character the double quote, [doublequote] set, no escape
    character, not strict), on the lines of a file opened with
    [newline=""]. *)

(** The lines of a text with their ends kept, as iterating such a
    file gives them: a line ends at LF, at CR LF, or at a CR that no
    LF follows.  [cur] is the line so far and [after_cr] says that its
    last character is a CR. *)
Fixpoint lines_from (s cur : string) (after_cr : bool) : list string :=
  match s with
  | EmptyString =>
    match cur with
    | EmptyString => []
    | _ => [cur]
    end
  | String c s' =>
    if is_char LF c then
      (cur ++ String c EmptyString) :: lines_from s' EmptyString false
    else if after_cr then
      cur :: lines_from s' (String c EmptyString) (is_char CR c)
    else lines_from s' (cur ++ String c EmptyString) (is_char CR c)
  end.

Definition lines (s : string) : list string := lines_from s EmptyString false.

(** The states of the parser that the default dialect reaches; the
    three states of an escape character are left out, the dialect
    having none. *)
Inductive parse_state : Type :=
| START_RECORD
| START_FIELD
| IN_FIELD
| IN_QUOTED_FIELD
| QUOTE_IN_QUOTED_FIELD
| EAT_CRNL.

Record parser : Type := mk_parser {
  state : parse_state;
  buffer : string;
  fields : list string
}.

(** [parse_reset] *)
Definition parse_reset : parser := mk_parser START_RECORD EmptyString [].

(** [parse_save_field], then the state [next]. *)
Definition parse_save_field (p : parser) (next : parse_state) : parser :=
  mk_parser next EmptyString (fields p ++ [buffer p])%list.

Definition set_state (p : parser) (next : parse_state) : parser :=
  mk_parser next (buffer p) (fields p).

(** [parse_add_char], then the state [next]: a field that already
    holds [limit] characters takes no more, and the reader raises
    [_csv.Error], for which [None] stands.  The characters counted
    are code points: a continuation byte belongs to the code point
    its lead byte began. *)
Definition parse_add_char (limit : Z) (p : parser) (c : ascii)
           (next : parse_state) : option parser :=
  if negb (is_continuation c) && (limit <=? code_points (buffer p)) then None
  else Some (mk_parser next (buffer p ++ String c EmptyString) (fields p)).

Definition is_newline (c : ascii) : bool := is_char LF c || is_char CR c.

(** The case [START_FIELD] of [parse_process_char], which the case
    [START_RECORD] falls into; [None] as a character is the end of
    the line. *)
Definition start_field (limit : Z) (p : parser) (c : option ascii)
  : option parser :=
  match c with
  | None => Some (parse_save_field p START_RECORD)
  | Some c =>
    if is_newline c then Some (parse_save_field p EAT_CRNL)
    else if is_char dquote c then Some (set_state p IN_QUOTED_FIELD)
    else if is_char "," c then Some (parse_save_field p START_FIELD)
    else parse_add_char limit p c IN_FIELD
  end.

(** [parse_process_char] *)
Definition parse_process_char (limit : Z) (p : parser) (c : option ascii)
  : option parser :=
  match state p with
  | START_RECORD =>
    match c with
    | None => Some p
    | Some ch =>
      if is_newline ch then Some (set_state p EAT_CRNL)
      else start_field limit p c
    end
  | START_FIELD => start_field limit p c
  | IN_FIELD =>
    match c with
    | None => Some (parse_save_field p START_RECORD)
    | Some ch =>
      if is_newline ch then Some (parse_save_field p EAT_CRNL)
      else if is_char "," ch then Some (parse_save_field p START_FIELD)
      else parse_add_char limit p ch IN_FIELD
    end
  | IN_QUOTED_FIELD =>
    match c with
    | None => Some p
    | Some ch =>
      if is_char dquote ch then Some (set_state p QUOTE_IN_QUOTED_FIELD)
      else parse_add_char limit p ch IN_QUOTED_FIELD
    end
  | QUOTE_IN_QUOTED_FIELD =>
    match c with
    | None => Some (parse_save_field p START_RECORD)
    | Some ch =>
      if is_char dquote ch then parse_add_char limit p ch IN_QUOTED_FIELD
      else if is_char "," ch then Some (parse_save_field p START_FIELD)
      else if is_newline ch then Some (parse_save_field p EAT_CRNL)
      else parse_add_char limit p ch IN_FIELD
    end
  | EAT_CRNL =>
    match c with
    | None => Some (set_state p START_RECORD)
    | Some ch => if is_newline ch then Some p else None
    end
  end.

(** The characters of one line. *)
Fixpoint feed (limit : Z) (p : parser) (line : string) : option parser :=
  match line with
  | EmptyString => Some p
  | String c line' =>
    match parse_process_char limit p (Some c) with
    | Some p' => feed limit p' line'
    | None => None
    end
  end.

(** [list(reader)]: [Reader_iternext] takes lines until the parser is
    back at the start of a record, and returns the fields; when the
    lines run out inside a record, what it holds is the last record. *)
Fixpoint read_lines (limit : Z) (p : parser) (ls : list string)
  : option (list (list string)) :=
  match ls with
  | [] =>
    if negb (String.eqb (buffer p) EmptyString)
       || match state p with IN_QUOTED_FIELD => true | _ => false end
    then Some [fields (parse_save_field p START_RECORD)]
    else Some []
  | l :: ls' =>
    match feed limit p l with
    | None => None
    | Some p1 =>
      match parse_process_char limit p1 None with
      | None => None
      | Some p2 =>
        match state p2 with
        | START_RECORD =>
          option_map (cons (fields p2)) (read_lines limit parse_reset ls')
        | _ => read_lines limit p2 ls'
        end
      end
    end
  end.

(** [csv.field_size_limit()] *)
Definition field_limit : Z := 131072.

(** [list(csv.reader(f))] for a file [f] with the text [s]. *)
Definition reader (s : string) : option (list (list string)) :=
  read_lines field_limit parse_reset (lines s).

End Csv.

(** ** [pathlib] *)

Module Path.

Import PyStr.

(** The components of a path: the text between slashes, without the
    empty ones and the single dots. *)
Fixpoint split_acc (s : string) (cur : string) : list string :=
  match s with
  | EmptyString => [cur]
  | String c s' =>
    if is_char "/" c then cur :: split_acc s' EmptyString
    else split_acc s' (cur ++ String c EmptyString)
  end.

Definition parts (p : string) : list string :=
  filter (fun x => negb (String.eqb x EmptyString || String.eqb x "."))
         (split_acc p EmptyString).

(** [PurePath.name] *)
Definition name (p : string) : string := last (parts p) EmptyString.

(** The part of [s] from its last dot on. *)
Fixpoint from_last_dot (s : string) : option string :=
  match s with
  | EmptyString => None
  | String c s' =>
    match from_last_dot s' with
    | Some x => Some x
    | None => if is_char "." c then Some s else None
    end
  end.

(** [PurePath.suffix]: with [i = name.rfind('.')], the text from [i]
    on when [0 < i < len(name) - 1], else empty. *)
Definition suffix (p : string) : string :=
  let n := name p in
  match from_last_dot n with
  | Some suf =>
    if (String.length suf <? String.length n)%nat
       && (1 <? String.length suf)%nat
    then suf else EmptyString
  | None => EmptyString
  end.

End Path.

(** ** The program *)

(** *** Configuration *)

Definition LOG_GROUPS : list string :=
  [ "/aws/lambda/bm-qrec-api-redeban";
    "/aws/lambda/bm-qrec-authorizer";
    "/aws/lambda/bm-qrec-do-transaction" ].

Definition QUERY_STRING : string :=
"
fields @timestamp, @logStream, @message, @entity.KeyAttributes.Name
| sort @timestamp desc
| limit 10000
".

(** *** Data *)

(** A cell of a raw result row: a dict with the keys [field] and
    [value]. *)
Definition cell : Type := Dict.t string.

(** A raw result row, as the service returns it. *)
Definition raw_row : Type := list cell.

(** A flattened row. *)
Definition row : Type := Dict.t string.

(** The reply of [get_query_results]. *)
Record response : Type := mk_response {
  status : string;
  results : list raw_row
}.

(** Row dictionaries are objects on a heap, named by their address; a
    list of rows holds addresses. *)
Definition addr : Type := nat.

Definition heap_t : Type := list row.

(** A call on the [logs] client. *)
Inductive api_call : Type :=
| StartQuery (logGroupName : string) (startTime endTime : Z) (queryString : string)
| GetQueryResults (queryId : string).

(** The parsed command line. *)
Record args : Type := mk_args {
  fecha_ini : string;
  hora_ini : string;
  fecha_fin : option string;
  hora_fin : option string;
  out : option string
}.

(** Truth value of an optional string: [None] and the empty string are
    false. *)
Definition truthy (o : option string) : bool :=
  match o with
  | Some (String _ _) => true
  | _ => false
  end.

(** How a run of a piece of the program ends. *)
Inductive outcome (A : Type) : Type :=
| Ret (a : A)
| Exc (e : exn)
| Exit (code : Z)
| Diverge.

Arguments Ret {A} a.
Arguments Exc {A} e.
Arguments Exit {A} code.
Arguments Diverge {A}.

(** *** Pure parts *)

(** One row of [flatten]: the dict comprehension evaluates the key,
    then the value, of each cell in order and assigns. *)
Fixpoint flatten_row (r : raw_row) (acc : row) : result row :=
  match r with
  | [] => Ok acc
  | c :: r' =>
    k <- Dict.getitem c "field" ;;
    v <- Dict.getitem c "value" ;;
    flatten_row r' (Dict.set acc k v)
  end.

(** [flatten] *)
Fixpoint flatten (results : list raw_row) : result (list row) :=
  match results with
  | [] => Ok []
  | r :: results' =>
    d <- flatten_row r Dict.empty ;;
    ds <- flatten results' ;;
    Ok (d :: ds)
  end.

(** A flattened row as a Python object. *)
Definition py_of_row (r : row) : Json.pyobj :=
  Json.PDict (map (fun kv => (fst kv, Json.PStr (snd kv))) r).

Definition py_of_rows (rows : list row) : Json.pyobj :=
  Json.PList (map py_of_row rows).

(** A mapping from log group to rows as a Python object. *)
Definition py_of_data (data : Dict.t (list row)) : Json.pyobj :=
  Json.PDict (map (fun kv => (fst kv, py_of_rows (snd kv))) data).

Section Program.

(** The remote service: a state and the two operations the program
    consumes. *)
Variable Svc : Type.
Variable svc_start_query :
  Svc -> string -> Z -> Z -> string -> Svc * result string.
Variable svc_get_query_results : Svc -> string -> Svc * result response.

(** Whether [from tabulate import tabulate] succeeds. *)
Variable tabulate_installed : bool.

(** [datetime.now()] *)
Variable now : DateTime.datetime.

(** [Path.resolve] and whether a path can be opened for writing. *)
Variable resolve : string -> string.
Variable writable : string -> bool.

(** What the program can observe and change. *)
Record world : Type := mk_world {
  heap : heap_t;
  stdout : list string;
  files : Dict.t string;
  api_log : list api_call;
  sleeps : list Z;
  svc : Svc
}.

Definition M (A : Type) : Type := world -> world * outcome A.

Definition ret {A : Type} (a : A) : M A := fun w => (w, Ret a).

Definition mbind {A B : Type} (m : M A) (k : A -> M B) : M B :=
  fun w =>
    match m w with
    | (w', Ret a) => k a w'
    | (w', Exc e) => (w', Exc e)
    | (w', Exit c) => (w', Exit c)
    | (w', Diverge) => (w', Diverge)
    end.

Definition raise {A : Type} (e : exn) : M A := fun w => (w, Exc e).

Definition sys_exit {A : Type} (code : Z) : M A := fun w => (w, Exit code).

Definition lift {A : Type} (r : result A) : M A :=
  match r with
  | Ok a => ret a
  | Raise e => raise e
  end.

(** [try: body except ClientError as e: handler(e)] *)
Definition try_except_ClientError {A : Type} (body : M A)
           (handler : string -> M A) : M A :=
  fun w =>
    match body w with
    | (w', Exc (ClientError msg)) => handler msg w'
    | r => r
    end.

Notation "x <~ m ;; k" := (mbind m (fun x => k))
  (at level 61, m at next level, right associativity).

(** [print(s)]: one more line on the console. *)
Definition print (s : string) : M unit :=
  fun w =>
    (mk_world (heap w) (stdout w ++ [s])%list (files w) (api_log w) (sleeps w)
              (svc w), Ret tt).

(** [time.sleep(seconds)] *)
Definition sleep (seconds : Z) : M unit :=
  fun w =>
    (mk_world (heap w) (stdout w) (files w) (api_log w)
              (sleeps w ++ [seconds])%list (svc w), Ret tt).

(** The object at an address. *)
Definition deref (h : heap_t) (a : addr) : row := nth a h Dict.empty.

(** A new dict object holding [r]. *)
Definition alloc (r : row) : M addr :=
  fun w =>
    (mk_world (heap w ++ [r])%list (stdout w) (files w) (api_log w) (sleeps w)
              (svc w), Ret (length (heap w))).

Fixpoint alloc_rows (rows : list row) : M (list addr) :=
  match rows with
  | [] => ret []
  | r :: rows' =>
    a <~ alloc r ;;
    rest <~ alloc_rows rows' ;;
    ret (a :: rest)
  end.

Fixpoint update_nth {A : Type} (n : nat) (x : A) (l : list A) : list A :=
  match l, n with
  | [], _ => []
  | _ :: l', O => x :: l'
  | y :: l', S n' => y :: update_nth n' x l'
  end.

(** [r.copy()]: a new object with the same items. *)
Definition dict_copy (a : addr) : M addr :=
  fun w => alloc (deref (heap w) a) w.

(** [r[k] = v] on the object at [a]. *)
Definition dict_setitem (a : addr) (k v : string) : M unit :=
  fun w =>
    (mk_world (update_nth a (Dict.set (deref (heap w) a) k v) (heap w))
              (stdout w) (files w) (api_log w) (sleeps w) (svc w), Ret tt).

(** [file_path.open("w")]: the file is created or emptied. *)
Definition open_w (file_path : string) : M unit :=
  fun w =>
    if writable file_path then
      (mk_world (heap w) (stdout w)
                (Dict.set (files w) (resolve file_path) EmptyString)
                (api_log w) (sleeps w) (svc w), Ret tt)
    else (w, Exc (OSError file_path)).

(** [f.write(text)] on the file opened at [file_path] with
    [encoding="utf-8"]: the text is encoded before any of it is
    written, and a text that holds a surrogate raises
    [UnicodeEncodeError] and leaves the file as it is. *)
Definition file_write (file_path : string) (text : string) : M unit :=
  fun w =>
    if PyStr.utf8_encodable text then
      let old := match Dict.get (files w) (resolve file_path) with
                 | Some c => c
                 | None => EmptyString
                 end in
      (mk_world (heap w) (stdout w)
                (Dict.set (files w) (resolve file_path) (old ++ text))
                (api_log w) (sleeps w) (svc w), Ret tt)
    else (w, Exc (UnicodeEncodeError "surrogates not allowed")).

(** [for chunk in chunks: f.write(chunk)], the loop of [json.dump]. *)
Fixpoint write_all (file_path : string) (chunks : list string) : M unit :=
  match chunks with
  | [] => ret tt
  | chunk :: chunks' =>
    _ <~ file_write file_path chunk ;;
    write_all file_path chunks'
  end.

(** [DictWriter.writerows]: each row is turned into a record and
    written, one [write] a record, before the next is looked at. *)
Fixpoint writerows (file_path : string) (fieldnames : list string)
         (rows : list row) : M unit :=
  match rows with
  | [] => ret tt
  | r :: rows' =>
    record <~ lift (Csv.dict_to_list fieldnames r) ;;
    _ <~ file_write file_path (Csv.writerow record) ;;
    writerows file_path fieldnames rows'
  end.

(** [start_query] *)
Definition start_query (log_group : string) (start_ts end_ts : Z) : M string :=
  fun w =>
    let q := PyStr.strip QUERY_STRING in
    let '(s', resp) := svc_start_query (svc w) log_group start_ts end_ts q in
    lift resp
         (mk_world (heap w) (stdout w) (files w)
                   (api_log w ++ [StartQuery log_group start_ts end_ts q])%list
                   (sleeps w) s').

(** [logs.get_query_results(queryId=query_id)] *)
Definition get_query_results (query_id : string) : M response :=
  fun w =>
    let '(s', resp) := svc_get_query_results (svc w) query_id in
    lift resp
         (mk_world (heap w) (stdout w) (files w)
                   (api_log w ++ [GetQueryResults query_id])%list (sleeps w) s').

Definition terminal_failure (status : string) : bool :=
  String.eqb status "Cancelled" || String.eqb status "Failed"
  || String.eqb status "Timeout".

(** [wait_results].  The loop of the source has no bound; [fuel] is
    the number of fetches after which the model gives up with
    [Diverge].  The poll interval, the float [1.0] of the source, is
    only handed on to [time.sleep]; it is kept as a number of seconds. *)
Fixpoint wait_results (fuel : nat) (query_id : string) (poll_interval : Z)
  : M (list raw_row) :=
  match fuel with
  | O => fun w => (w, Diverge)
  | S fuel' =>
    resp <~ get_query_results query_id ;;
    if String.eqb (status resp) "Complete" then ret (results resp)
    else if terminal_failure (status resp) then
      raise (RuntimeError ("Consulta " ++ query_id ++ " terminó con estado "
                                       ++ status resp))
    else
      _ <~ sleep poll_interval ;;
      wait_results fuel' query_id poll_interval
  end.

(** The rows behind a list of addresses. *)
Definition rows_at (h : heap_t) (rows : list addr) : list row :=
  map (deref h) rows.

(** [pretty_print] *)
Definition pretty_print (rows : list addr) : M unit :=
  fun w =>
    match rows with
    | [] => print "No se encontraron eventos." w
    | _ =>
      if tabulate_installed then ret tt w
      else print (Json.dumps (py_of_rows (rows_at (heap w) rows))) w
    end.

(** The mapping with every address replaced by the row it names. *)
Definition data_at (h : heap_t) (data : Dict.t (list addr))
  : Dict.t (list row) :=
  map (fun kv => (fst kv, rows_at h (snd kv))) data.

(** The inner loop of the CSV branch: a copy of each row, tagged with
    its log group, is appended to [all_rows]. *)
Fixpoint tag_rows (lg : string) (rows : list addr) (all_rows : list addr)
  : M (list addr) :=
  match rows with
  | [] => ret all_rows
  | r :: rows' =>
    r' <~ dict_copy r ;;
    _ <~ dict_setitem r' "log_group" lg ;;
    tag_rows lg rows' (all_rows ++ [r'])%list
  end.

(** The outer loop, over [data.items()]. *)
Fixpoint collect_rows (items : list (string * list addr)) (all_rows : list addr)
  : M (list addr) :=
  match items with
  | [] => ret all_rows
  | (lg, rows) :: items' =>
    all_rows' <~ tag_rows lg rows all_rows ;;
    collect_rows items' all_rows'
  end.

(** [sorted({k for row in all_rows for k in row.keys()})] *)
Definition fieldnames_of (rows : list row) : list string :=
  PySorted.sorted_set (flat_map Dict.keys rows).

(** [save_results] *)
Definition save_results (data : Dict.t (list addr)) (file_path : string)
  : M unit :=
  let suffix := PyStr.lower (Path.suffix file_path) in
  if String.eqb suffix ".json" then
    _ <~ open_w file_path ;;
    _ <~ (fun w => write_all file_path
                     (Json.iterencode 0 (py_of_data (data_at (heap w) data)))
                     w) ;;
    print ("Resultados guardados en " ++ resolve file_path ++ " (JSON).")
  else if String.eqb suffix ".csv" then
    all_rows <~ collect_rows data [] ;;
    match all_rows with
    | [] => print "No hay datos para guardar en CSV."
    | _ =>
      fun w =>
        let rows := rows_at (heap w) all_rows in
        let fieldnames := fieldnames_of rows in
        (_ <~ open_w file_path ;;
         _ <~ file_write file_path (Csv.writerow fieldnames) ;;
         _ <~ writerows file_path fieldnames rows ;;
         print ("Resultados guardados en " ++ resolve file_path ++ " (CSV).")) w
    end
  else
    print ("Extensión " ++ suffix ++ " no soportada. Usa .json o .csv").

(** The body of the loop over [LOG_GROUPS]. *)
Definition query_group (fuel : nat) (lg : string) (start_ts end_ts : Z)
           (salida_total : Dict.t (list addr)) : M (Dict.t (list addr)) :=
  _ <~ print ("===> Log group: " ++ lg) ;;
  salida <~ try_except_ClientError
    (qid <~ start_query lg start_ts end_ts ;;
     raw <~ wait_results fuel qid 1 ;;
     flat <~ lift (flatten raw) ;;
     rows <~ alloc_rows flat ;;
     _ <~ pretty_print rows ;;
     ret (Dict.set salida_total lg rows))
    (fun e =>
       _ <~ print ("Error consultando " ++ lg ++ ": " ++ e) ;;
       ret salida_total) ;;
  _ <~ print EmptyString ;;
  ret salida.

Fixpoint query_groups (fuel : nat) (lgs : list string) (start_ts end_ts : Z)
         (salida_total : Dict.t (list addr)) : M (Dict.t (list addr)) :=
  match lgs with
  | [] => ret salida_total
  | lg :: lgs' =>
    salida <~ query_group fuel lg start_ts end_ts salida_total ;;
    query_groups fuel lgs' start_ts end_ts salida
  end.

(** The time window of [main]: what the [try] block computes. *)
Definition time_window (a : args)
  : result (DateTime.datetime * DateTime.datetime) :=
  dt <- parse_cli_time (fecha_ini a) (hora_ini a) ;;
  h <- five_hours ;;
  start_dt <- DateTime.add dt h ;;
  end_dt <-
    (if truthy (fecha_fin a) && truthy (hora_fin a) then
       match fecha_fin a, hora_fin a with
       | Some d, Some t =>
         dt' <- parse_cli_time d t ;;
         h' <- five_hours ;;
         DateTime.add dt' h'
       | _, _ => Ok now
       end
     else Ok now) ;;
  Ok (start_dt, end_dt).

(** [main], after [parse_args]. *)
Definition main (fuel : nat) (a : args) : M unit :=
  match time_window a with
  | Raise (ValueError _) =>
    _ <~ print "Error en el formato de fecha/hora. Usa YYYY-MM-DD HH:MM" ;;
    sys_exit 1
  | Raise e => raise e
  | Ok (start_dt, end_dt) =>
    if DateTime.ge start_dt end_dt then
      _ <~ print "La fecha de inicio debe ser anterior a la final." ;;
      sys_exit 1
    else
      let start_ts := to_epoch start_dt in
      let end_ts := to_epoch end_dt in
      _ <~ print ("Ejecutando consulta entre " ++ DateTime.to_str start_dt
                    ++ " y " ++ DateTime.to_str end_dt ++ "..."
                    ++ String PyStr.LF EmptyString) ;;
      salida_total <~ query_groups fuel LOG_GROUPS start_ts end_ts Dict.empty ;;
      if truthy (out a) then
        match out a with
        | Some p => save_results salida_total p
        | None => ret tt
        end
      else ret tt
  end.

(** [build_arg_parser().parse_args()] on a command line: the lines
    [argparse] prints on the console, and either the arguments or the
    status with which it ends the process itself (2 for a command
    line it refuses, 0 after [--help]).  What [argparse] answers to
    which command line is not described here. *)
Variable parse_args : list string -> list string * (args + Z).

(** [main] from its first line: [parse_args], then the body above. *)
Definition main_argv (fuel : nat) (argv : list string) : M unit :=
  fun w =>
    let '(printed, parsed) := parse_args argv in
    let w' := mk_world (heap w) (stdout w ++ printed)%list (files w)
                       (api_log w) (sleeps w) (svc w) in
    match parsed with
    | inl a => main fuel a w'
    | inr status => sys_exit status w'
    end.

(** The exit status of the process; an uncaught exception ends it
    with status 1. *)
Definition exit_status {A : Type} (o : outcome A) : option Z :=
  match o with
  | Ret _ => Some 0
  | Exit c => Some c
  | Exc _ => Some 1
  | Diverge => None
  end.

End Program.

Arguments mk_world {Svc}.
Arguments heap {Svc}.
Arguments stdout {Svc}.
Arguments files {Svc}.
Arguments api_log {Svc}.
Arguments sleeps {Svc}.
Arguments svc {Svc}.

(** ** A scripted service

    A concrete remote service for examples: the reply to
    [start_query] is looked up by log group, the replies to
    [get_query_results] are consumed in order for each query id; a
    query whose script has run out stays [Running]. *)

Module Scripted.

Record state : Type := mk_state {
  starts : Dict.t (result string);
  polls : Dict.t (list (result response))
}.

Definition start_query (st : state) (lg : string) (start_ts end_ts : Z)
           (q : string) : state * result string :=
  match Dict.get (starts st) lg with
  | Some r => (st, r)
  | None => (st, Raise (ClientError "ResourceNotFoundException"))
  end.

Definition get_query_results (st : state) (qid : string)
  : state * result response :=
  match Dict.get (polls st) qid with
  | Some (r :: rest) => (mk_state (starts st) (Dict.set (polls st) qid rest), r)
  | _ => (st, Ok (mk_response "Running" []))
  end.

Definition init (st : state) : world state :=
  mk_world [] [] Dict.empty [] [] st.

Definition cell_of (f v : string) : cell := [("field", f); ("value", v)].

End Scripted.

(** ** Notions used in the statements *)

(** A raw cell carrying the field name [fst fv] and the value
    [snd fv]. *)
Definition cell_is (c : cell) (fv : string * string) : Prop :=
  Dict.get c "field" = Some (fst fv) /\ Dict.get c "value" = Some (snd fv).

(** The value of the last pair of [l] whose key is [k]. *)
Definition last_value (l : list (string * string)) (k : string) : option string :=
  Dict.get (rev l) k.

(** Replies of the service used in examples. *)
Definition running : result response := Ok (mk_response "Running" []).

Definition complete (rows : list raw_row) : result response :=
  Ok (mk_response "Complete" rows).

Definition failed : result response := Ok (mk_response "Failed" []).

(** One raw row with the fields [a] and [b]. *)
Definition sample_rows : list raw_row :=
  [[Scripted.cell_of "a" "1"; Scripted.cell_of "b" "2"]].

(** A service whose first log group starts query [q1], which ends in
    the state [Failed]; the two other groups would complete. *)
Definition failing_service : Scripted.state :=
  Scripted.mk_state
    [("/aws/lambda/bm-qrec-api-redeban", Ok "q1");
     ("/aws/lambda/bm-qrec-authorizer", Ok "q2");
     ("/aws/lambda/bm-qrec-do-transaction", Ok "q3")]
    [("q1", [running; failed]);
     ("q2", [complete sample_rows]);
     ("q3", [complete sample_rows])].

(** The clock and the file system of the examples. *)
Definition sample_now : DateTime.datetime :=
  DateTime.mk_datetime 2025 5 9 0 0 0 123.

Definition sample_resolve (p : string) : string := "/cwd/" ++ p.

(** A run of [main] against a scripted service. *)
Definition run_scripted (st : Scripted.state) (tabulate_installed : bool)
           (fuel : nat) (a : args) : world Scripted.state * outcome unit :=
  main Scripted.state Scripted.start_query Scripted.get_query_results
       tabulate_installed sample_now sample_resolve (fun _ => true) fuel a
       (Scripted.init st).

(** Every address of [data] names an object of the heap [h]. *)
Definition data_ok (h : heap_t) (data : Dict.t (list addr)) : Prop :=
  Forall (fun kv => Forall (fun a => (a < length h)%nat) (snd kv)) data.

(** The rows of [data], group after group, each with its log group
    under the key [log_group]. *)
Definition tagged_rows (h : heap_t) (data : Dict.t (list addr)) : list row :=
  flat_map (fun kv => map (fun a => Dict.set (nth a h Dict.empty) "log_group" (fst kv))
                          (snd kv)) data.

(** The cell of row [r] in column [k]: the value, or nothing. *)
Definition csv_cell (r : row) (k : string) : string :=
  match Dict.get r k with
  | Some v => v
  | None => EmptyString
  end.

(** The number of rows of [data]. *)
Definition row_count (data : Dict.t (list addr)) : nat :=
  list_sum (map (fun kv => length (snd kv)) data).

(** A heap with the two rows of the heterogeneous example, and the
    mapping that sends group [A] to the first and group [B] to the
    second. *)
Definition sample_heap : heap_t := [[("x", "1")]; [("y", "2")]].

Definition sample_data : Dict.t (list addr) := [("A", [0%nat]); ("B", [1%nat])].

Definition sample_world : world unit :=
  mk_world sample_heap [] Dict.empty [] [] tt.

(** The lone surrogate U+D800, a value that [json.loads] gives for
    the escape [\ud800]; a heap with one row that has it under [x],
    and the mapping that sends group [A] to that row. *)
Definition lone_surrogate : string :=
  String (ascii_of_nat 237)
         (String (ascii_of_nat 160) (String (ascii_of_nat 128) EmptyString)).

Definition surrogate_heap : heap_t := [[("x", lone_surrogate)]].

Definition surrogate_data : Dict.t (list addr) := [("A", [0%nat])].

Definition surrogate_world : world unit :=
  mk_world surrogate_heap [] Dict.empty [] [] tt.

(** ** Notions used for the JSON round trip *)

Module JsonView.

Import PyStr Json.

(** Every dict of the object has its keys once. *)
Fixpoint wf (o : pyobj) : Prop :=
  match o with
  | PList l => fold_right (fun x acc => wf x /\ acc) True l
  | PDict d =>
    NoDup (map fst d) /\ fold_right (fun kv acc => wf (snd kv) /\ acc) True d
  | _ => True
  end.

(** UTF-8 can encode every string of the object. *)
Fixpoint encodable (o : pyobj) : bool :=
  match o with
  | PStr s => utf8_encodable s
  | PList l => forallb encodable l
  | PDict d => forallb (fun kv => utf8_encodable (fst kv) && encodable (snd kv)) d
  | _ => true
  end.

(** The number of steps the decoder needs for an object. *)
Fixpoint size (o : pyobj) : nat :=
  match o with
  | PList l => S (fold_right (fun x acc => S (size x) + acc)%nat O l)
  | PDict d => S (fold_right (fun kv acc => S (size (snd kv)) + acc)%nat O d)
  | _ => 1%nat
  end.

(** The text of a non-empty list from its first element on, followed
    by [rest]. *)
Fixpoint elems_text (level : nat) (l : list pyobj) (rest : string) : string :=
  match l with
  | [] => rest
  | [x] => encode (S level) x ++ newline_indent level ++ String "]" rest
  | x :: l' =>
    encode (S level) x
      ++ String "," (newline_indent (S level) ++ elems_text level l' rest)
  end.

(** The text of a non-empty dict from just after the quote that opens
    its first key, followed by [rest]. *)
Fixpoint pairs_text (level : nat) (d : list (string * pyobj)) (rest : string)
  : string :=
  match d with
  | [] => rest
  | [kv] =>
    escape (fst kv)
      ++ String dquote
           (String ":" (String " "
              (encode (S level) (snd kv)
                 ++ newline_indent level ++ String "}" rest)))
  | kv :: d' =>
    escape (fst kv)
      ++ String dquote
           (String ":" (String " "
              (encode (S level) (snd kv)
                 ++ String ","
                      (newline_indent (S level)
                         ++ String dquote (pairs_text level d' rest)))))
  end.

(** What the round trip says of one object: the decoder, given
    enough fuel, reads the object back from its text and stops right
    after it. *)
Definition reads_back (o : pyobj) : Prop :=
  wf o ->
  forall fuel level rest,
    (size o <= fuel)%nat ->
    scan_once fuel (encode level o ++ rest) = Ok (o, rest).

End JsonView.

(** The dicts of [data] keep the invariant of Python dicts: no log
    group twice, and no field twice in a row. *)
Definition data_wf (h : heap_t) (data : Dict.t (list addr)) : Prop :=
  Dict.wf data
  /\ Forall (fun kv => Forall (fun a => Dict.wf (nth a h Dict.empty)) (snd kv)) data.

(** ** Notions used for the time window *)

(** The month and the day of [_ord2ymd] for the zero-based day [n] of
    a year: the last part of that function, on its own. *)
Definition month_day (n : Z) (leapyear : bool) : Z * Z :=
  let month := Z.shiftr (n + 50) 5 in
  let preceding :=
    DateTime.DAYS_BEFORE_MONTH month
    + (if (2 <? month) && leapyear then 1 else 0) in
  if n <? preceding then
    let month := month - 1 in
    let preceding :=
      preceding
      - (DateTime.DAYS_IN_MONTH month
         + (if (month =? 2) && leapyear then 1 else 0)) in
    (month, n - preceding + 1)
  else (month, n - preceding + 1).

(** Seconds since midnight. *)
Definition seconds_of_day (dt : DateTime.datetime) : Z :=
  DateTime.hour dt * 3600 + DateTime.minute dt * 60 + DateTime.second dt.

(** Seconds from the start of ordinal day 0 to the local time [dt]. *)
Definition local_seconds (dt : DateTime.datetime) : Z :=
  DateTime.toordinal dt * 86400 + seconds_of_day dt.

(** The first second that [datetime] cannot hold: the end of
    9999-12-31. *)
Definition end_of_time : Z := (DateTime.MAXORDINAL + 1) * 86400.

(** The days [0 .. n-1] as integers. *)
Definition days_upto (n : nat) : list Z := map Z.of_nat (seq 0 n).

(** [month_day] is right on day [r] of a year, leap or not. *)
Definition month_day_ok (leap : bool) (r : Z) : bool :=
  let '(m, d) := month_day r leap in
  (1 <=? m) && (m <=? 12) && (1 <=? d)
  && (d <=? DateTime.DAYS_IN_MONTH m + (if (m =? 2) && leap then 1 else 0))
  && (DateTime.DAYS_BEFORE_MONTH m + (if (2 <? m) && leap then 1 else 0) + d
      =? r + 1).

(** ** Notions used for the time format *)

(** How many times [c] occurs in [s]. *)
Fixpoint count_char (c : ascii) (s : string) : nat :=
  match s with
  | EmptyString => O
  | String x s' => ((if Ascii.eqb c x then 1 else 0) + count_char c s')%nat
  end.

(** How many times the literal [c] occurs in a compiled format. *)
Fixpoint count_lit (c : ascii) (p : list Strptime.item) : nat :=
  match p with
  | [] => O
  | Strptime.Lit x :: p' => ((if Ascii.eqb c x then 1 else 0) + count_lit c p')%nat
  | _ :: p' => count_lit c p'
  end.

(** ** Notions used for the runs of the poller and of the loop *)

(** A reply that keeps the poller waiting: its status is none of
    [Complete], [Cancelled], [Failed] and [Timeout]. *)
Definition keeps_waiting (r : response) : bool :=
  negb (String.eqb (status r) "Complete") && negb (terminal_failure (status r)).

(** Asked for the results of [qid] again and again from the state [s],
    the service answers [resps] in turn and is left in the state [s']. *)
Inductive polls {Svc : Type}
          (svc_get_query_results : Svc -> string -> Svc * result response)
          (qid : string) : Svc -> list response -> Svc -> Prop :=
| polls_nil (s : Svc) : polls svc_get_query_results qid s [] s
| polls_cons (s s1 s' : Svc) (r : response) (rs : list response) :
    svc_get_query_results s qid = (s1, Ok r) ->
    polls svc_get_query_results qid s1 rs s' ->
    polls svc_get_query_results qid s (r :: rs) s'.

(** The world after [n] fetches of [qid], each followed by a sleep of
    [interval], that leave the service in the state [s]. *)
Definition after_polls {Svc : Type} (w : world Svc) (qid : string)
           (interval : Z) (n : nat) (s : Svc) : world Svc :=
  mk_world (heap w) (stdout w) (files w)
           (api_log w ++ repeat (GetQueryResults qid) n)
           (sleeps w ++ repeat interval n) s.

(** A service whose queries never leave the state [Running]. *)
Definition always_running (s : unit) (qid : string) : unit * result response :=
  (s, Ok (mk_response "Running" [])).

(** A cell with both keys [flatten] reads. *)
Definition has_field_and_value (c : cell) : bool :=
  match Dict.get c "field", Dict.get c "value" with
  | Some _, Some _ => true
  | _, _ => false
  end.


(** ** Notions used for whole runs *)

(** The submission the program makes for a log group. *)
Definition submit (lg : string) (start_ts end_ts : Z) : api_call :=
  StartQuery lg start_ts end_ts (PyStr.strip QUERY_STRING).

Definition is_submission (c : api_call) : bool :=
  match c with
  | StartQuery _ _ _ _ => true
  | GetQueryResults _ => false
  end.

(** The submissions of a log of calls, in the order they were made. *)
Definition submissions (log : list api_call) : list api_call :=
  filter is_submission log.

(** From [w] to [w'] no file has changed and the submissions [calls]
    were made, in that order, and no other. *)
Definition adds {Svc : Type} (calls : list api_call) (w w' : world Svc) : Prop :=
  files w' = files w
  /\ submissions (api_log w') = (submissions (api_log w) ++ calls)%list.

(** What the Reporter prints for the rows [rows]. *)
Definition report (tabulate_installed : bool) (rows : list row) : list string :=
  match rows with
  | [] => ["No se encontraron eventos."]
  | _ => if tabulate_installed then [] else [Json.dumps (py_of_rows rows)]
  end.

(** The three lines of a log group whose query the service refused. *)
Definition refused_lines (lg msg : string) : list string :=
  ["===> Log group: " ++ lg; "Error consultando " ++ lg ++ ": " ++ msg;
   EmptyString].

(** From the state [s], the service accepts the query for [lg], keeps
    the poller waiting fewer than [fuel] times, then completes with
    the rows [raw]; it is left in the state [s']. *)
Inductive answers {Svc : Type}
          (svc_start_query : Svc -> string -> Z -> Z -> string -> Svc * result string)
          (svc_get_query_results : Svc -> string -> Svc * result response)
          (fuel : nat) (start_ts end_ts : Z) (lg : string)
          (s : Svc) (raw : list raw_row) (s' : Svc) : Prop :=
| answers_intro (s1 s2 : Svc) (qid : string) (resps : list response) :
    svc_start_query s lg start_ts end_ts (PyStr.strip QUERY_STRING) = (s1, Ok qid) ->
    polls svc_get_query_results qid s1 resps s2 ->
    forallb keeps_waiting resps = true ->
    (length resps < fuel)%nat ->
    svc_get_query_results s2 qid = (s', Ok (mk_response "Complete" raw)) ->
    answers svc_start_query svc_get_query_results fuel start_ts end_ts lg s raw s'.

(** A service that refuses every query. *)
Definition refuse_all (s : unit) (lg : string) (start_ts end_ts : Z) (q : string)
  : unit * result string :=
  (s, Raise (ClientError "AccessDeniedException")).

(** A service on which the queries of the three log groups complete
    at the first fetch, each with the rows of [sample_rows]. *)
Definition completing_service : Scripted.state :=
  Scripted.mk_state
    [("/aws/lambda/bm-qrec-api-redeban", Ok "q1");
     ("/aws/lambda/bm-qrec-authorizer", Ok "q2");
     ("/aws/lambda/bm-qrec-do-transaction", Ok "q3")]
    [("q1", [complete sample_rows]); ("q2", [running; complete sample_rows]);
     ("q3", [complete []])].

(** A service that accepts the query of the first log group and
    refuses to hand out its results. *)
Definition throttling_service : Scripted.state :=
  Scripted.mk_state
    [("/aws/lambda/bm-qrec-api-redeban", Ok "q1")]
    [("q1", [running; Raise (ClientError "ThrottlingException")])].

(** A service whose reply holds a cell without a value. *)
Definition malformed_service : Scripted.state :=
  Scripted.mk_state
    [("/aws/lambda/bm-qrec-api-redeban", Ok "q1")]
    [("q1", [complete [[Scripted.cell_of "a" "1"; [("field", "b")]]]])].

(** The arguments of the examples: a start, no end, and the output
    path. *)
Definition sample_args (out : option string) : args :=
  mk_args "2025-05-08" "07:14:00" None None out.

(** A stand-in for [parse_args] in the examples: the two positionals
    of the start, alone or followed by [--out] and a path, give the
    arguments; [--help] prints the usage and ends with status 0; any
    other command line is refused with status 2. *)
Definition sample_parse_args (argv : list string) : list string * (args + Z) :=
  match argv with
  | [fecha; hora] => ([], inl (mk_args fecha hora None None None))
  | [fecha; hora; flag; p] =>
    if String.eqb flag "--out"
    then ([], inl (mk_args fecha hora None None (Some p)))
    else (["usage: cloudwatch_query.py"], inr 2)
  | [flag] =>
    if String.eqb flag "--help" then (["usage: cloudwatch_query.py"], inr 0)
    else (["usage: cloudwatch_query.py"], inr 2)
  | _ => (["usage: cloudwatch_query.py"], inr 2)
  end.

(** ** Notions used for reading back a printed time *)

(** The date and the time of [str(dt)] for a [dt] with whole seconds. *)
Definition date_text (dt : DateTime.datetime) : string :=
  PyStr.zero_pad 4 (DateTime.year dt) ++ "-"
  ++ PyStr.zero_pad 2 (DateTime.month dt) ++ "-"
  ++ PyStr.zero_pad 2 (DateTime.day dt).

Definition time_text (dt : DateTime.datetime) : string :=
  PyStr.zero_pad 2 (DateTime.hour dt) ++ ":"
  ++ PyStr.zero_pad 2 (DateTime.minute dt) ++ ":"
  ++ PyStr.zero_pad 2 (DateTime.second dt).

(** The number [_strptime] reads from the text of a group. *)
Definition text_value (m : string) : Z :=
  match m with
  | String " " m' => PyStr.int_of_digits m'
  | _ => PyStr.int_of_digits m
  end.

Definition first_nonspace (m : string) : bool :=
  match m with
  | String c _ => negb (PyStr.is_space c)
  | EmptyString => false
  end.

(** The alternation [alts] takes the whole of [m] at its first
    alternative that matches, and no earlier alternative could match
    a text that starts with [m]. *)
Fixpoint picks (alts : list (list (ascii -> bool))) (m : string) : bool :=
  match alts with
  | [] => false
  | a :: alts' =>
    match Strptime.match_classes a m with
    | Some (_, EmptyString) => true
    | Some (_, String _ _) => false
    | None => (length a <=? String.length m)%nat && picks alts' m
    end
  end.

(** The alternatives of a directive of the format. *)
Definition alts_of (d : ascii) : list (list (ascii -> bool)) :=
  match Strptime.directive d with
  | Some alts => alts
  | None => []
  end.

(** The directive [d] reads the number [v], printed on [width]
    digits, as [v]. *)
Definition reads (d : ascii) (width : nat) (v : Z) : bool :=
  picks (alts_of d) (PyStr.zero_pad width v)
  && (text_value (PyStr.zero_pad width v) =? v)
  && first_nonspace (PyStr.zero_pad width v).

(** [reads] holds from [lo] to [hi]. *)
Definition reads_all (d : ascii) (width : nat) (lo hi : Z) : bool :=
  forallb (fun v => (v <? lo) || reads d width v) (days_upto (Z.to_nat (hi + 1))).

(** The compiled form of the format of [parse_cli_time]. *)
Definition cli_pattern : list Strptime.item :=
  [Strptime.Dir "Y" (alts_of "Y"); Strptime.Lit "-";
   Strptime.Dir "m" (alts_of "m"); Strptime.Lit "-";
   Strptime.Dir "d" (alts_of "d"); Strptime.Spaces;
   Strptime.Dir "H" (alts_of "H"); Strptime.Lit ":";
   Strptime.Dir "M" (alts_of "M"); Strptime.Lit ":";
   Strptime.Dir "S" (alts_of "S")]%list.

(** ** Notions used for what a file holds *)

(** The texts, one after the other. *)
Definition joined (texts : list string) : string :=
  fold_right append EmptyString texts.

(** What the file holds after the texts are written one by one: all
    of them up to the first that UTF-8 cannot encode. *)
Fixpoint written (texts : list string) : string :=
  match texts with
  | [] => EmptyString
  | t :: texts' =>
    if PyStr.utf8_encodable t then t ++ written texts' else EmptyString
  end.

(** How writing the texts one by one ends. *)
Definition write_outcome (texts : list string) : outcome unit :=
  if forallb PyStr.utf8_encodable texts then Ret tt
  else Exc (UnicodeEncodeError "surrogates not allowed").

(** The records of the rows under a header. *)
Definition csv_records (header : list string) (rows : list row)
  : list (list string) :=
  map (fun r => map (csv_cell r) header) rows.

(** UTF-8 can encode every key and value of the rows, and every log
    group and row of a mapping. *)
Definition row_encodable (r : row) : bool :=
  forallb (fun kv => PyStr.utf8_encodable (fst kv)
                     && PyStr.utf8_encodable (snd kv)) r.

Definition rows_encodable (rows : list row) : bool :=
  forallb row_encodable rows.

Definition data_encodable (data : Dict.t (list row)) : bool :=
  forallb (fun kv => PyStr.utf8_encodable (fst kv) && rows_encodable (snd kv))
          data.

(** The code of the first byte, 0 for the empty text. *)
Definition head_code (s : string) : Z :=
  match s with
  | String c _ => PyStr.code c
  | EmptyString => 0
  end.

(** The range of the second byte of a surrogate. *)
Definition in_surrogate_range (x : Z) : bool := (160 <=? x) && (x <=? 191).

(** No field of the records is longer than [limit] characters. *)
Definition within_limit (limit : Z) (records : list (list string)) : Prop :=
  Forall (Forall (fun f => PyStr.code_points f <= limit)) records.

(** ** Notions used for reading a CSV text back *)

(** The end of a line for the reader: the parser is told, and when it
    is back at the start of a record the fields are a record of the
    result, before what [k] reads from there. *)
Definition end_line (limit : Z) (p : Csv.parser)
           (k : Csv.parser -> option (list (list string)))
  : option (list (list string)) :=
  match Csv.parse_process_char limit p None with
  | None => None
  | Some p2 =>
    match Csv.state p2 with
    | Csv.START_RECORD => option_map (cons (Csv.fields p2)) (k Csv.parse_reset)
    | _ => k p2
    end
  end.

(** The reader on a text taken character by character instead of line
    by line: [p] is the parser after the characters of the line so
    far, [pending] says that there are such characters and [after_cr]
    that the last of them is a CR. *)
Fixpoint read_text (limit : Z) (p : Csv.parser) (pending after_cr : bool)
         (s : string) : option (list (list string)) :=
  match s with
  | EmptyString =>
    if pending then end_line limit p (fun p' => Csv.read_lines limit p' [])
    else Csv.read_lines limit p []
  | String c s' =>
    if PyStr.is_char PyStr.LF c then
      match Csv.parse_process_char limit p (Some c) with
      | None => None
      | Some p1 => end_line limit p1 (fun p' => read_text limit p' false false s')
      end
    else if after_cr then
      end_line limit p
               (fun p' =>
                  match Csv.parse_process_char limit p' (Some c) with
                  | None => None
                  | Some p1 => read_text limit p1 true (PyStr.is_char PyStr.CR c) s'
                  end)
    else
      match Csv.parse_process_char limit p (Some c) with
      | None => None
      | Some p1 => read_text limit p1 true (PyStr.is_char PyStr.CR c) s'
      end
  end.

(** The characters of all fields of the records, counted. *)
Definition total_code_points (records : list (list string)) : Z :=
  fold_right (fun r acc => fold_right (fun f acc' => PyStr.code_points f + acc') acc r)
             0 records.

(** * Properties *)

Local Open Scope list_scope.

(** ** Dictionaries *)

Section DictFacts.

Context {V : Type}.

Implicit Types (d : Dict.t V) (k : string) (v : V).

Lemma dict_get_set_same d k v : Dict.get (Dict.set d k v) k = Some v.
Proof.
  induction d as [|[k' v'] d IH]; simpl.
  - now rewrite String.eqb_refl.
  - destruct (String.eqb k k') eqn:E; simpl; rewrite E; auto.
Qed.

Lemma dict_get_set_other d k k' v :
  k' <> k -> Dict.get (Dict.set d k v) k' = Dict.get d k'.
Proof.
  intros Hne. induction d as [|[k0 v0] d IH]; simpl.
  - apply String.eqb_neq in Hne. now rewrite Hne.
  - destruct (String.eqb k k0) eqn:E; simpl.
    + apply String.eqb_eq in E. subst k0.
      apply String.eqb_neq in Hne. now rewrite Hne.
    + now rewrite IH.
Qed.

Lemma dict_keys_set_in d k v k' :
  In k' (Dict.keys (Dict.set d k v)) <-> k' = k \/ In k' (Dict.keys d).
Proof.
  induction d as [|[k0 v0] d IH]; simpl.
  - intuition.
  - destruct (String.eqb k k0) eqn:E; simpl.
    + apply String.eqb_eq in E. subst k0. intuition.
    + rewrite IH. intuition.
Qed.

Lemma dict_set_wf d k v : Dict.wf d -> Dict.wf (Dict.set d k v).
Proof.
  unfold Dict.wf. induction d as [|[k0 v0] d IH]; simpl; intros Hwf.
  - constructor; [intros []|constructor].
  - inversion Hwf as [|? ? Hnotin Hnd]; subst.
    destruct (String.eqb k k0) eqn:E; simpl.
    + constructor; assumption.
    + constructor; [|auto].
      intros Hin. apply dict_keys_set_in in Hin. destruct Hin as [->|Hin].
      * now rewrite String.eqb_refl in E.
      * contradiction.
Qed.

Lemma dict_set_fresh d k v :
  ~ In k (Dict.keys d) -> Dict.set d k v = (d ++ [(k, v)])%list.
Proof.
  induction d as [|[k0 v0] d IH]; simpl; intros Hnotin; [reflexivity|].
  destruct (String.eqb k k0) eqn:E.
  - apply String.eqb_eq in E. subst. tauto.
  - rewrite IH by tauto. reflexivity.
Qed.

Lemma fold_set_wf (l : list (string * V)) d :
  Dict.wf d ->
  Dict.wf (fold_left (fun d kv => Dict.set d (fst kv) (snd kv)) l d).
Proof.
  revert d. induction l as [|[k v] l IH]; simpl; intros d Hwf; auto.
  apply IH, dict_set_wf, Hwf.
Qed.

Lemma of_pairs_wf (l : list (string * V)) : Dict.wf (Dict.of_pairs l).
Proof. apply fold_set_wf. constructor. Qed.

Lemma fold_set_get (l : list (string * V)) d k :
  Dict.get (fold_left (fun d kv => Dict.set d (fst kv) (snd kv)) l d) k =
  match Dict.get (rev l) k with
  | Some v => Some v
  | None => Dict.get d k
  end.
Proof.
  revert d. induction l as [|[k0 v0] l IH]; simpl; intros d; [reflexivity|].
  rewrite IH. clear IH.
  assert (Hrev : forall (a b : Dict.t V),
             Dict.get (a ++ b)%list k =
             match Dict.get a k with Some v => Some v | None => Dict.get b k end).
  { induction a as [|[ka va] a IHa]; simpl; intros b; [reflexivity|].
    destruct (String.eqb k ka); auto. }
  rewrite Hrev. destruct (Dict.get (rev l) k); [reflexivity|]. simpl.
  destruct (String.eqb k k0) eqn:E.
  - apply String.eqb_eq in E. subst. apply dict_get_set_same.
  - apply dict_get_set_other. intros ->. now rewrite String.eqb_refl in E.
Qed.

(** [dict(pairs)] maps a key to the value of its last pair. *)
Lemma of_pairs_get (l : list (string * V)) k :
  Dict.get (Dict.of_pairs l) k = Dict.get (rev l) k.
Proof.
  unfold Dict.of_pairs. rewrite fold_set_get.
  destruct (Dict.get (rev l) k); reflexivity.
Qed.

Lemma fold_set_keys (l : list (string * V)) d k :
  In k (Dict.keys (fold_left (fun d kv => Dict.set d (fst kv) (snd kv)) l d))
  <-> In k (map fst l) \/ In k (Dict.keys d).
Proof.
  revert d. induction l as [|[k0 v0] l IH]; simpl; intros d; [tauto|].
  rewrite IH, dict_keys_set_in. intuition.
Qed.

Lemma of_pairs_keys (l : list (string * V)) k :
  In k (Dict.keys (Dict.of_pairs l)) <-> In k (map fst l).
Proof. unfold Dict.of_pairs. rewrite fold_set_keys. simpl. tauto. Qed.

Lemma fold_set_nodup (l : list (string * V)) d :
  NoDup (Dict.keys d ++ map fst l) ->
  fold_left (fun d kv => Dict.set d (fst kv) (snd kv)) l d = (d ++ l)%list.
Proof.
  revert d. induction l as [|[k v] l IH]; simpl; intros d Hnd.
  - now rewrite app_nil_r.
  - assert (Hk : ~ In k (Dict.keys d)).
    { apply NoDup_remove_2 in Hnd. intros Hin. apply Hnd, in_or_app. auto. }
    rewrite (dict_set_fresh d k v Hk), IH.
    + now rewrite <- app_assoc.
    + unfold Dict.keys in *. rewrite map_app. simpl.
      rewrite <- app_assoc. exact Hnd.
Qed.

(** A list of pairs without a repeated key is its own dict. *)
Lemma of_pairs_nodup (l : list (string * V)) :
  Dict.wf l -> Dict.of_pairs l = l.
Proof. intros Hwf. unfold Dict.of_pairs. now rewrite fold_set_nodup. Qed.

End DictFacts.

(** ** The Row Flattener *)

Lemma flatten_row_pairs (r : raw_row) (ps : list (string * string)) (acc : row) :
  Forall2 cell_is r ps ->
  flatten_row r acc =
  Ok (fold_left (fun d kv => Dict.set d (fst kv) (snd kv)) ps acc).
Proof.
  intros H. revert acc.
  induction H as [|c [f v] r ps [Hf Hv] _ IH]; intros acc; simpl.
  - reflexivity.
  - unfold Dict.getitem. simpl in Hf, Hv. rewrite Hf, Hv. simpl. apply IH.
Qed.

Lemma flatten_pairs (results : list raw_row) (ps : list (list (string * string))) :
  Forall2 (Forall2 cell_is) results ps ->
  flatten results = Ok (map Dict.of_pairs ps).
Proof.
  induction 1 as [|r p results ps Hr _ IH]; simpl.
  - reflexivity.
  - rewrite (flatten_row_pairs r p Dict.empty Hr), IH. reflexivity.
Qed.

(** A cell without a [field] or a [value] key stops [flatten] with a
    [KeyError]. *)
Lemma flatten_row_key_error (c : cell) (r : raw_row) (acc : row) :
  Dict.get c "field" = None ->
  flatten_row (c :: r) acc = Raise (KeyError "field").
Proof. intros H. simpl. unfold Dict.getitem. now rewrite H. Qed.

(** C4, as the claim states it, fails: a row that carries the field
    name [a] twice is flattened to a mapping with the single key [a],
    which holds the second value. *)
Lemma C4_counterexample :
  flatten [[Scripted.cell_of "a" "1"; Scripted.cell_of "a" "2"]]
  = Ok [[("a", "2")]].
Proof. reflexivity. Qed.

(** C4, amended: for raw rows whose cells carry a field name and a
    value, the Row Flattener returns one mapping per input row, in the
    order of the rows, and it does not validate field names; each
    mapping is the Python dict of the row's (field, value) pairs, so a
    field name that occurs more than once in a row is collapsed to one
    key, which holds the value of its last occurrence. *)
Theorem C4_flatten_rows
        (results : list raw_row) (ps : list (list (string * string))) :
  Forall2 (Forall2 cell_is) results ps ->
  flatten results = Ok (map Dict.of_pairs ps)
  /\ length (map (@Dict.of_pairs string) ps) = length results
  /\ (forall i r p,
         nth_error results i = Some r -> nth_error ps i = Some p ->
         nth_error (map Dict.of_pairs ps) i = Some (Dict.of_pairs p))
  /\ Forall (fun p =>
               Dict.wf (Dict.of_pairs p)
               /\ (forall k, In k (Dict.keys (Dict.of_pairs p)) <-> In k (map fst p))
               /\ (forall k, Dict.get (Dict.of_pairs p) k = last_value p k)) ps.
Proof.
  intros H. split; [apply flatten_pairs, H|]. split; [|split].
  - rewrite length_map. symmetry. eapply Forall2_length, H.
  - intros i r p _ Hp. rewrite nth_error_map, Hp. reflexivity.
  - apply Forall_forall. intros p _. split; [apply of_pairs_wf|]. split.
    + intros k. apply of_pairs_keys.
    + intros k. apply of_pairs_get.
Qed.

Lemma C4_flatten_rows_witness :
  Forall2 (Forall2 cell_is)
          [[Scripted.cell_of "a" "1"; Scripted.cell_of "b" "2"]]
          [[("a", "1"); ("b", "2")]]
  /\ flatten [[Scripted.cell_of "a" "1"; Scripted.cell_of "b" "2"]]
     = Ok [[("a", "1"); ("b", "2")]].
Proof.
  assert (H : Forall2 (Forall2 cell_is)
                      [[Scripted.cell_of "a" "1"; Scripted.cell_of "b" "2"]]
                      [[("a", "1"); ("b", "2")]]).
  { repeat constructor. }
  split; [exact H|].
  exact (proj1 (C4_flatten_rows _ _ H)).
Defined.

(** ** The Result Poller *)

Section PollerFacts.

Context {Svc : Type}.
Variable svc_get_query_results : Svc -> string -> Svc * result response.

Local Abbreviation wait := (wait_results Svc svc_get_query_results).

(** One fetch that finds the query in a non-terminal state: the
    poller sleeps and fetches again. *)
Lemma wait_results_running fuel qid interval (w : world Svc) s' resp :
  svc_get_query_results (svc w) qid = (s', Ok resp) ->
  String.eqb (status resp) "Complete" = false ->
  terminal_failure (status resp) = false ->
  wait (S fuel) qid interval w =
  wait fuel qid interval
       (mk_world (heap w) (stdout w) (files w)
                 (api_log w ++ [GetQueryResults qid])
                 (sleeps w ++ [interval]) s').
Proof.
  intros Hget Hc Ht. simpl. unfold mbind at 1, get_query_results.
  rewrite Hget. simpl. rewrite Hc, Ht. reflexivity.
Qed.

(** A fetch that finds the query complete: its rows are returned. *)
Lemma wait_results_complete fuel qid interval (w : world Svc) s' rows :
  svc_get_query_results (svc w) qid = (s', Ok (mk_response "Complete" rows)) ->
  wait (S fuel) qid interval w =
  (mk_world (heap w) (stdout w) (files w)
            (api_log w ++ [GetQueryResults qid]) (sleeps w) s',
   Ret rows).
Proof.
  intros Hget. simpl. unfold mbind, get_query_results.
  rewrite Hget. reflexivity.
Qed.

(** A fetch that finds the query in a terminal state other than
    [Complete]: a [RuntimeError] that names the query and the state. *)
Lemma wait_results_terminated fuel qid interval (w : world Svc) s' resp :
  svc_get_query_results (svc w) qid = (s', Ok resp) ->
  terminal_failure (status resp) = true ->
  wait (S fuel) qid interval w =
  (mk_world (heap w) (stdout w) (files w)
            (api_log w ++ [GetQueryResults qid]) (sleeps w) s',
   Exc (RuntimeError ("Consulta " ++ qid ++ " terminó con estado "
                                  ++ status resp))).
Proof.
  intros Hget Ht. simpl. unfold mbind, get_query_results.
  rewrite Hget. simpl.
  destruct (String.eqb (status resp) "Complete") eqn:Hc.
  - apply String.eqb_eq in Hc. rewrite Hc in Ht. discriminate.
  - rewrite Ht. reflexivity.
Qed.

(** C7: when the fetches answer Running, Running, Complete with rows
    [R], the poller fetches three times, sleeps exactly twice, one
    poll interval each, and returns exactly [R]; when they answer
    Running, Failed, it sleeps once and fails with the error that
    names the query and the state Failed. *)
Theorem C7_poller (qid : string) (interval : Z) (R r1 r2 : list raw_row)
        (w : world Svc) :
  (forall s1 s2 s3 fuel,
      svc_get_query_results (svc w) qid = (s1, Ok (mk_response "Running" r1)) ->
      svc_get_query_results s1 qid = (s2, Ok (mk_response "Running" r2)) ->
      svc_get_query_results s2 qid = (s3, Ok (mk_response "Complete" R)) ->
      (3 <= fuel)%nat ->
      wait fuel qid interval w =
      (mk_world (heap w) (stdout w) (files w)
                (api_log w ++ [GetQueryResults qid; GetQueryResults qid;
                               GetQueryResults qid])
                (sleeps w ++ [interval; interval]) s3,
       Ret R))
  /\
  (forall s1 s2 fuel,
      svc_get_query_results (svc w) qid = (s1, Ok (mk_response "Running" r1)) ->
      svc_get_query_results s1 qid = (s2, Ok (mk_response "Failed" r2)) ->
      (2 <= fuel)%nat ->
      wait fuel qid interval w =
      (mk_world (heap w) (stdout w) (files w)
                (api_log w ++ [GetQueryResults qid; GetQueryResults qid])
                (sleeps w ++ [interval]) s2,
       Exc (RuntimeError ("Consulta " ++ qid ++ " terminó con estado Failed")))).
Proof.
  split.
  - intros s1 s2 s3 fuel H1 H2 H3 Hfuel.
    destruct fuel as [|[|[|fuel]]]; try lia.
    rewrite (wait_results_running _ _ _ _ _ _ H1) by reflexivity.
    rewrite (wait_results_running _ _ _ _ s2 (mk_response "Running" r2))
      by (try reflexivity; exact H2).
    rewrite (wait_results_complete _ _ _ _ s3 R) by exact H3.
    simpl. repeat rewrite <- app_assoc. reflexivity.
  - intros s1 s2 fuel H1 H2 Hfuel.
    destruct fuel as [|[|fuel]]; try lia.
    rewrite (wait_results_running _ _ _ _ _ _ H1) by reflexivity.
    rewrite (wait_results_terminated _ _ _ _ s2 (mk_response "Failed" r2))
      by (try reflexivity; exact H2).
    simpl. repeat rewrite <- app_assoc. reflexivity.
Qed.

End PollerFacts.

Lemma C7_poller_witness :
  let ok := Scripted.mk_state
              [] [("q", [running; running; complete sample_rows])] in
  let ko := Scripted.mk_state [] [("q", [running; failed])] in
  let run st fuel :=
      wait_results _ Scripted.get_query_results fuel "q" 1 (Scripted.init st) in
  (snd (run ok 3%nat) = Ret sample_rows
   /\ sleeps (fst (run ok 3%nat)) = [1; 1])
  /\ (snd (run ko 2%nat)
      = Exc (RuntimeError "Consulta q terminó con estado Failed")
      /\ sleeps (fst (run ko 2%nat)) = [1]).
Proof.
  intros ok ko run. split.
  - unfold run.
    rewrite (proj1 (C7_poller Scripted.get_query_results "q" 1 sample_rows [] []
                              (Scripted.init ok))
                   _ _ _ 3%nat eq_refl eq_refl eq_refl (le_n 3)).
    split; reflexivity.
  - unfold run.
    rewrite (proj2 (C7_poller Scripted.get_query_results "q" 1 sample_rows [] []
                              (Scripted.init ko))
                   _ _ 2%nat eq_refl eq_refl (le_n 2)).
    split; reflexivity.
Defined.

(** ** The Orchestrator *)

Section OrchestratorFacts.

Context {Svc : Type}.
Variable svc_start_query :
  Svc -> string -> Z -> Z -> string -> Svc * result string.
Variable svc_get_query_results : Svc -> string -> Svc * result response.
Variable tabulate_installed : bool.
Variable now : DateTime.datetime.
Variable resolve : string -> string.
Variable writable : string -> bool.

Local Abbreviation group :=
  (query_group Svc svc_start_query svc_get_query_results tabulate_installed).
Local Abbreviation groups :=
  (query_groups Svc svc_start_query svc_get_query_results tabulate_installed).
Local Abbreviation run_main :=
  (main Svc svc_start_query svc_get_query_results tabulate_installed now
        resolve writable).

(** The handler of the loop over the log groups catches a
    [ClientError] only: a query that ends in a terminal state other
    than [Complete] at its first fetch leaves [query_group] with the
    [RuntimeError] of the poller, after the two calls to the service. *)
Lemma query_group_terminal_failure
      fuel lg start_ts end_ts salida (w : world Svc) s1 s2 qid resp :
  svc_start_query (svc w) lg start_ts end_ts (PyStr.strip QUERY_STRING)
  = (s1, Ok qid) ->
  svc_get_query_results s1 qid = (s2, Ok resp) ->
  terminal_failure (status resp) = true ->
  group (S fuel) lg start_ts end_ts salida w
  = (mk_world (heap w) (stdout w ++ [("===> Log group: " ++ lg)%string])
              (files w)
              (api_log w ++ [StartQuery lg start_ts end_ts
                                        (PyStr.strip QUERY_STRING);
                             GetQueryResults qid])
              (sleeps w) s2,
     Exc (RuntimeError ("Consulta " ++ qid ++ " terminó con estado "
                                    ++ status resp))).
Proof.
  intros Hstart Hget Hterm.
  unfold query_group, mbind, try_except_ClientError, start_query, print.
  cbn -[wait_results PyStr.strip append].
  rewrite Hstart.
  cbn -[wait_results PyStr.strip append].
  erewrite wait_results_terminated; [|cbn; exact Hget|exact Hterm].
  cbn [heap stdout files api_log sleeps svc].
  rewrite <- app_assoc. reflexivity.
Qed.

(** An exception that leaves the body of the loop ends the loop: the
    remaining groups are not queried. *)
Lemma query_groups_propagate fuel lg lgs start_ts end_ts salida (w : world Svc) e :
  snd (group fuel lg start_ts end_ts salida w) = Exc e ->
  groups fuel (lg :: lgs) start_ts end_ts salida w
  = (fst (group fuel lg start_ts end_ts salida w), Exc e).
Proof.
  intros H. simpl. unfold mbind.
  destruct (group fuel lg start_ts end_ts salida w) as [w' o].
  simpl in H. subst o. reflexivity.
Qed.

(** The same for [main]: when the query of the first log group ends in
    a terminal state other than [Complete], the [RuntimeError] leaves
    [main]; the other groups are not queried and nothing is saved. *)
Lemma main_terminal_failure
      (fuel : nat) (a : args) (w : world Svc)
      (start_dt end_dt : DateTime.datetime) s1 s2 qid resp :
  time_window now a = Ok (start_dt, end_dt) ->
  DateTime.ge start_dt end_dt = false ->
  svc_start_query (svc w) "/aws/lambda/bm-qrec-api-redeban"
                  (to_epoch start_dt) (to_epoch end_dt)
                  (PyStr.strip QUERY_STRING)
  = (s1, Ok qid) ->
  svc_get_query_results s1 qid = (s2, Ok resp) ->
  terminal_failure (status resp) = true ->
  snd (run_main (S fuel) a w)
  = Exc (RuntimeError ("Consulta " ++ qid ++ " terminó con estado "
                                   ++ status resp))
  /\ files (fst (run_main (S fuel) a w)) = files w
  /\ api_log (fst (run_main (S fuel) a w))
     = api_log w ++ [StartQuery "/aws/lambda/bm-qrec-api-redeban"
                                (to_epoch start_dt) (to_epoch end_dt)
                                (PyStr.strip QUERY_STRING);
                     GetQueryResults qid].
Proof.
  intros Hwin Hge Hstart Hget Hterm.
  set (banner := ("Ejecutando consulta entre " ++ DateTime.to_str start_dt
                    ++ " y " ++ DateTime.to_str end_dt ++ "..."
                    ++ String PyStr.LF EmptyString)%string).
  set (lg := "/aws/lambda/bm-qrec-api-redeban"%string) in *.
  set (e := RuntimeError ("Consulta " ++ qid ++ " terminó con estado "
                                      ++ status resp)).
  assert (Hrun : run_main (S fuel) a w
                 = (mk_world (heap w)
                             (stdout w ++ [banner; ("===> Log group: " ++ lg)%string])
                             (files w)
                             (api_log w ++ [StartQuery lg (to_epoch start_dt)
                                                       (to_epoch end_dt)
                                                       (PyStr.strip QUERY_STRING);
                                            GetQueryResults qid])
                             (sleeps w) s2,
                    Exc e)).
  { unfold main. rewrite Hwin, Hge. fold banner.
    unfold mbind at 1. unfold print at 1.
    unfold mbind at 1. unfold LOG_GROUPS. fold lg.
    rewrite (query_groups_propagate _ _ _ _ _ _ _ e);
      rewrite (query_group_terminal_failure _ _ _ _ _ _ s1 s2 qid resp);
      try assumption; try reflexivity.
    cbn [fst heap stdout files api_log sleeps svc].
    rewrite <- app_assoc. reflexivity. }
  rewrite Hrun. repeat split; reflexivity.
Qed.

(** When the start of the window is not before its end, [main] prints
    its message and exits with status 1; no call to the service was
    made and no file written. *)
Lemma main_start_not_before_end
      (fuel : nat) (a : args) (w : world Svc)
      (start_dt end_dt : DateTime.datetime) :
  time_window now a = Ok (start_dt, end_dt) ->
  DateTime.ge start_dt end_dt = true ->
  run_main fuel a w =
  (mk_world (heap w)
            (stdout w ++ ["La fecha de inicio debe ser anterior a la final."])
            (files w) (api_log w) (sleeps w) (svc w),
   Exit 1).
Proof.
  intros Hwin Hge. unfold main. rewrite Hwin, Hge. reflexivity.
Qed.

(** Malformed time arguments end [main] the same way. *)
Lemma main_value_error (fuel : nat) (a : args) (w : world Svc) msg :
  time_window now a = Raise (ValueError msg) ->
  run_main fuel a w =
  (mk_world (heap w)
            (stdout w ++ ["Error en el formato de fecha/hora. Usa YYYY-MM-DD HH:MM"])
            (files w) (api_log w) (sleeps w) (svc w),
   Exit 1).
Proof. intros H. unfold main. rewrite H. reflexivity. Qed.

(** With [tabulate] installed the branch for a non-empty sequence has
    nothing to run: its only statement is commented out. *)
Lemma reporter_with_tabulate (r : addr) (rows : list addr) (w : world Svc) :
  pretty_print Svc true (r :: rows) w = (w, Ret tt).
Proof. reflexivity. Qed.

(** The two other branches of the Reporter: the notice for an empty
    sequence, and the rows as indented JSON when [tabulate] cannot be
    imported. *)
Lemma reporter_other_branches (r : addr) (rows : list addr) (w : world Svc) :
  pretty_print Svc tabulate_installed [] w
  = print Svc "No se encontraron eventos." w
  /\ pretty_print Svc false (r :: rows) w
     = print Svc (Json.dumps (py_of_rows (rows_at (heap w) (r :: rows)))) w.
Proof. split; reflexivity. Qed.

End OrchestratorFacts.

(** C3: with [tabulate] installed, the module the program asks for,
    the Reporter prints nothing for a non-empty sequence of rows,
    whatever the rows are; in a run whose first query completes with a
    row, the console shows the group's heading and no row.  Without
    [tabulate] the same run prints the row. *)
Theorem C3_reporter_prints_nothing :
  (forall (Svc : Type) (r : addr) (rows : list addr) (w : world Svc),
      stdout (fst (pretty_print Svc true (r :: rows) w)) = stdout w)
  /\ (let st := Scripted.mk_state [("/aws/lambda/bm-qrec-api-redeban", Ok "q1")]
                                  [("q1", [complete sample_rows])] in
      let a := mk_args "2025-05-08" "07:14:00" None None None in
      firstn 3 (stdout (fst (run_scripted st true 5 a)))
      = [ ("Ejecutando consulta entre 2025-05-08 12:14:00 y "
             ++ "2025-05-09 00:00:00.000123..." ++ String PyStr.LF EmptyString)%string;
          "===> Log group: /aws/lambda/bm-qrec-api-redeban"%string;
          EmptyString ]
      /\ nth 2 (stdout (fst (run_scripted st false 5 a))) EmptyString
         = Json.dumps (py_of_rows [[("a", "1"); ("b", "2")]%string])).
Proof.
  split.
  - intros Svc r rows w. rewrite reporter_with_tabulate. reflexivity.
  - vm_compute. split; reflexivity.
Qed.

(** C1: the first log group's query ends in the state [Failed].  The
    [RuntimeError] of the poller is not a [ClientError], the handler
    of the loop does not catch it, and the run stops there: the two
    other groups are never queried, nothing is saved and the process
    ends with status 1. *)
Theorem C1_terminal_state_aborts_run :
  let a := mk_args "2025-05-08" "07:14:00" None None (Some "r.json") in
  let r := run_scripted failing_service true 5 a in
  snd r = Exc (RuntimeError "Consulta q1 terminó con estado Failed")
  /\ exit_status (snd r) = Some 1
  /\ files (fst r) = []
  /\ api_log (fst r)
     = [StartQuery "/aws/lambda/bm-qrec-api-redeban" 1746706440 1746748800
                   (PyStr.strip QUERY_STRING);
        GetQueryResults "q1"; GetQueryResults "q1"].
Proof. vm_compute. repeat split; reflexivity. Qed.

(** A [ClientError] at submission, by contrast, is caught: the group is
    left out and the run goes on to the next group. *)
Lemma submission_failure_is_isolated :
  let st := Scripted.mk_state
              [("/aws/lambda/bm-qrec-api-redeban", Ok "q1");
               ("/aws/lambda/bm-qrec-do-transaction", Ok "q3")]
              [("q1", [complete sample_rows]); ("q3", [complete sample_rows])] in
  let a := mk_args "2025-05-08" "07:14:00" None None (Some "r.json") in
  let r := run_scripted st true 5 a in
  snd r = Ret tt
  /\ exit_status (snd r) = Some 0
  /\ Dict.keys (files (fst r)) = ["/cwd/r.json"].
Proof. vm_compute. repeat split; reflexivity. Qed.

(** ** The heap of row objects *)

Lemma deref_app_old (h l : heap_t) (a : addr) :
  (a < length h)%nat -> deref (h ++ l) a = deref h a.
Proof. intros H. unfold deref. now rewrite app_nth1. Qed.

Lemma deref_app_new (h : heap_t) (r : row) : deref (h ++ [r]) (length h) = r.
Proof. unfold deref. rewrite app_nth2, Nat.sub_diag by lia. reflexivity. Qed.

Lemma update_nth_last {A : Type} (h : list A) (x y : A) :
  update_nth (length h) y (h ++ [x]) = (h ++ [y])%list.
Proof. induction h as [|z h IH]; simpl; [reflexivity|now rewrite IH]. Qed.

Lemma rows_at_new (h t : heap_t) :
  rows_at (h ++ t) (seq (length h) (length t)) = t.
Proof.
  unfold rows_at, deref. revert h.
  induction t as [|r t IH]; intros h; simpl; [reflexivity|].
  rewrite app_nth2, Nat.sub_diag by lia. simpl. f_equal.
  specialize (IH (h ++ [r])%list).
  rewrite <- app_assoc, length_app, Nat.add_1_r in IH. exact IH.
Qed.

Lemma rows_at_old (h t : heap_t) (rows : list addr) :
  Forall (fun a => (a < length h)%nat) rows ->
  rows_at (h ++ t) rows = rows_at h rows.
Proof.
  unfold rows_at. induction 1 as [|a rows Ha _ IH]; simpl; [reflexivity|].
  now rewrite IH, deref_app_old.
Qed.

Lemma tagged_rows_app_heap (h t : heap_t) (data : Dict.t (list addr)) :
  data_ok h data -> tagged_rows (h ++ t) data = tagged_rows h data.
Proof.
  induction 1 as [|[lg rows] data Hrows _ IH]; simpl; [reflexivity|].
  rewrite IH. f_equal.
  apply map_ext_in. intros a Ha. simpl in Hrows.
  rewrite Forall_forall in Hrows. rewrite app_nth1 by auto. reflexivity.
Qed.

Section PersisterHeap.

Context {Svc : Type}.

Local Abbreviation tag := (tag_rows Svc).
Local Abbreviation collect := (collect_rows Svc).

(** The inner loop appends one tagged copy per row to the heap and
    returns their addresses; no object that was there is written. *)
Lemma tag_rows_spec lg rows all_rows (w : world Svc) :
  Forall (fun a => (a < length (heap w))%nat) rows ->
  tag lg rows all_rows w =
  (mk_world (heap w ++ map (fun a => Dict.set (deref (heap w) a) "log_group" lg) rows)
            (stdout w) (files w) (api_log w) (sleeps w) (svc w),
   Ret (all_rows ++ seq (length (heap w)) (length rows))%list).
Proof.
  intros Hok. revert all_rows w Hok.
  induction rows as [|r rows IH]; intros all_rows [h so fs al sl sv] Hok; simpl in *.
  - now rewrite !app_nil_r.
  - inversion Hok as [|? ? Hr Hrows]; subst.
    unfold mbind, dict_copy, alloc, dict_setitem. simpl.
    rewrite deref_app_new, update_nth_last.
    rewrite IH; simpl.
    + rewrite <- !app_assoc, length_app, Nat.add_1_r. simpl.
      rewrite (map_ext_in
                 (fun a => Dict.set
                             (deref (h ++ [Dict.set (deref h r) "log_group" lg]) a)
                             "log_group" lg)
                 (fun a => Dict.set (deref h a) "log_group" lg)); [reflexivity|].
      intros a Ha. rewrite Forall_forall in Hrows.
      now rewrite deref_app_old by auto.
    + eapply Forall_impl; [|exact Hrows].
      intros a Ha. cbv beta in Ha. rewrite length_app.
      apply Nat.lt_lt_add_r. exact Ha.
Qed.

Lemma collect_rows_spec data all_rows (w : world Svc) :
  data_ok (heap w) data ->
  collect data all_rows w =
  (mk_world (heap w ++ tagged_rows (heap w) data)
            (stdout w) (files w) (api_log w) (sleeps w) (svc w),
   Ret (all_rows ++ seq (length (heap w))
                        (length (tagged_rows (heap w) data)))%list).
Proof.
  intros Hok. revert all_rows w Hok.
  induction data as [|[lg rows] data IH];
    intros all_rows [h so fs al sl sv] Hok; simpl in *.
  - now rewrite !app_nil_r.
  - inversion Hok as [|? ? Hrows Hdata]; subst. simpl in Hrows.
    unfold mbind. rewrite tag_rows_spec by exact Hrows. simpl.
    rewrite IH; simpl.
    + rewrite <- !app_assoc, !length_app, !length_map, seq_app.
      rewrite tagged_rows_app_heap by exact Hdata. reflexivity.
    + unfold data_ok in *. eapply Forall_impl; [|exact Hdata].
      intros [lg' rows'] H. simpl in *.
      eapply Forall_impl; [|exact H].
      intros a Ha. cbv beta in Ha. rewrite length_app.
      apply Nat.lt_lt_add_r. exact Ha.
Qed.

End PersisterHeap.

(** ** [sorted] *)

Lemma insert_in (x k : string) (l : list string) :
  In k (PySorted.insert x l) <-> k = x \/ In k l.
Proof.
  induction l as [|y l IH]; simpl.
  - intuition.
  - destruct (String.compare x y) eqn:E; simpl.
    + apply String.compare_eq_iff in E. subst. intuition.
    + intuition.
    + rewrite IH. intuition.
Qed.

Lemma sorted_set_in (k : string) (l : list string) :
  In k (PySorted.sorted_set l) <-> In k l.
Proof.
  induction l as [|x l IH]; simpl; [tauto|].
  rewrite insert_in, IH. intuition.
Qed.

Lemma compare_gt_lt (x y : string) :
  String.compare x y = Gt -> PySorted.lt y x.
Proof.
  intros H. unfold PySorted.lt.
  rewrite String.compare_antisym, H. reflexivity.
Qed.

Lemma insert_hdrel (x y : string) (l : list string) :
  HdRel PySorted.lt y l -> PySorted.lt y x ->
  HdRel PySorted.lt y (PySorted.insert x l).
Proof.
  intros Hl Hx. destruct l as [|z l]; simpl.
  - constructor. exact Hx.
  - inversion Hl; subst.
    destruct (String.compare x z); constructor; assumption.
Qed.

Lemma insert_sorted (x : string) (l : list string) :
  Sorted PySorted.lt l -> Sorted PySorted.lt (PySorted.insert x l).
Proof.
  induction 1 as [|y l Hs IH Hhd]; simpl.
  - repeat constructor.
  - destruct (String.compare x y) eqn:E.
    + constructor; assumption.
    + constructor; [constructor; assumption|constructor; exact E].
    + constructor; [exact IH|].
      apply insert_hdrel; [exact Hhd|apply compare_gt_lt, E].
Qed.

(** [sorted(set(l))] is strictly ascending. *)
Lemma sorted_set_sorted (l : list string) :
  Sorted PySorted.lt (PySorted.sorted_set l).
Proof.
  induction l as [|x l IH]; simpl; [constructor|apply insert_sorted, IH].
Qed.

(** ** [csv.DictWriter] *)

Lemma existsb_eqb_in (k : string) (l : list string) :
  existsb (String.eqb k) l = true <-> In k l.
Proof.
  rewrite existsb_exists. split.
  - intros [x [Hin Heq]]. apply String.eqb_eq in Heq. now subst.
  - intros Hin. exists k. split; [exact Hin|apply String.eqb_refl].
Qed.

Lemma dict_to_list_ok (fieldnames : list string) (r : row) :
  (forall k, In k (Dict.keys r) -> In k fieldnames) ->
  Csv.dict_to_list fieldnames r = Ok (map (csv_cell r) fieldnames).
Proof.
  intros H. unfold Csv.dict_to_list.
  assert (Hall : forallb (fun k => existsb (String.eqb k) fieldnames)
                         (Dict.keys r) = true).
  { apply forallb_forall. intros k Hk. apply existsb_eqb_in, H, Hk. }
  rewrite Hall. reflexivity.
Qed.

Lemma dicts_to_lists_ok (fieldnames : list string) (rows : list row) :
  (forall r k, In r rows -> In k (Dict.keys r) -> In k fieldnames) ->
  Csv.dicts_to_lists fieldnames rows
  = Ok (map (fun r => map (csv_cell r) fieldnames) rows).
Proof.
  induction rows as [|r rows IH]; intros H; simpl; [reflexivity|].
  rewrite dict_to_list_ok by (intros k Hk; apply (H r k); simpl; auto).
  simpl. rewrite IH by (intros r' k Hr Hk; apply (H r' k); simpl; auto).
  reflexivity.
Qed.

Lemma fieldnames_of_in (rows : list row) (k : string) :
  In k (fieldnames_of rows) <-> exists r, In r rows /\ In k (Dict.keys r).
Proof.
  unfold fieldnames_of. rewrite sorted_set_in, in_flat_map. reflexivity.
Qed.

Lemma tagged_rows_log_group (h : heap_t) (data : Dict.t (list addr)) (r : row) :
  In r (tagged_rows h data) -> In "log_group"%string (Dict.keys r).
Proof.
  unfold tagged_rows. rewrite in_flat_map.
  intros [[lg rows] [_ Hin]]. simpl in Hin. apply in_map_iff in Hin.
  destruct Hin as [a [<- _]]. apply dict_keys_set_in. now left.
Qed.

Lemma tagged_rows_length (h : heap_t) (data : Dict.t (list addr)) :
  length (tagged_rows h data) = row_count data.
Proof.
  unfold tagged_rows, row_count.
  induction data as [|[lg rows] data IH]; simpl; [reflexivity|].
  rewrite length_app, length_map. f_equal. exact IH.
Qed.

(** ** Strings *)

Lemma str_app_assoc (a b c : string) : ((a ++ b) ++ c = a ++ (b ++ c))%string.
Proof. induction a as [|x a IH]; simpl; [reflexivity|now rewrite IH]. Qed.

Lemma str_app_nil_r (a : string) : (a ++ EmptyString)%string = a.
Proof. induction a as [|x a IH]; simpl; [reflexivity|now rewrite IH]. Qed.

Lemma str_length_app (a b : string) :
  String.length (a ++ b) = (String.length a + String.length b)%nat.
Proof. induction a as [|x a IH]; simpl; [reflexivity|now rewrite IH]. Qed.

Lemma dict_set_set {V : Type} (d : Dict.t V) (k : string) (a b : V) :
  Dict.set (Dict.set d k a) k b = Dict.set d k b.
Proof.
  induction d as [|[k' v'] d IH]; simpl.
  - now rewrite String.eqb_refl.
  - destruct (String.eqb k k') eqn:E; simpl; rewrite E; [reflexivity|].
    now rewrite IH.
Qed.

(** ** Texts that UTF-8 can encode *)

Lemma utf8_encodable_cons (c : ascii) (s : string) :
  PyStr.utf8_encodable (String c s)
  = negb ((PyStr.code c =? 237) && in_surrogate_range (head_code s))
    && PyStr.utf8_encodable s.
Proof.
  destruct s as [|c' s]; cbn [PyStr.utf8_encodable head_code].
  - unfold in_surrogate_range. cbn. now rewrite andb_false_r.
  - unfold PyStr.surrogate_start, in_surrogate_range.
    f_equal. f_equal. symmetry. apply andb_assoc.
Qed.

Lemma head_code_app (a b : string) :
  head_code (a ++ b)
  = match a with
    | EmptyString => head_code b
    | String _ _ => head_code a
    end.
Proof. destruct a; reflexivity. Qed.

Lemma utf8_encodable_app (a b : string) :
  PyStr.utf8_encodable a = true ->
  PyStr.utf8_encodable b = true ->
  in_surrogate_range (head_code b) = false ->
  PyStr.utf8_encodable (a ++ b) = true.
Proof.
  intros Ha Hb Hhead. induction a as [|c a IH]; [exact Hb|].
  change (String c a ++ b)%string with (String c (a ++ b)).
  rewrite utf8_encodable_cons in *.
  apply andb_prop in Ha. destruct Ha as [Hc Ha].
  rewrite (IH Ha), andb_true_r.
  rewrite head_code_app. destruct a as [|c' a]; [|exact Hc].
  rewrite Hhead. now rewrite andb_false_r.
Qed.

Lemma is_ascii_encodable_app (e x : string) :
  PyStr.is_ascii e = true ->
  PyStr.utf8_encodable (e ++ x) = PyStr.utf8_encodable x.
Proof.
  induction e as [|c e IH]; [reflexivity|].
  cbn [PyStr.is_ascii]. intros H. apply andb_prop in H. destruct H as [Hc He].
  change (String c e ++ x)%string with (String c (e ++ x)).
  rewrite utf8_encodable_cons, (IH He).
  apply Z.ltb_lt in Hc.
  replace (PyStr.code c =? 237) with false by (symmetry; apply Z.eqb_neq; lia).
  reflexivity.
Qed.

Lemma is_ascii_encodable (e : string) :
  PyStr.is_ascii e = true -> PyStr.utf8_encodable e = true.
Proof.
  intros H. rewrite <- (str_app_nil_r e). now rewrite is_ascii_encodable_app.
Qed.

Lemma is_ascii_head (e x : string) :
  PyStr.is_ascii e = true -> e <> EmptyString ->
  in_surrogate_range (head_code (e ++ x)) = false.
Proof.
  destruct e as [|c e]; [congruence|]. cbn [PyStr.is_ascii].
  intros H _. apply andb_prop in H. destruct H as [Hc _].
  apply Z.ltb_lt in Hc. cbn [append head_code]. unfold in_surrogate_range.
  apply andb_false_iff. left. apply Z.leb_gt. lia.
Qed.

Lemma joined_app (a b : list string) :
  joined (a ++ b) = (joined a ++ joined b)%string.
Proof.
  unfold joined. induction a as [|x a IH]; [reflexivity|].
  cbn [app fold_right]. now rewrite IH, str_app_assoc.
Qed.

Lemma written_all (texts : list string) :
  forallb PyStr.utf8_encodable texts = true -> written texts = joined texts.
Proof.
  induction texts as [|t texts IH]; [reflexivity|].
  cbn [forallb written]. intros H. apply andb_prop in H. destruct H as [Ht Hts].
  rewrite Ht, (IH Hts). reflexivity.
Qed.

Lemma write_outcome_all (texts : list string) :
  forallb PyStr.utf8_encodable texts = true -> write_outcome texts = Ret tt.
Proof. intros H. unfold write_outcome. now rewrite H. Qed.

Lemma csv_text_joined (records : list (list string)) :
  Csv.text records = joined (map Csv.writerow records).
Proof.
  unfold Csv.text, joined. induction records as [|r records IH]; [reflexivity|].
  cbn [map fold_right]. now rewrite IH.
Qed.

(** *** The lines of the CSV writer *)

Lemma double_quotes_head (s : string) :
  in_surrogate_range (head_code (Csv.double_quotes s))
  = in_surrogate_range (head_code s).
Proof.
  destruct s as [|c s]; [reflexivity|]. cbn [Csv.double_quotes].
  destruct (PyStr.is_char PyStr.dquote c) eqn:E; [|reflexivity].
  unfold PyStr.is_char in E. apply Ascii.eqb_eq in E. subst c. reflexivity.
Qed.

Lemma double_quotes_encodable (s : string) :
  PyStr.utf8_encodable s = true ->
  PyStr.utf8_encodable (Csv.double_quotes s) = true.
Proof.
  induction s as [|c s IH]; [reflexivity|].
  rewrite utf8_encodable_cons. intros H. apply andb_prop in H.
  destruct H as [Hc Hs]. cbn [Csv.double_quotes].
  destruct (PyStr.is_char PyStr.dquote c) eqn:E.
  - unfold PyStr.is_char in E. apply Ascii.eqb_eq in E. subst c.
    change (String PyStr.dquote (String PyStr.dquote (Csv.double_quotes s)))
      with (String PyStr.dquote (String PyStr.dquote EmptyString)
              ++ Csv.double_quotes s)%string.
    rewrite (is_ascii_encodable_app
               (String PyStr.dquote (String PyStr.dquote EmptyString)) _ eq_refl).
    exact (IH Hs).
  - rewrite utf8_encodable_cons, double_quotes_head, Hc. exact (IH Hs).
Qed.

Lemma quoted_encodable (s : string) :
  PyStr.utf8_encodable s = true -> PyStr.utf8_encodable (Csv.quoted s) = true.
Proof.
  intros H. unfold Csv.quoted.
  change (String PyStr.dquote (Csv.double_quotes s ++ String PyStr.dquote EmptyString))
    with (String PyStr.dquote EmptyString
            ++ (Csv.double_quotes s ++ String PyStr.dquote EmptyString))%string.
  rewrite (is_ascii_encodable_app (String PyStr.dquote EmptyString) _ eq_refl).
  apply utf8_encodable_app;
    [apply double_quotes_encodable, H|reflexivity|reflexivity].
Qed.

Lemma field_encodable (s : string) :
  PyStr.utf8_encodable s = true -> PyStr.utf8_encodable (Csv.field s) = true.
Proof.
  intros H. unfold Csv.field.
  destruct (PyStr.existsb_char Csv.special s); [now apply quoted_encodable|exact H].
Qed.

Lemma join_comma_encodable (l : list string) :
  forallb PyStr.utf8_encodable l = true ->
  PyStr.utf8_encodable (PyStr.join "," l) = true.
Proof.
  induction l as [|x l IH]; [reflexivity|].
  cbn [forallb]. intros H. apply andb_prop in H. destruct H as [Hx Hl].
  destruct l as [|y l]; [exact Hx|].
  change (PyStr.join "," (x :: y :: l))
    with (x ++ "," ++ PyStr.join "," (y :: l))%string.
  apply utf8_encodable_app; [exact Hx| |reflexivity].
  rewrite (is_ascii_encodable_app "," _ eq_refl). exact (IH Hl).
Qed.

Lemma writerow_encodable (record : list string) :
  forallb PyStr.utf8_encodable record = true ->
  PyStr.utf8_encodable (Csv.writerow record) = true.
Proof.
  intros H. unfold Csv.writerow.
  apply utf8_encodable_app; [|reflexivity|reflexivity].
  assert (Hjoin : PyStr.utf8_encodable (PyStr.join "," (map Csv.field record))
                  = true).
  { apply join_comma_encodable. rewrite forallb_forall in *.
    intros x Hx. apply in_map_iff in Hx. destruct Hx as [f [<- Hf]].
    apply field_encodable, H, Hf. }
  destruct record as [|[|c f] [|g record]]; exact Hjoin.
Qed.

Lemma csv_cell_encodable (r : row) (k : string) :
  row_encodable r = true -> PyStr.utf8_encodable (csv_cell r k) = true.
Proof.
  unfold csv_cell, row_encodable.
  induction r as [|[k' v] r IH]; [reflexivity|].
  cbn [forallb fst snd Dict.get]. intros H.
  apply andb_prop in H. destruct H as [Hkv Hr].
  apply andb_prop in Hkv. destruct Hkv as [_ Hv].
  destruct (String.eqb k k'); [exact Hv|exact (IH Hr)].
Qed.

Lemma keys_encodable (rows : list row) (k : string) :
  rows_encodable rows = true ->
  In k (flat_map Dict.keys rows) -> PyStr.utf8_encodable k = true.
Proof.
  unfold rows_encodable. rewrite forallb_forall. intros H Hin.
  apply in_flat_map in Hin. destruct Hin as [r [Hr Hk]].
  specialize (H r Hr). unfold row_encodable in H. rewrite forallb_forall in H.
  unfold Dict.keys in Hk. apply in_map_iff in Hk. destruct Hk as [[k' v] [<- Hkv]].
  specialize (H _ Hkv). apply andb_prop in H. apply H.
Qed.

Lemma csv_lines_encodable (rows : list row) :
  rows_encodable rows = true ->
  forallb PyStr.utf8_encodable
          (map Csv.writerow
               (fieldnames_of rows :: csv_records (fieldnames_of rows) rows))
  = true.
Proof.
  intros H. apply forallb_forall. intros line Hline.
  apply in_map_iff in Hline. destruct Hline as [record [<- Hrec]].
  apply writerow_encodable, forallb_forall. intros f Hf.
  destruct Hrec as [<-|Hrec].
  - apply (keys_encodable rows f H).
    unfold fieldnames_of in Hf. apply sorted_set_in. exact Hf.
  - unfold csv_records in Hrec. apply in_map_iff in Hrec.
    destruct Hrec as [r [<- Hr]].
    apply in_map_iff in Hf. destruct Hf as [k [<- _]].
    apply csv_cell_encodable.
    unfold rows_encodable in H. rewrite forallb_forall in H. now apply H.
Qed.

(** ** Writing to a file *)

Lemma dict_set_same {V : Type} (d : Dict.t V) (k : string) (v : V) :
  Dict.get d k = Some v -> Dict.set d k v = d.
Proof.
  induction d as [|[k' v'] d IH]; simpl; [discriminate|].
  destruct (String.eqb k k') eqn:E.
  - intros H. injection H as ->. reflexivity.
  - intros H. now rewrite (IH H).
Qed.

Section FileWrites.

Context {Svc : Type}.
Variable resolve : string -> string.

(** The file after the texts are written one by one: what it held,
    then the texts up to the first that cannot be encoded. *)
Lemma write_all_spec file_path texts :
  forall (w : world Svc) old,
    Dict.get (files w) (resolve file_path) = Some old ->
    write_all Svc resolve file_path texts w
    = (mk_world (heap w) (stdout w)
                (Dict.set (files w) (resolve file_path)
                          (old ++ written texts)%string)
                (api_log w) (sleeps w) (svc w),
       write_outcome texts).
Proof.
  induction texts as [|t texts IH]; intros w old Hget.
  - cbn [write_all written]. rewrite str_app_nil_r, (dict_set_same _ _ _ Hget).
    destruct w; reflexivity.
  - cbn [write_all written]. unfold mbind, file_write, write_outcome.
    cbn [forallb]. destruct (PyStr.utf8_encodable t) eqn:Et.
    + rewrite Hget.
      rewrite (IH _ (old ++ t)%string)
        by (cbn [files]; apply dict_get_set_same).
      cbn [heap stdout files api_log sleeps svc].
      rewrite dict_set_set, str_app_assoc. reflexivity.
    + rewrite str_app_nil_r, (dict_set_same _ _ _ Hget).
      destruct w; reflexivity.
Qed.

(** [writerows] on rows whose keys are all field names writes the
    record of each row. *)
Lemma writerows_spec file_path fieldnames rows :
  (forall r k, In r rows -> In k (Dict.keys r) -> In k fieldnames) ->
  forall w : world Svc,
    writerows Svc resolve file_path fieldnames rows w
    = write_all Svc resolve file_path
                (map Csv.writerow (csv_records fieldnames rows)) w.
Proof.
  induction rows as [|r rows IH]; intros Hkeys w; [reflexivity|].
  cbn [writerows csv_records map write_all].
  rewrite (dict_to_list_ok fieldnames r)
    by (intros k Hk; apply (Hkeys r k); [now left|exact Hk]).
  unfold mbind at 1. cbn [lift ret]. unfold mbind.
  destruct (file_write Svc resolve file_path _ w) as [w1 [u|e|c|]];
    try reflexivity.
  apply IH. intros r' k Hr' Hk. apply (Hkeys r' k); [now right|exact Hk].
Qed.

(** What follows the writes runs when all of them went through. *)
Lemma write_all_bind file_path texts (k : M Svc unit) (w : world Svc) old :
  Dict.get (files w) (resolve file_path) = Some old ->
  mbind Svc (write_all Svc resolve file_path texts) (fun _ => k) w
  = let w' := mk_world (heap w) (stdout w)
                       (Dict.set (files w) (resolve file_path)
                                 (old ++ written texts)%string)
                       (api_log w) (sleeps w) (svc w) in
    if forallb PyStr.utf8_encodable texts then k w'
    else (w', Exc (UnicodeEncodeError "surrogates not allowed")).
Proof.
  intros Hget. unfold mbind. rewrite (write_all_spec file_path texts w old Hget).
  unfold write_outcome. now destruct (forallb PyStr.utf8_encodable texts).
Qed.

(** The header and the rows, written as so many lines. *)
Lemma writerows_bind file_path fieldnames rows (k : M Svc unit) (w : world Svc) :
  (forall r k, In r rows -> In k (Dict.keys r) -> In k fieldnames) ->
  mbind Svc (file_write Svc resolve file_path (Csv.writerow fieldnames))
        (fun _ => mbind Svc (writerows Svc resolve file_path fieldnames rows)
                        (fun _ => k)) w
  = mbind Svc (write_all Svc resolve file_path
                         (map Csv.writerow
                              (fieldnames :: csv_records fieldnames rows)))
          (fun _ => k) w.
Proof.
  intros Hkeys. cbn [map write_all]. unfold mbind.
  destruct (file_write Svc resolve file_path _ w) as [w1 [u|e|c|]];
    try reflexivity.
  now rewrite (writerows_spec file_path fieldnames rows Hkeys).
Qed.

(** Writing to a file leaves the heap, the console and the log of
    the service as they are. *)
Lemma file_write_frame file_path text (w : world Svc) :
  let w' := fst (file_write Svc resolve file_path text w) in
  heap w' = heap w /\ stdout w' = stdout w /\ api_log w' = api_log w
  /\ sleeps w' = sleeps w /\ svc w' = svc w.
Proof.
  unfold file_write. destruct (PyStr.utf8_encodable text); cbn; auto.
Qed.

Lemma writerows_heap file_path fieldnames rows :
  forall w : world Svc,
    heap (fst (writerows Svc resolve file_path fieldnames rows w)) = heap w.
Proof.
  induction rows as [|r rows IH]; intros w; [reflexivity|].
  cbn [writerows]. unfold mbind at 1.
  destruct (Csv.dict_to_list fieldnames r) as [record|e]; [|reflexivity].
  cbn [lift ret]. unfold mbind.
  pose proof (file_write_frame file_path (Csv.writerow record) w) as Hw.
  destruct (file_write Svc resolve file_path _ w) as [w1 [u|e|c|]];
    cbn [fst] in Hw; try apply Hw.
  rewrite IH. apply Hw.
Qed.

Lemma csv_writes_heap file_path fieldnames rows line (w : world Svc) :
  heap (fst (mbind Svc (file_write Svc resolve file_path (Csv.writerow fieldnames))
                   (fun _ => mbind Svc (writerows Svc resolve file_path
                                                  fieldnames rows)
                                   (fun _ => print Svc line)) w))
  = heap w.
Proof.
  unfold mbind at 1.
  pose proof (file_write_frame file_path (Csv.writerow fieldnames) w) as Hw.
  destruct (file_write Svc resolve file_path _ w) as [w1 [u|e|c|]];
    cbn [fst] in Hw; try apply Hw.
  destruct Hw as [Hw _]. rewrite <- Hw. unfold mbind.
  pose proof (writerows_heap file_path fieldnames rows w1) as Hrows.
  destruct (writerows Svc resolve file_path _ _ w1) as [w2 [u'|e|c|]];
    cbn [fst] in Hrows; exact Hrows.
Qed.

End FileWrites.

(** ** [csv.reader] reads what the writer wrote *)

Lemma code_points_nonneg (s : string) : 0 <= PyStr.code_points s.
Proof.
  induction s as [|c s IH]; cbn [PyStr.code_points]; [lia|].
  destruct (PyStr.is_continuation c); lia.
Qed.

Lemma code_points_app (a b : string) :
  PyStr.code_points (a ++ b) = PyStr.code_points a + PyStr.code_points b.
Proof.
  induction a as [|c a IH]; cbn [append PyStr.code_points]; [lia|].
  rewrite IH. lia.
Qed.

Lemma feed_app (limit : Z) (p : Csv.parser) (a b : string) :
  Csv.feed limit p (a ++ b)
  = match Csv.feed limit p a with
    | Some p' => Csv.feed limit p' b
    | None => None
    end.
Proof.
  revert p. induction a as [|c a IH]; intros p; [reflexivity|].
  cbn [append Csv.feed].
  destruct (Csv.parse_process_char limit p (Some c)) as [p'|]; [apply IH|reflexivity].
Qed.

(** Line by line or character by character, the reader reads the
    same. *)
Lemma read_lines_text (limit : Z) (s : string) :
  forall (p0 : Csv.parser) (cur : string) (after_cr : bool),
    Csv.read_lines limit p0 (Csv.lines_from s cur after_cr)
    = match Csv.feed limit p0 cur with
      | Some p =>
        read_text limit p (negb (String.eqb cur EmptyString)) after_cr s
      | None => None
      end.
Proof.
  induction s as [|c s IH]; intros p0 cur after_cr.
  - cbn [Csv.lines_from read_text].
    destruct cur as [|x cur]; [reflexivity|].
    cbn [String.eqb negb Csv.read_lines]. unfold end_line.
    destruct (Csv.feed limit p0 (String x cur)) as [p|]; reflexivity.
  - cbn [Csv.lines_from read_text].
    destruct (PyStr.is_char PyStr.LF c) eqn:Elf.
    + cbn [Csv.read_lines]. rewrite feed_app.
      destruct (Csv.feed limit p0 cur) as [p|]; [|reflexivity].
      cbn [Csv.feed].
      destruct (Csv.parse_process_char limit p (Some c)) as [p1|]; [|reflexivity].
      unfold end_line.
      destruct (Csv.parse_process_char limit p1 None) as [p2|]; [|reflexivity].
      destruct (Csv.state p2); rewrite IH; reflexivity.
    + destruct after_cr.
      * cbn [Csv.read_lines].
        destruct (Csv.feed limit p0 cur) as [p|]; [|reflexivity].
        unfold end_line.
        destruct (Csv.parse_process_char limit p None) as [p2|]; [|reflexivity].
        destruct (Csv.state p2); rewrite IH; cbn [Csv.feed String.eqb negb];
          match goal with
          | |- context [Csv.parse_process_char limit ?q (Some c)] =>
            destruct (Csv.parse_process_char limit q (Some c)); reflexivity
          end.
      * rewrite IH, feed_app.
        destruct (Csv.feed limit p0 cur) as [p|]; [|reflexivity].
        cbn [Csv.feed].
        destruct (Csv.parse_process_char limit p (Some c)) as [p1|]; [|reflexivity].
        replace (negb (String.eqb (cur ++ String c EmptyString) EmptyString))
          with true by (destruct cur; reflexivity).
        reflexivity.
Qed.

Section ReaderRoundTrip.

Variable limit : Z.

Local Abbreviation read := (read_text limit).
Local Abbreviation CRLF := (String PyStr.CR (String PyStr.LF EmptyString)).

Lemma special_false (c : ascii) :
  Csv.special c = false ->
  PyStr.is_char "," c = false /\ PyStr.is_char PyStr.dquote c = false
  /\ PyStr.is_char PyStr.CR c = false /\ PyStr.is_char PyStr.LF c = false
  /\ Csv.is_newline c = false.
Proof.
  unfold Csv.special, Csv.is_newline. intros H.
  apply orb_false_elim in H. destruct H as [H Hlf].
  apply orb_false_elim in H. destruct H as [H Hcr].
  apply orb_false_elim in H. destruct H as [Hcomma Hdq].
  rewrite Hlf, Hcr. auto.
Qed.

Lemma add_char_ok (p : Csv.parser) (c : ascii) (next : Csv.parse_state)
      (rest : string) :
  PyStr.code_points (Csv.buffer p ++ String c rest) <= limit ->
  Csv.parse_add_char limit p c next
  = Some (Csv.mk_parser next (Csv.buffer p ++ String c EmptyString) (Csv.fields p)).
Proof.
  intros H. unfold Csv.parse_add_char.
  rewrite code_points_app in H. cbn [PyStr.code_points] in H.
  pose proof (code_points_nonneg rest).
  destruct (PyStr.is_continuation c); [reflexivity|].
  cbn [negb andb].
  replace (limit <=? PyStr.code_points (Csv.buffer p)) with false
    by (symmetry; apply Z.leb_gt; lia).
  reflexivity.
Qed.

(** One character that does not end a line, for the reader. *)
Lemma read_char (p : Csv.parser) (pending after_cr : bool) (c : ascii)
      (s : string) (p1 : Csv.parser) :
  PyStr.is_char PyStr.LF c = false ->
  (after_cr = true -> Csv.state p = Csv.IN_QUOTED_FIELD) ->
  Csv.parse_process_char limit p (Some c) = Some p1 ->
  read p pending after_cr (String c s)
  = read p1 true (PyStr.is_char PyStr.CR c) s.
Proof.
  intros Hlf Hcr Hstep. cbn [read_text]. rewrite Hlf.
  destruct after_cr; [|now rewrite Hstep].
  pose proof (Hcr eq_refl) as Hst.
  unfold end_line, Csv.parse_process_char at 1. rewrite Hst.
  now rewrite Hst, Hstep.
Qed.

(** The inside of a quoted field, up to the quote that closes it. *)
Lemma read_quoted_body (f : string) :
  forall (acc : string) (fs : list string) (pending after_cr : bool)
         (tail : string),
    PyStr.code_points (acc ++ f) <= limit ->
    read (Csv.mk_parser Csv.IN_QUOTED_FIELD acc fs) pending after_cr
         (Csv.double_quotes f ++ String PyStr.dquote tail)
    = read (Csv.mk_parser Csv.QUOTE_IN_QUOTED_FIELD (acc ++ f) fs) true false tail.
Proof.
  induction f as [|c f IH]; intros acc fs pending after_cr tail Hlen.
  - cbn [Csv.double_quotes append]. rewrite str_app_nil_r.
    apply read_char; reflexivity.
  - cbn [Csv.double_quotes].
    replace (acc ++ String c f)%string
      with ((acc ++ String c EmptyString) ++ f)%string
      by (rewrite str_app_assoc; reflexivity).
    assert (Hadd : forall next,
               Csv.parse_add_char limit (Csv.mk_parser next acc fs) c
                                  Csv.IN_QUOTED_FIELD
               = Some (Csv.mk_parser Csv.IN_QUOTED_FIELD
                                     (acc ++ String c EmptyString) fs)).
    { intros next.
      exact (add_char_ok (Csv.mk_parser next acc fs) c Csv.IN_QUOTED_FIELD f Hlen). }
    assert (Hlen' : PyStr.code_points ((acc ++ String c EmptyString) ++ f) <= limit).
    { rewrite str_app_assoc. exact Hlen. }
    destruct (PyStr.is_char PyStr.dquote c) eqn:Edq.
    + unfold PyStr.is_char in Edq. apply Ascii.eqb_eq in Edq. subst c.
      cbn [append].
      rewrite (read_char _ pending after_cr PyStr.dquote _
                         (Csv.mk_parser Csv.QUOTE_IN_QUOTED_FIELD acc fs));
        [|reflexivity|reflexivity|reflexivity].
      rewrite (read_char _ true _ PyStr.dquote _
                         (Csv.mk_parser Csv.IN_QUOTED_FIELD
                                        (acc ++ String PyStr.dquote EmptyString) fs));
        [|reflexivity|discriminate|exact (Hadd Csv.QUOTE_IN_QUOTED_FIELD)].
      apply IH. exact Hlen'.
    + cbn [append].
      assert (Hstep : Csv.parse_process_char
                        limit (Csv.mk_parser Csv.IN_QUOTED_FIELD acc fs) (Some c)
                      = Some (Csv.mk_parser Csv.IN_QUOTED_FIELD
                                            (acc ++ String c EmptyString) fs)).
      { unfold Csv.parse_process_char. cbn [Csv.state]. rewrite Edq.
        exact (Hadd Csv.IN_QUOTED_FIELD). }
      destruct (PyStr.is_char PyStr.LF c) eqn:Elf.
      * cbn [read_text]. rewrite Elf, Hstep. unfold end_line.
        cbn [Csv.parse_process_char Csv.state]. apply IH. exact Hlen'.
      * rewrite (read_char (Csv.mk_parser Csv.IN_QUOTED_FIELD acc fs)
                           pending after_cr c _ _ Elf (fun _ => eq_refl) Hstep).
        apply IH. exact Hlen'.
Qed.

(** The rest of a field written without quotes. *)
Lemma read_plain_body (f : string) :
  forall (acc : string) (fs : list string) (tail : string),
    PyStr.existsb_char Csv.special f = false ->
    PyStr.code_points (acc ++ f) <= limit ->
    read (Csv.mk_parser Csv.IN_FIELD acc fs) true false (f ++ tail)
    = read (Csv.mk_parser Csv.IN_FIELD (acc ++ f) fs) true false tail.
Proof.
  induction f as [|c f IH]; intros acc fs tail Hplain Hlen.
  - cbn [append]. now rewrite str_app_nil_r.
  - cbn [PyStr.existsb_char] in Hplain.
    apply orb_false_elim in Hplain. destruct Hplain as [Hc Hf].
    destruct (special_false c Hc) as [Hcomma [Hdq [Hcr [Hlf Hnl]]]].
    cbn [append].
    rewrite (read_char _ true false c _
                       (Csv.mk_parser Csv.IN_FIELD (acc ++ String c EmptyString) fs)
                       Hlf ltac:(discriminate)).
    + rewrite Hcr.
      replace (acc ++ String c f)%string
        with ((acc ++ String c EmptyString) ++ f)%string
        by (rewrite str_app_assoc; reflexivity).
      apply IH; [exact Hf|]. rewrite str_app_assoc. exact Hlen.
    + unfold Csv.parse_process_char. cbn [Csv.state]. rewrite Hnl, Hcomma.
      exact (add_char_ok (Csv.mk_parser Csv.IN_FIELD acc fs) c Csv.IN_FIELD f Hlen).
Qed.

(** A field as the writer writes it, and the character [d] that
    follows it, read from the start of a field. *)
Lemma read_field (f : string) (fs : list string) (pending : bool) (d : ascii)
      (tail : string) (p' : Csv.parser) :
  PyStr.code_points f <= limit ->
  PyStr.is_char PyStr.LF d = false ->
  Csv.parse_process_char limit (Csv.mk_parser Csv.QUOTE_IN_QUOTED_FIELD f fs)
                         (Some d) = Some p' ->
  Csv.parse_process_char limit (Csv.mk_parser Csv.IN_FIELD f fs) (Some d)
  = Some p' ->
  (f = EmptyString ->
   Csv.parse_process_char limit (Csv.mk_parser Csv.START_FIELD f fs) (Some d)
   = Some p') ->
  read (Csv.mk_parser Csv.START_FIELD EmptyString fs) pending false
       (Csv.field f ++ String d tail)
  = read p' true (PyStr.is_char PyStr.CR d) tail.
Proof.
  intros Hlen Hlf Hq Hin Hstart. unfold Csv.field.
  destruct (PyStr.existsb_char Csv.special f) eqn:Especial.
  - unfold Csv.quoted. cbn [append]. rewrite str_app_assoc. cbn [append].
    rewrite (read_char _ pending false PyStr.dquote _
                       (Csv.mk_parser Csv.IN_QUOTED_FIELD EmptyString fs));
      [|reflexivity|discriminate|reflexivity].
    rewrite (read_quoted_body f EmptyString fs true _ (String d tail) Hlen).
    cbn [append].
    apply read_char; [exact Hlf|discriminate|exact Hq].
  - destruct f as [|c f].
    + cbn [append]. apply read_char; [exact Hlf|discriminate|now apply Hstart].
    + cbn [PyStr.existsb_char] in Especial.
      apply orb_false_elim in Especial. destruct Especial as [Hc Hf].
      destruct (special_false c Hc) as [Hcomma [Hdq [Hcr [Hlfc Hnl]]]].
      cbn [append].
      rewrite (read_char _ pending false c _
                         (Csv.mk_parser Csv.IN_FIELD (String c EmptyString) fs)
                         Hlfc ltac:(discriminate)).
      * rewrite Hcr.
        rewrite (read_plain_body f (String c EmptyString) fs (String d tail) Hf Hlen).
        cbn [append].
        apply read_char; [exact Hlf|discriminate|exact Hin].
      * unfold Csv.parse_process_char, Csv.start_field. cbn [Csv.state].
        rewrite Hnl, Hdq, Hcomma.
        exact (add_char_ok (Csv.mk_parser Csv.START_FIELD EmptyString fs) c
                           Csv.IN_FIELD f Hlen).
Qed.

(** The end of a record: CR LF after its last field. *)
Lemma read_record_end (fs : list string) (rest : string) :
  read (Csv.mk_parser Csv.EAT_CRNL EmptyString fs) true true
       (String PyStr.LF rest)
  = option_map (cons fs) (read Csv.parse_reset false false rest).
Proof. reflexivity. Qed.

(** The fields of a record from one of them on, read from the start
    of that field. *)
Lemma read_fields (more : list string) :
  forall (f : string) (fs : list string) (pending : bool) (rest : string),
    Forall (fun x => PyStr.code_points x <= limit) (f :: more) ->
    read (Csv.mk_parser Csv.START_FIELD EmptyString fs) pending false
         (PyStr.join "," (map Csv.field (f :: more)) ++ CRLF ++ rest)
    = option_map (cons (fs ++ f :: more))
                 (read Csv.parse_reset false false rest).
Proof.
  induction more as [|g more IH]; intros f fs pending rest Hlen;
    inversion Hlen as [|? ? Hf Hmore]; subst.
  - cbn [map PyStr.join append].
    rewrite (read_field f fs pending PyStr.CR _
                        (Csv.mk_parser Csv.EAT_CRNL EmptyString (fs ++ [f])) Hf);
      reflexivity.
  - change (PyStr.join "," (map Csv.field (f :: g :: more)))
      with (Csv.field f ++ "," ++ PyStr.join "," (map Csv.field (g :: more)))%string.
    rewrite !str_app_assoc. cbn [append].
    rewrite (read_field f fs pending "," _
                        (Csv.mk_parser Csv.START_FIELD EmptyString (fs ++ [f])) Hf);
      try reflexivity.
    change (PyStr.is_char PyStr.CR ",") with false.
    pose proof (IH g (fs ++ [f]) true rest Hmore) as Hrest.
    cbn [append] in Hrest. rewrite Hrest.
    now rewrite <- app_assoc.
Qed.

(** At the start of a record a character that is not a line end is
    read as at the start of a field. *)
Lemma read_start_record (c : ascii) (s : string) :
  Csv.is_newline c = false ->
  read Csv.parse_reset false false (String c s)
  = read (Csv.mk_parser Csv.START_FIELD EmptyString []) false false (String c s).
Proof.
  intros Hnl. cbn [read_text]. unfold Csv.parse_process_char.
  cbn [Csv.state Csv.parse_reset]. now rewrite Hnl.
Qed.

(** One record as the writer writes it. *)
Lemma read_record (record : list string) (rest : string) :
  Forall (fun x => PyStr.code_points x <= limit) record ->
  read Csv.parse_reset false false (Csv.writerow record ++ rest)
  = option_map (cons record) (read Csv.parse_reset false false rest).
Proof.
  intros Hlen. unfold Csv.writerow. rewrite str_app_assoc.
  destruct record as [|f more]; [reflexivity|].
  assert (Hfields :
            read (Csv.mk_parser Csv.START_FIELD EmptyString []) false false
                 (PyStr.join "," (map Csv.field (f :: more)) ++ CRLF ++ rest)
            = option_map (cons (f :: more))
                         (read Csv.parse_reset false false rest))
    by exact (read_fields more f [] false rest Hlen).
  destruct f as [|c f].
  - destruct more as [|g more]; [reflexivity|].
    rewrite <- Hfields.
    change (PyStr.join "," (map Csv.field (EmptyString :: g :: more)))
      with ("," ++ PyStr.join "," (map Csv.field (g :: more)))%string.
    cbn [append]. now apply read_start_record.
  - rewrite <- Hfields.
    assert (Hfirst : exists x s,
               (PyStr.join "," (map Csv.field (String c f :: more))
                  ++ CRLF ++ rest)%string = String x s
               /\ Csv.is_newline x = false).
    { assert (Hf : exists x s, Csv.field (String c f) = String x s
                               /\ Csv.is_newline x = false).
      { unfold Csv.field.
        destruct (PyStr.existsb_char Csv.special (String c f)) eqn:E.
        - eexists. eexists. split; [reflexivity|reflexivity].
        - cbn [PyStr.existsb_char] in E. apply orb_false_elim in E.
          destruct E as [Hc _].
          exists c, f. split; [reflexivity|apply (special_false c Hc)]. }
      destruct Hf as [x [s [Hx Hnl]]].
      destruct more as [|g more].
      - cbn [map PyStr.join]. rewrite Hx. cbn [append]. eauto.
      - change (PyStr.join "," (map Csv.field (String c f :: g :: more)))
          with (Csv.field (String c f) ++ ","
                  ++ PyStr.join "," (map Csv.field (g :: more)))%string.
        rewrite Hx. cbn [append]. eauto. }
    destruct Hfirst as [x [s [Hx Hnl]]].
    destruct more as [|g more]; rewrite Hx; now apply read_start_record.
Qed.

(** The text of the writer, read back. *)
Lemma read_text_records (records : list (list string)) :
  within_limit limit records ->
  read Csv.parse_reset false false (Csv.text records) = Some records.
Proof.
  induction 1 as [|record records Hrecord _ IH]; [reflexivity|].
  cbn [Csv.text fold_right]. fold (Csv.text records).
  now rewrite (read_record record (Csv.text records) Hrecord), IH.
Qed.

Lemma read_lines_records (records : list (list string)) :
  within_limit limit records ->
  Csv.read_lines limit Csv.parse_reset (Csv.lines (Csv.text records))
  = Some records.
Proof.
  intros H. unfold Csv.lines. rewrite read_lines_text. cbn [Csv.feed].
  exact (read_text_records records H).
Qed.

End ReaderRoundTrip.

Lemma within_limit_total (records more : list (list string)) :
  within_limit (total_code_points records + total_code_points more) records.
Proof.
  assert (Hnn : forall l, 0 <= total_code_points l).
  { induction l as [|r l IH]; cbn [total_code_points fold_right]; [lia|].
    fold (total_code_points l).
    induction r as [|f r IHr]; cbn [fold_right]; [exact IH|].
    pose proof (code_points_nonneg f). lia. }
  pose proof (Hnn more) as Hmore. revert Hmore.
  generalize (total_code_points more). intros extra Hextra.
  induction records as [|r records IH]; [constructor|].
  cbn [total_code_points fold_right]. fold (total_code_points records).
  pose proof (Hnn records) as Hrest.
  assert (Hrow : forall base, 0 <= base ->
             Forall (fun f => PyStr.code_points f
                              <= fold_right (fun f acc' => PyStr.code_points f + acc')
                                            base r + extra) r
             /\ base <= fold_right (fun f acc' => PyStr.code_points f + acc') base r).
  { intros base Hbase. induction r as [|f r IHr]; cbn [fold_right].
    - split; [constructor|lia].
    - destruct IHr as [Hall Hle]. pose proof (code_points_nonneg f). split.
      + constructor; [lia|].
        eapply Forall_impl; [|exact Hall]. cbv beta. intros x Hx. lia.
      + lia. }
  destruct (Hrow (total_code_points records) Hrest) as [Hall Hle].
  constructor; [exact Hall|].
  unfold within_limit in *.
  eapply Forall_impl; [|exact IH]. cbv beta. intros row Hrow'.
  eapply Forall_impl; [|exact Hrow']. cbv beta. intros x Hx. lia.
Qed.

(** The text of the writer determines the records. *)
Lemma csv_text_inj (a b : list (list string)) :
  Csv.text a = Csv.text b -> a = b.
Proof.
  intros H.
  pose proof (read_lines_records _ a (within_limit_total a b)) as Ha.
  assert (Hb : within_limit (total_code_points a + total_code_points b) b).
  { rewrite Z.add_comm. apply within_limit_total. }
  pose proof (read_lines_records _ b Hb) as Hb'.
  rewrite H in Ha. rewrite Ha in Hb'. now injection Hb'.
Qed.

(** [csv.reader] gives back the records of a text the writer wrote,
    when no field is longer than the limit of the reader. *)
Lemma csv_reader_text (records : list (list string)) :
  within_limit Csv.field_limit records ->
  Csv.reader (Csv.text records) = Some records.
Proof. apply read_lines_records. Qed.

(** ** The Persister: CSV *)

Section PersisterCsv.

Context {Svc : Type}.
Variable resolve : string -> string.
Variable writable : string -> bool.

Local Abbreviation save := (save_results Svc resolve writable).

(** What the CSV branch does when [data] has at least one row and the
    file can be opened: the header and the records are written line by
    line, up to the first line that UTF-8 cannot encode. *)
Lemma save_results_csv_run data file_path (w : world Svc) :
  PyStr.lower (Path.suffix file_path) = ".csv"%string ->
  writable file_path = true ->
  data_ok (heap w) data ->
  tagged_rows (heap w) data <> [] ->
  let rows := tagged_rows (heap w) data in
  let header := fieldnames_of rows in
  let texts := map Csv.writerow (header :: csv_records header rows) in
  save data file_path w =
  (mk_world (heap w ++ rows)
            (if forallb PyStr.utf8_encodable texts
             then stdout w ++ [("Resultados guardados en " ++ resolve file_path
                                                           ++ " (CSV).")%string]
             else stdout w)
            (Dict.set (files w) (resolve file_path) (written texts))
            (api_log w) (sleeps w) (svc w),
   write_outcome texts).
Proof.
  intros Hsuf Hwr Hok Hne rows header texts.
  unfold save_results. rewrite Hsuf.
  change (".csv" =? ".json")%string with false.
  change (".csv" =? ".csv")%string with true. cbv iota.
  unfold mbind at 1. rewrite collect_rows_spec by exact Hok.
  fold rows.
  assert (Hat : rows_at (heap w ++ rows) (seq (length (heap w)) (length rows))
                = rows) by apply rows_at_new.
  assert (Hkeys : forall r k, In r rows -> In k (Dict.keys r) -> In k header).
  { intros r k Hr Hk. apply fieldnames_of_in. eauto. }
  destruct rows as [|r0 rows0] eqn:Erows; [contradiction|].
  cbn [app length seq]. cbn [length seq] in Hat.
  cbv beta iota. cbn [heap]. rewrite Hat.
  fold header. unfold mbind at 1. unfold open_w at 1.
  rewrite Hwr.
  rewrite (writerows_bind resolve file_path header (r0 :: rows0) _ _ Hkeys).
  rewrite (write_all_bind resolve file_path _ _ _ EmptyString)
    by (cbn [files]; apply dict_get_set_same).
  cbv zeta. cbn [heap stdout files api_log sleeps svc append].
  rewrite dict_set_set. fold texts. unfold write_outcome, print.
  destruct (forallb PyStr.utf8_encodable texts); reflexivity.
Qed.

(** The same when UTF-8 can encode every key and value of the rows. *)
Lemma save_results_csv data file_path (w : world Svc) :
  PyStr.lower (Path.suffix file_path) = ".csv"%string ->
  writable file_path = true ->
  data_ok (heap w) data ->
  tagged_rows (heap w) data <> [] ->
  rows_encodable (tagged_rows (heap w) data) = true ->
  let rows := tagged_rows (heap w) data in
  let header := fieldnames_of rows in
  let records := map (fun r => map (csv_cell r) header) rows in
  save data file_path w =
  (mk_world (heap w ++ rows)
            (stdout w ++ [("Resultados guardados en " ++ resolve file_path
                                                      ++ " (CSV).")%string])
            (Dict.set (files w) (resolve file_path)
                      (Csv.text (header :: records)))
            (api_log w) (sleeps w) (svc w),
   Ret tt).
Proof.
  intros Hsuf Hwr Hok Hne Henc rows header records.
  rewrite (save_results_csv_run data file_path w Hsuf Hwr Hok Hne).
  fold rows. fold header.
  pose proof (csv_lines_encodable rows Henc) as Hall. fold header in Hall.
  rewrite Hall, (written_all _ Hall), <- csv_text_joined.
  unfold write_outcome. rewrite Hall. reflexivity.
Qed.

(** C8: for data with at least one row, whose keys and values UTF-8
    can encode, saved to a [.csv] path that can be opened, the call
    returns and the file holds the text of a header and one record
    per row.  That text is the text of no other list of records, and
    [csv.reader] reads the header and the records back from it when
    no field is longer than its limit.  The header is the strictly
    ascending list of all keys of all rows, [log_group] included; the
    record of a row holds, under each column, the row's value for it,
    and nothing where the row has no such key. *)
Theorem C8_csv_header_and_rows data file_path (w : world Svc) :
  PyStr.lower (Path.suffix file_path) = ".csv"%string ->
  writable file_path = true ->
  data_ok (heap w) data ->
  tagged_rows (heap w) data <> [] ->
  rows_encodable (tagged_rows (heap w) data) = true ->
  let rows := tagged_rows (heap w) data in
  let header := fieldnames_of rows in
  let records := map (fun r => map (csv_cell r) header) rows in
  snd (save data file_path w) = Ret tt
  /\ (exists text,
         Dict.get (files (fst (save data file_path w))) (resolve file_path)
         = Some text
         /\ text = Csv.text (header :: records)
         /\ (forall records', Csv.text records' = text ->
                              records' = header :: records)
         /\ (within_limit Csv.field_limit (header :: records) ->
             Csv.reader text = Some (header :: records)))
  /\ Sorted PySorted.lt header
  /\ (forall k, In k header <-> exists r, In r rows /\ In k (Dict.keys r))
  /\ In "log_group"%string header
  /\ length records = row_count data
  /\ (forall i j r k,
         nth_error rows i = Some r -> nth_error header j = Some k ->
         exists record,
           nth_error records i = Some record
           /\ length record = length header
           /\ nth_error record j = Some (csv_cell r k)
           /\ (Dict.get r k = None -> nth_error record j = Some EmptyString)).
Proof.
  intros Hsuf Hwr Hok Hne Henc rows header records.
  rewrite (save_results_csv data file_path w Hsuf Hwr Hok Hne Henc).
  fold rows. fold header. fold records. cbn [fst snd files].
  split; [reflexivity|].
  split.
  { exists (Csv.text (header :: records)).
    split; [apply dict_get_set_same|]. split; [reflexivity|].
    split; [intros records'; apply csv_text_inj|apply csv_reader_text]. }
  split; [apply sorted_set_sorted|].
  split; [intros k; apply fieldnames_of_in|].
  split.
  { destruct rows as [|r0 rows0] eqn:E; [contradiction|].
    apply fieldnames_of_in. exists r0. split; [now left|].
    apply (tagged_rows_log_group (heap w) data). fold rows.
    rewrite E. now left. }
  split.
  { unfold records. rewrite length_map. apply tagged_rows_length. }
  intros i j r k Hi Hj.
  exists (map (csv_cell r) header).
  split; [unfold records; rewrite nth_error_map, Hi; reflexivity|].
  split; [apply length_map|].
  assert (Hcell : nth_error (map (csv_cell r) header) j = Some (csv_cell r k))
    by (rewrite nth_error_map, Hj; reflexivity).
  split; [exact Hcell|].
  intros Hnone. rewrite Hcell. unfold csv_cell. now rewrite Hnone.
Qed.

(** The CSV branch only allocates: the objects of the heap it
    started from are all still there, unchanged.  This needs nothing
    of the addresses in [data]. *)
Lemma collect_rows_extends data all_rows (w : world Svc) :
  exists new,
    heap (fst (collect_rows Svc data all_rows w)) = heap w ++ new.
Proof.
  assert (Htag : forall lg rows all_rows (w : world Svc),
             exists new,
               heap (fst (tag_rows Svc lg rows all_rows w)) = heap w ++ new).
  { intros lg rows. induction rows as [|r rows IH]; intros all w0; simpl.
    - exists []. now rewrite app_nil_r.
    - unfold mbind, dict_copy, alloc, dict_setitem. cbn [heap fst snd].
      rewrite deref_app_new, update_nth_last.
      destruct (IH (all ++ [length (heap w0)])
                   (mk_world (heap w0 ++ [Dict.set (deref (heap w0) r) "log_group" lg])
                             (stdout w0) (files w0) (api_log w0) (sleeps w0)
                             (svc w0))) as [new Hnew].
      cbn [heap] in Hnew. rewrite <- app_assoc in Hnew.
      eexists. exact Hnew. }
  revert all_rows w.
  induction data as [|[lg rows] data IH]; intros all_rows w; simpl.
  - exists []. now rewrite app_nil_r.
  - unfold mbind.
    destruct (Htag lg rows all_rows w) as [new1 H1].
    destruct (tag_rows Svc lg rows all_rows w) as [w1 [a1|e|c|]] eqn:E;
      cbn [fst] in H1; cbn [fst]; try (exists new1; exact H1).
    destruct (IH a1 w1) as [new2 H2].
    exists (new1 ++ new2). rewrite H2, H1, app_assoc. reflexivity.
Qed.

(** After the loops the CSV branch writes to the console and to the
    file only, whether the writes go through or not. *)
Lemma save_results_csv_heap data file_path (w : world Svc) :
  PyStr.lower (Path.suffix file_path) = ".csv"%string ->
  heap (fst (save data file_path w))
  = heap (fst (collect_rows Svc data [] w)).
Proof.
  intros Hsuf. unfold save_results. rewrite Hsuf.
  change (".csv" =? ".json")%string with false.
  change (".csv" =? ".csv")%string with true. cbv iota.
  unfold mbind at 1.
  destruct (collect_rows Svc data [] w) as [w1 [all|e|c|]]; try reflexivity.
  destruct all as [|a0 all]; [reflexivity|].
  cbv beta zeta. unfold mbind at 1. unfold open_w at 1.
  destruct (writable file_path); [|reflexivity].
  now rewrite csv_writes_heap.
Qed.

(** C10: saving to a [.csv] path leaves the row dictionaries of the
    input as they were.  The heap only grows; every object that
    existed before the call is unchanged, so the rows of [data] are
    the same rows and none has acquired a [log_group] key; the key is
    set in the copies, which are the new objects. *)
Theorem C10_csv_leaves_input_unchanged data file_path (w : world Svc) :
  PyStr.lower (Path.suffix file_path) = ".csv"%string ->
  let w' := fst (save data file_path w) in
  (exists new, heap w' = heap w ++ new)
  /\ (forall a, (a < length (heap w))%nat ->
                deref (heap w') a = deref (heap w) a)
  /\ (data_ok (heap w) data ->
      data_at (heap w') data = data_at (heap w) data
      /\ heap w' = heap w ++ tagged_rows (heap w) data).
Proof.
  intros Hsuf w'.
  assert (Hheap : heap w' = heap (fst (collect_rows Svc data [] w)))
    by (apply save_results_csv_heap, Hsuf).
  destruct (collect_rows_extends data [] w) as [new Hnew].
  rewrite Hnew in Hheap.
  split; [exists new; exact Hheap|].
  split; [intros a Ha; rewrite Hheap; apply deref_app_old, Ha|].
  intros Hok. split.
  - rewrite Hheap. unfold data_at.
    apply map_ext_in. intros [lg rows] Hin. cbn [fst snd]. f_equal.
    apply rows_at_old.
    unfold data_ok in Hok. rewrite Forall_forall in Hok.
    exact (Hok _ Hin).
  - unfold w'. rewrite save_results_csv_heap by exact Hsuf.
    rewrite collect_rows_spec by exact Hok. reflexivity.
Qed.

End PersisterCsv.

(** The heterogeneous example: group [A] with the row [x = 1] and
    group [B] with the row [y = 2] give the header [log_group, x, y]
    and a blank cell for each field a row lacks. *)
Lemma csv_heterogeneous_example :
  let w' := fst (save_results unit sample_resolve (fun _ => true)
                              sample_data "out.csv" sample_world) in
  fieldnames_of (tagged_rows sample_heap sample_data) = ["log_group"; "x"; "y"]%string
  /\ Dict.get (files w') "/cwd/out.csv"
     = Some (Csv.text [["log_group"; "x"; "y"]; ["A"; "1"; EmptyString];
                       ["B"; EmptyString; "2"]]%string)
  /\ heap w' = sample_heap ++ [[("x", "1"); ("log_group", "A")];
                               [("y", "2"); ("log_group", "B")]]%string.
Proof. vm_compute. repeat split; reflexivity. Qed.

(** The file of the heterogeneous example, read back. *)
Lemma csv_heterogeneous_example_read :
  let w' := fst (save_results unit sample_resolve (fun _ => true)
                              sample_data "out.csv" sample_world) in
  match Dict.get (files w') "/cwd/out.csv" with
  | Some text => Csv.reader text
  | None => None
  end
  = Some [["log_group"; "x"; "y"]; ["A"; "1"; EmptyString];
          ["B"; EmptyString; "2"]]%string.
Proof. vm_compute. reflexivity. Qed.

Lemma sample_data_ok : data_ok sample_heap sample_data.
Proof. repeat constructor. Qed.

Lemma sample_rows_not_empty : tagged_rows sample_heap sample_data <> [].
Proof. discriminate. Qed.

Lemma C8_csv_header_and_rows_witness :
  PyStr.lower (Path.suffix "out.csv") = ".csv"%string
  /\ data_ok sample_heap sample_data
  /\ tagged_rows sample_heap sample_data <> []
  /\ rows_encodable (tagged_rows sample_heap sample_data) = true
  /\ snd (save_results unit sample_resolve (fun _ => true)
                       sample_data "out.csv" sample_world) = Ret tt.
Proof.
  split; [reflexivity|]. split; [exact sample_data_ok|].
  split; [exact sample_rows_not_empty|]. split; [reflexivity|].
  exact (proj1 (C8_csv_header_and_rows
                  sample_resolve (fun _ => true) sample_data "out.csv"
                  sample_world eq_refl eq_refl sample_data_ok
                  sample_rows_not_empty eq_refl)).
Defined.

(** A row with a value that UTF-8 cannot encode: the data has a row
    and the path can be opened, yet the call raises
    [UnicodeEncodeError] and the file holds the header and no record. *)
Lemma C8_counterexample :
  let run := save_results unit sample_resolve (fun _ => true)
                          surrogate_data "out.csv" surrogate_world in
  PyStr.lower (Path.suffix "out.csv") = ".csv"%string
  /\ data_ok surrogate_heap surrogate_data
  /\ tagged_rows surrogate_heap surrogate_data
     = [[("x", lone_surrogate); ("log_group", "A")]]%string
  /\ snd run = Exc (UnicodeEncodeError "surrogates not allowed")
  /\ Dict.get (files (fst run)) (sample_resolve "out.csv")
     = Some (Csv.text [["log_group"; "x"]]%string)
  /\ Csv.reader (Csv.text [["log_group"; "x"]]%string)
     = Some [["log_group"; "x"]]%string.
Proof.
  cbv zeta. split; [reflexivity|]. split; [repeat constructor|].
  vm_compute. repeat split; reflexivity.
Qed.

Lemma C10_csv_leaves_input_unchanged_witness :
  PyStr.lower (Path.suffix "out.csv") = ".csv"%string
  /\ forall a, (a < length sample_heap)%nat ->
               deref (heap (fst (save_results unit sample_resolve (fun _ => true)
                                              sample_data "out.csv" sample_world))) a
               = deref sample_heap a.
Proof.
  split; [reflexivity|].
  exact (proj1 (proj2 (C10_csv_leaves_input_unchanged
                         sample_resolve (fun _ => true) sample_data "out.csv"
                         sample_world eq_refl))).
Defined.

(** ** The JSON round trip *)

Section JsonRoundTrip.

Import PyStr Json JsonView.

(** Induction on objects, with the hypothesis for every element of a
    list and every value of a dict. *)
Lemma pyobj_induction (P : pyobj -> Prop) :
  P PNone ->
  (forall b, P (PBool b)) ->
  (forall s, P (PStr s)) ->
  (forall l, Forall P l -> P (PList l)) ->
  (forall d, Forall (fun kv => P (snd kv)) d -> P (PDict d)) ->
  forall o, P o.
Proof.
  intros HN HB HS HL HD.
  refine (fix F (o : pyobj) : P o :=
            match o with
            | PNone => HN
            | PBool b => HB b
            | PStr s => HS s
            | PList l =>
              HL l ((fix G (l : list pyobj) : Forall P l :=
                       match l with
                       | [] => Forall_nil _
                       | x :: l' => Forall_cons x (F x) (G l')
                       end) l)
            | PDict d =>
              HD d ((fix G (d : list (string * pyobj))
                     : Forall (fun kv => P (snd kv)) d :=
                       match d with
                       | [] => Forall_nil _
                       | kv :: d' => Forall_cons kv (F (snd kv)) (G d')
                       end) d)
            end).
Qed.

(** The decoder reads back one escaped character. *)
Lemma scanstring_char (c : ascii) (t : string) :
  scanstring (match escape_char c with
              | Some e => e ++ t
              | None => String c t
              end)%string
  = (p <- scanstring t ;; Ok (String c (fst p), snd p)).
Proof.
  destruct c as [[] [] [] [] [] [] [] []]; reflexivity.
Qed.

(** The decoder reads back an escaped string up to its closing
    quote. *)
Lemma scanstring_escape (s rest : string) :
  scanstring (escape s ++ String dquote rest) = Ok (s, rest).
Proof.
  induction s as [|c s IH]; [reflexivity|].
  cbn [escape].
  assert (H : ((match escape_char c with
                | Some e => e ++ escape s
                | None => String c (escape s)
                end) ++ String dquote rest)%string
              = (match escape_char c with
                 | Some e => e ++ (escape s ++ String dquote rest)
                 | None => String c (escape s ++ String dquote rest)
                 end)%string).
  { destruct (escape_char c); [apply str_app_assoc|reflexivity]. }
  rewrite H, scanstring_char, IH. reflexivity.
Qed.

Lemma skip_ws_blanks (n : nat) (s : string) :
  skip_ws (repeat_char " " n ++ s) = skip_ws s.
Proof. induction n as [|n IH]; simpl; [reflexivity|exact IH]. Qed.

Lemma skip_ws_indent (level : nat) (s : string) :
  skip_ws (newline_indent level ++ s) = skip_ws s.
Proof. unfold newline_indent. simpl. apply skip_ws_blanks. Qed.

(** An encoded object starts with a character that is neither white
    space nor a closing bracket. *)
Lemma encode_first (level : nat) (o : pyobj) :
  exists c r,
    encode level o = String c r
    /\ is_ws c = false /\ Ascii.eqb c "]" = false.
Proof.
  destruct o as [|[]|s|[|x l]|[|kv d]]; unfold encode, encode_basestring;
    simpl; eauto 6.
Qed.

Lemma skip_ws_encode (level : nat) (o : pyobj) (t : string) :
  skip_ws (encode level o ++ t) = (encode level o ++ t)%string.
Proof.
  destruct (encode_first level o) as [c [r [E [Hws _]]]].
  rewrite E. simpl. now rewrite Hws.
Qed.

Lemma join_elems (level : nat) (x : pyobj) (l : list pyobj) (rest : string) :
  (join ("," ++ newline_indent (S level)) (map (encode (S level)) (x :: l))
     ++ (newline_indent level ++ String "]" rest))%string
  = elems_text level (x :: l) rest.
Proof.
  revert x. induction l as [|y l IH]; intros x.
  - reflexivity.
  - change (join ("," ++ newline_indent (S level))
                 (map (encode (S level)) (x :: y :: l)))
      with (encode (S level) x
              ++ ("," ++ newline_indent (S level))
              ++ join ("," ++ newline_indent (S level))
                      (map (encode (S level)) (y :: l)))%string.
    rewrite !str_app_assoc, IH. reflexivity.
Qed.

Lemma encode_list_text (level : nat) (x : pyobj) (l : list pyobj) (rest : string) :
  (encode level (PList (x :: l)) ++ rest)%string
  = String "[" (newline_indent (S level) ++ elems_text level (x :: l) rest).
Proof.
  rewrite <- join_elems.
  change (encode level (PList (x :: l)))
    with ("[" ++ newline_indent (S level)
              ++ join ("," ++ newline_indent (S level))
                      (map (encode (S level)) (x :: l))
              ++ newline_indent level ++ "]")%string.
  rewrite !str_app_assoc. reflexivity.
Qed.

Lemma join_pairs (level : nat) (kv : string * pyobj)
      (d : list (string * pyobj)) (rest : string) :
  (join ("," ++ newline_indent (S level))
        (map (fun kv => encode_basestring (fst kv) ++ ": "
                                          ++ encode (S level) (snd kv))
             (kv :: d))
     ++ (newline_indent level ++ String "}" rest))%string
  = String dquote (pairs_text level (kv :: d) rest).
Proof.
  revert kv. induction d as [|kv' d IH]; intros kv.
  - cbn [map join pairs_text]. unfold encode_basestring.
    cbn [append]. rewrite !str_app_assoc. reflexivity.
  - change (join ("," ++ newline_indent (S level))
                 (map (fun kv => encode_basestring (fst kv) ++ ": "
                                                   ++ encode (S level) (snd kv))
                      (kv :: kv' :: d)))%string
      with ((encode_basestring (fst kv) ++ ": " ++ encode (S level) (snd kv))
              ++ ("," ++ newline_indent (S level))
              ++ join ("," ++ newline_indent (S level))
                      (map (fun kv => encode_basestring (fst kv) ++ ": "
                                                        ++ encode (S level) (snd kv))
                           (kv' :: d)))%string.
    rewrite !str_app_assoc, IH. unfold encode_basestring.
    cbn [append pairs_text]. rewrite !str_app_assoc. reflexivity.
Qed.

Lemma encode_dict_text (level : nat) (kv : string * pyobj)
      (d : list (string * pyobj)) (rest : string) :
  (encode level (PDict (kv :: d)) ++ rest)%string
  = String "{" (newline_indent (S level)
                  ++ String dquote (pairs_text level (kv :: d) rest)).
Proof.
  rewrite <- join_pairs.
  change (encode level (PDict (kv :: d)))
    with ("{" ++ newline_indent (S level)
              ++ join ("," ++ newline_indent (S level))
                      (map (fun kv => encode_basestring (fst kv) ++ ": "
                                                        ++ encode (S level) (snd kv))
                           (kv :: d))
              ++ newline_indent level ++ "}")%string.
  rewrite !str_app_assoc. reflexivity.
Qed.

(** The equations of the decoder, one step at a time. *)
Lemma scan_once_string (f : nat) (r : string) :
  scan_once (S f) (String dquote r)
  = (p <- scanstring r ;; Ok (PStr (fst p), snd p)).
Proof. reflexivity. Qed.

Lemma scan_once_list (f : nat) (r : string) :
  scan_once (S f) (String "[" r)
  = match skip_ws r with
    | String c1 r1 =>
      if Ascii.eqb c1 "]" then Ok (PList [], r1)
      else p <- array_values f (String c1 r1) ;; Ok (PList (fst p), snd p)
    | EmptyString => Raise (ValueError "Expecting value")
    end.
Proof. reflexivity. Qed.

Lemma scan_once_dict (f : nat) (r : string) :
  scan_once (S f) (String "{" (newline_indent 0 ++ String dquote r))
  = (p <- object_pairs f r ;; Ok (PDict (Dict.of_pairs (fst p)), snd p)).
Proof. reflexivity. Qed.

Lemma scan_once_dict_indent (f level : nat) (r : string) :
  scan_once (S f) (String "{" (newline_indent level ++ String dquote r))
  = (p <- object_pairs f r ;; Ok (PDict (Dict.of_pairs (fst p)), snd p)).
Proof.
  rewrite <- (scan_once_dict f r).
  change (scan_once (S f) (String "{" (newline_indent level ++ String dquote r)))
    with (match skip_ws (newline_indent level ++ String dquote r) with
          | String c1 r1 =>
            if Ascii.eqb c1 "}" then Ok (PDict [], r1)
            else if Ascii.eqb c1 dquote then
                   p <- object_pairs f r1 ;;
                   Ok (PDict (Dict.of_pairs (fst p)), snd p)
                 else Raise (ValueError "Expecting property name enclosed in double quotes")
          | EmptyString =>
            Raise (ValueError "Expecting property name enclosed in double quotes")
          end).
  rewrite skip_ws_indent. reflexivity.
Qed.

Lemma array_values_step (f : nat) (s : string) :
  array_values (S f) s
  = (v <- scan_once f s ;;
     match skip_ws (snd v) with
     | String c1 r1 =>
       if Ascii.eqb c1 "]" then Ok ([fst v], r1)
       else if Ascii.eqb c1 "," then
              p <- array_values f (skip_ws r1) ;;
              Ok (fst v :: fst p, snd p)
            else Raise (ValueError "Expecting ',' delimiter")
     | EmptyString => Raise (ValueError "Expecting ',' delimiter")
     end).
Proof. reflexivity. Qed.

Lemma object_pairs_step (f : nat) (s : string) :
  object_pairs (S f) s
  = (k <- scanstring s ;;
     match skip_ws (snd k) with
     | String c r =>
       if Ascii.eqb c ":" then
         v <- scan_once f (skip_ws r) ;;
         match skip_ws (snd v) with
         | String c1 r1 =>
           if Ascii.eqb c1 "}" then Ok ([(fst k, fst v)], r1)
           else if Ascii.eqb c1 "," then
             match skip_ws r1 with
             | String c2 r2 =>
               if Ascii.eqb c2 dquote then
                 p <- object_pairs f r2 ;;
                 Ok ((fst k, fst v) :: fst p, snd p)
               else Raise (ValueError "Expecting property name enclosed in double quotes")
             | EmptyString =>
               Raise (ValueError "Expecting property name enclosed in double quotes")
             end
           else Raise (ValueError "Expecting ',' delimiter")
         | EmptyString => Raise (ValueError "Expecting ',' delimiter")
         end
       else Raise (ValueError "Expecting ':' delimiter")
     | EmptyString => Raise (ValueError "Expecting ':' delimiter")
     end).
Proof. reflexivity. Qed.

Lemma array_values_text (l : list pyobj) :
  Forall reads_back l ->
  forall x fuel level rest,
    reads_back x ->
    wf (PList (x :: l)) ->
    (fold_right (fun x acc => S (size x) + acc) O (x :: l) <= fuel)%nat ->
    array_values fuel (elems_text level (x :: l) rest) = Ok (x :: l, rest).
Proof.
  induction 1 as [|y l Hy Hl IH]; intros x fuel level rest Hx Hwf Hfuel.
  - cbn [fold_right] in Hfuel. destruct fuel as [|f]; [lia|].
    cbn [elems_text]. rewrite array_values_step.
    destruct Hwf as [Hwx _].
    rewrite (Hx Hwx f (S level)) by lia.
    cbn [bind fst snd]. rewrite skip_ws_indent. reflexivity.
  - cbn [fold_right] in Hfuel. destruct fuel as [|f]; [lia|].
    change (elems_text level (x :: y :: l) rest)
      with (encode (S level) x
              ++ String "," (newline_indent (S level)
                               ++ elems_text level (y :: l) rest))%string.
    rewrite array_values_step.
    destruct Hwf as [Hwx Hwl].
    rewrite (Hx Hwx f (S level)) by lia.
    cbn [bind fst snd].
    change (skip_ws (String "," (newline_indent (S level)
                                   ++ elems_text level (y :: l) rest)))
      with (String "," (newline_indent (S level)
                          ++ elems_text level (y :: l) rest)).
    cbv iota.
    change (Ascii.eqb "," "]") with false.
    change (Ascii.eqb "," ",") with true. cbv iota.
    rewrite skip_ws_indent.
    assert (Hskip : skip_ws (elems_text level (y :: l) rest)
                    = elems_text level (y :: l) rest).
    { destruct l; cbn [elems_text]; apply skip_ws_encode. }
    rewrite Hskip.
    rewrite (IH y f level rest Hy Hwl) by (cbn [fold_right]; lia).
    reflexivity.
Qed.

Lemma object_pairs_text (d : list (string * pyobj)) :
  Forall (fun kv => reads_back (snd kv)) d ->
  forall kv fuel level rest,
    reads_back (snd kv) ->
    wf (snd kv) /\ fold_right (fun kv acc => wf (snd kv) /\ acc) True d ->
    (fold_right (fun kv acc => S (size (snd kv)) + acc) O (kv :: d) <= fuel)%nat ->
    object_pairs fuel (pairs_text level (kv :: d) rest) = Ok (kv :: d, rest).
Proof.
  induction 1 as [|kv' d Hkv' Hd IH]; intros [k v] fuel level rest Hv Hwf Hfuel.
  - cbn [fold_right snd] in Hfuel. destruct fuel as [|f]; [lia|].
    cbn [pairs_text fst snd]. rewrite object_pairs_step.
    rewrite scanstring_escape. cbn [bind fst snd].
    change (skip_ws (String ":" (String " "
              (encode (S level) v ++ newline_indent level ++ String "}" rest))))
      with (String ":" (String " "
              (encode (S level) v ++ newline_indent level ++ String "}" rest))).
    cbv iota. change (Ascii.eqb ":" ":") with true. cbv iota.
    change (skip_ws (String " "
              (encode (S level) v ++ newline_indent level ++ String "}" rest)))
      with (skip_ws (encode (S level) v ++ newline_indent level ++ String "}" rest)).
    rewrite skip_ws_encode.
    destruct Hwf as [Hwv _]. cbn [snd] in Hv, Hwv.
    rewrite (Hv Hwv f (S level)) by lia.
    cbn [bind fst snd]. rewrite skip_ws_indent. reflexivity.
  - cbn [fold_right snd] in Hfuel. destruct fuel as [|f]; [lia|].
    change (pairs_text level ((k, v) :: kv' :: d) rest)
      with (escape k
              ++ String dquote
                   (String ":" (String " "
                      (encode (S level) v
                         ++ String ","
                              (newline_indent (S level)
                                 ++ String dquote
                                      (pairs_text level (kv' :: d) rest))))))%string.
    rewrite object_pairs_step.
    rewrite scanstring_escape. cbn [bind fst snd].
    change (skip_ws (String ":" (String " " ?t)))
      with (String ":" (String " " t)).
    cbv iota. change (Ascii.eqb ":" ":") with true. cbv iota.
    change (skip_ws (String " " ?t)) with (skip_ws t).
    rewrite skip_ws_encode.
    destruct Hwf as [Hwv Hwd]. cbn [snd] in Hv, Hwv.
    rewrite (Hv Hwv f (S level)) by lia.
    cbn [bind fst snd].
    change (skip_ws (String "," ?t)) with (String "," t).
    cbv iota.
    change (Ascii.eqb "," "}") with false.
    change (Ascii.eqb "," ",") with true. cbv iota.
    rewrite skip_ws_indent.
    change (skip_ws (String dquote ?t)) with (String dquote t).
    cbv iota. change (Ascii.eqb dquote dquote) with true. cbv iota.
    cbn [fold_right] in Hwd.
    rewrite (IH kv' f level rest Hkv' Hwd) by (cbn [fold_right]; lia).
    reflexivity.
Qed.

(** Every well-formed object is read back from its encoding. *)
Lemma scan_once_encode (o : pyobj) : reads_back o.
Proof.
  induction o as [|b|s|l IH|d IH] using pyobj_induction;
    intros Hwf fuel level rest Hfuel.
  - destruct fuel as [|f]; [cbn in Hfuel; lia|]. reflexivity.
  - destruct fuel as [|f]; [cbn in Hfuel; lia|]. destruct b; reflexivity.
  - destruct fuel as [|f]; [cbn in Hfuel; lia|].
    unfold encode, encode_basestring. cbn [append].
    rewrite str_app_assoc. cbn [append].
    rewrite scan_once_string, scanstring_escape. reflexivity.
  - destruct fuel as [|f]; [cbn in Hfuel; lia|].
    destruct l as [|x l]; [reflexivity|].
    rewrite encode_list_text, scan_once_list, skip_ws_indent.
    inversion IH as [|? ? Hx Hl]; subst.
    assert (Hfirst : exists c r,
               elems_text level (x :: l) rest = String c r
               /\ is_ws c = false /\ Ascii.eqb c "]" = false).
    { destruct (encode_first (S level) x) as [c [r [E H]]].
      destruct l; cbn [elems_text]; rewrite E; cbn [append]; eauto. }
    destruct Hfirst as [c [r [E [Hws Hcb]]]].
    rewrite E. cbn [skip_ws]. rewrite Hws, Hcb, <- E.
    rewrite (array_values_text l Hl x f level rest Hx Hwf)
      by (cbn [size] in Hfuel; lia).
    reflexivity.
  - destruct fuel as [|f]; [cbn in Hfuel; lia|].
    destruct d as [|kv d]; [reflexivity|].
    rewrite encode_dict_text, scan_once_dict_indent.
    inversion IH as [|? ? Hkv Hd]; subst.
    destruct Hwf as [Hnd Hvals]. cbn [fold_right] in Hvals.
    rewrite (object_pairs_text d Hd kv f level rest Hkv Hvals)
      by (cbn [size] in Hfuel; lia).
    cbn [bind fst snd]. rewrite of_pairs_nodup by exact Hnd.
    reflexivity.
Qed.

Lemma indent_length (level : nat) : (1 <= String.length (newline_indent level))%nat.
Proof. unfold newline_indent. simpl. lia. Qed.

Lemma elems_text_size (level : nat) (l : list pyobj) (rest : string) :
  Forall (fun o => forall level, (size o <= String.length (encode level o))%nat) l ->
  l <> [] ->
  (fold_right (fun x acc => S (size x) + acc) O l
   <= String.length (elems_text level l rest))%nat.
Proof.
  induction 1 as [|x l Hx Hl IH]; intros Hne; [contradiction|].
  destruct l as [|y l].
  - cbn [fold_right elems_text]. rewrite !str_length_app.
    specialize (Hx (S level)). pose proof (indent_length level). lia.
  - change (elems_text level (x :: y :: l) rest)
      with (encode (S level) x
              ++ String "," (newline_indent (S level)
                               ++ elems_text level (y :: l) rest))%string.
    rewrite str_length_app. cbn [String.length fold_right] in *.
    rewrite str_length_app.
    specialize (Hx (S level)). specialize (IH ltac:(discriminate)). lia.
Qed.

Lemma pairs_text_size (level : nat) (d : list (string * pyobj)) (rest : string) :
  Forall (fun kv => forall level,
              (size (snd kv) <= String.length (encode level (snd kv)))%nat) d ->
  d <> [] ->
  (fold_right (fun kv acc => S (size (snd kv)) + acc) O d
   <= String.length (pairs_text level d rest))%nat.
Proof.
  induction 1 as [|kv d Hkv Hd IH]; intros Hne; [contradiction|].
  destruct d as [|kv' d].
  - cbn [fold_right pairs_text]. rewrite !str_length_app.
    cbn [String.length]. rewrite !str_length_app.
    specialize (Hkv (S level)). lia.
  - change (pairs_text level (kv :: kv' :: d) rest)
      with (escape (fst kv)
              ++ String dquote
                   (String ":" (String " "
                      (encode (S level) (snd kv)
                         ++ String ","
                              (newline_indent (S level)
                                 ++ String dquote
                                      (pairs_text level (kv' :: d) rest))))))%string.
    rewrite str_length_app. cbn [String.length fold_right] in *.
    rewrite str_length_app. cbn [String.length]. rewrite str_length_app.
    cbn [String.length].
    specialize (Hkv (S level)). specialize (IH ltac:(discriminate)). lia.
Qed.

(** The decoder never needs more steps than the text has characters. *)
Lemma size_le_length (o : pyobj) :
  forall level, (size o <= String.length (encode level o))%nat.
Proof.
  induction o as [|b|s|l IH|d IH] using pyobj_induction; intros level.
  - simpl. lia.
  - destruct b; simpl; lia.
  - simpl. lia.
  - destruct l as [|x l]; [simpl; lia|].
    rewrite <- (str_app_nil_r (encode level (PList (x :: l)))).
    rewrite encode_list_text. cbn [size String.length].
    rewrite str_length_app.
    pose proof (elems_text_size level (x :: l) EmptyString IH ltac:(discriminate)).
    lia.
  - destruct d as [|kv d]; [simpl; lia|].
    rewrite <- (str_app_nil_r (encode level (PDict (kv :: d)))).
    rewrite encode_dict_text. cbn [size String.length].
    rewrite str_length_app. cbn [String.length].
    pose proof (pairs_text_size level (kv :: d) EmptyString IH ltac:(discriminate)).
    lia.
Qed.

(** [json.loads(json.dumps(o, ensure_ascii=False, indent=2))] is [o]. *)
Theorem loads_dumps (o : pyobj) : wf o -> loads (dumps o) = Ok o.
Proof.
  intros Hwf. unfold loads, dumps.
  rewrite <- (str_app_nil_r (encode 0 o)) at 2.
  rewrite skip_ws_encode.
  rewrite (scan_once_encode o Hwf).
  - reflexivity.
  - pose proof (size_le_length o 0). lia.
Qed.

Lemma py_of_row_wf (r : row) : Dict.wf r -> wf (py_of_row r).
Proof.
  intros Hr. unfold py_of_row. cbn [wf]. split.
  - rewrite map_map. cbn [fst]. exact Hr.
  - clear Hr. induction r as [|kv r IH]; simpl; auto.
Qed.

Lemma py_of_rows_wf (rows : list row) :
  Forall (fun r => Dict.wf r) rows -> wf (py_of_rows rows).
Proof.
  unfold py_of_rows. induction 1 as [|r rows Hr _ IH]; cbn [map wf fold_right].
  - exact I.
  - split; [exact (py_of_row_wf r Hr)|exact IH].
Qed.

Lemma py_of_data_wf (h : heap_t) (data : Dict.t (list addr)) :
  data_wf h data -> wf (py_of_data (data_at h data)).
Proof.
  intros [Hkeys Hrows]. unfold py_of_data, data_at. cbn [wf]. split.
  - rewrite !map_map. cbn [fst]. exact Hkeys.
  - clear Hkeys. induction Hrows as [|[lg rows] data Hr _ IH];
      cbn [map fold_right fst snd]; [exact I|].
    split; [|exact IH].
    apply py_of_rows_wf. unfold rows_at. cbn [snd] in Hr.
    induction Hr; constructor; auto.
Qed.

(** Different mappings are different objects: reading the object back
    is reading the mapping back. *)
Lemma py_of_data_inj (d1 d2 : Dict.t (list row)) :
  py_of_data d1 = py_of_data d2 -> d1 = d2.
Proof.
  assert (Hrow : forall r1 r2 : row, py_of_row r1 = py_of_row r2 -> r1 = r2).
  { induction r1 as [|[k v] r1 IH]; intros [|[k' v'] r2] H;
      try discriminate; [reflexivity|].
    unfold py_of_row in *. cbn [map fst snd] in H.
    injection H as Hk Hv Hrest. subst. f_equal. apply IH. now f_equal. }
  assert (Hrows : forall l1 l2 : list row, py_of_rows l1 = py_of_rows l2 -> l1 = l2).
  { induction l1 as [|r1 l1 IH]; intros [|r2 l2] H; try discriminate;
      [reflexivity|].
    unfold py_of_rows in *. cbn [map] in H.
    injection H as Hr Hrest.
    f_equal; [apply Hrow; unfold py_of_row; now rewrite Hr|].
    apply IH. now f_equal. }
  revert d2. induction d1 as [|[k v] d1 IH]; intros [|[k' v'] d2] H;
    try discriminate; [reflexivity|].
  unfold py_of_data in *. cbn [map fst snd] in H.
  injection H as Hk Hv Hrest. subst. f_equal.
  - f_equal. apply Hrows. unfold py_of_rows. now rewrite Hv.
  - apply IH. now f_equal.
Qed.

End JsonRoundTrip.

(** ** The chunks of [json.dump] *)

Section JsonChunks.

Import PyStr Json JsonView.

Lemma escape_char_some (c : ascii) (e : string) :
  escape_char c = Some e ->
  in_surrogate_range (code c) = false /\ is_ascii e = true
  /\ e <> EmptyString.
Proof.
  destruct c as [[] [] [] [] [] [] [] []]; vm_compute; intros H;
    first [discriminate
          |injection H as <-;
           split; [reflexivity|split; [reflexivity|discriminate]]].
Qed.

Lemma escape_head (s : string) :
  in_surrogate_range (head_code (escape s)) = in_surrogate_range (head_code s).
Proof.
  destruct s as [|c s]; [reflexivity|]. cbn [escape head_code].
  destruct (escape_char c) as [e|] eqn:E; [|reflexivity].
  destruct (escape_char_some c e E) as [Hc [He Hne]].
  rewrite Hc. now apply is_ascii_head.
Qed.

Lemma escape_encodable (s : string) :
  utf8_encodable s = true -> utf8_encodable (escape s) = true.
Proof.
  induction s as [|c s IH]; [reflexivity|].
  rewrite utf8_encodable_cons. intros H.
  apply andb_prop in H. destruct H as [Hc Hs].
  cbn [escape]. destruct (escape_char c) as [e|] eqn:E.
  - destruct (escape_char_some c e E) as [_ [He _]].
    rewrite is_ascii_encodable_app by exact He. exact (IH Hs).
  - rewrite utf8_encodable_cons, escape_head, Hc. exact (IH Hs).
Qed.

Lemma encode_basestring_encodable (s : string) :
  utf8_encodable s = true -> utf8_encodable (encode_basestring s) = true.
Proof.
  intros H. unfold encode_basestring.
  change (String dquote (escape s ++ String dquote EmptyString))
    with (String dquote EmptyString ++ (escape s ++ String dquote EmptyString))%string.
  rewrite is_ascii_encodable_app by reflexivity.
  apply utf8_encodable_app; [apply escape_encodable, H|reflexivity|reflexivity].
Qed.

Lemma is_ascii_app (a b : string) :
  is_ascii (a ++ b) = is_ascii a && is_ascii b.
Proof.
  induction a as [|c a IH]; [reflexivity|].
  cbn [append is_ascii]. now rewrite IH, andb_assoc.
Qed.

Lemma newline_indent_ascii (level : nat) :
  is_ascii (newline_indent level) = true.
Proof.
  unfold newline_indent. cbn [is_ascii].
  change (code LF <? 128) with true. cbn [andb].
  induction (2 * level)%nat as [|n IH]; [reflexivity|].
  cbn [repeat_char is_ascii]. now rewrite IH.
Qed.

Lemma scalar_encode (level : nat) (v : pyobj) (t : string) :
  scalar v = Some t -> encode level v = t.
Proof. destruct v as [|[]|s|l|d]; cbn [scalar]; intros H; now inversion H. Qed.

Lemma scalar_encodable (v : pyobj) (t : string) :
  scalar v = Some t -> encodable v = true -> utf8_encodable t = true.
Proof.
  destruct v as [|[]|s|l|d]; cbn [scalar encodable]; intros H Henc;
    inversion H; subst; try reflexivity.
  now apply encode_basestring_encodable.
Qed.

(** *** The chunks, joined, are the text of [encode] *)

Lemma list_chunks_joined (level : nat) (l : list pyobj) :
  Forall (fun v => joined (iterencode (S level) v) = encode (S level) v) l ->
  forall (x : pyobj) (first : bool),
    joined (iterencode (S level) x) = encode (S level) x ->
    joined (list_chunks level first
                        (map (fun v => (scalar v, iterencode (S level) v))
                             (x :: l)))
    = ((if first then "[" else ",") ++ newline_indent (S level)
        ++ join ("," ++ newline_indent (S level))
                (map (encode (S level)) (x :: l)))%string.
Proof.
  assert (Hitem : forall (x : pyobj) (buf : string),
             joined (iterencode (S level) x) = encode (S level) x ->
             joined match scalar x with
                    | Some t => [(buf ++ t)%string]
                    | None => buf :: iterencode (S level) x
                    end
             = (buf ++ encode (S level) x)%string).
  { intros x buf Hx. destruct (scalar x) as [t|] eqn:E.
    - rewrite (scalar_encode (S level) x t E).
      unfold joined. cbn [fold_right]. now rewrite str_app_nil_r.
    - unfold joined in *. cbn [fold_right]. now rewrite Hx. }
  induction 1 as [|y l Hy _ IH]; intros x first Hx.
  - cbn [map list_chunks join]. rewrite app_nil_r.
    rewrite (Hitem x _ Hx). now rewrite str_app_assoc.
  - change (map (fun v => (scalar v, iterencode (S level) v)) (x :: y :: l))
      with ((scalar x, iterencode (S level) x)
              :: map (fun v => (scalar v, iterencode (S level) v)) (y :: l)).
    cbn [list_chunks]. rewrite joined_app, (Hitem x _ Hx), (IH y false Hy).
    change (map (encode (S level)) (x :: y :: l))
      with (encode (S level) x :: map (encode (S level)) (y :: l)).
    change (join ("," ++ newline_indent (S level))
                 (encode (S level) x :: map (encode (S level)) (y :: l)))
      with (encode (S level) x ++ ("," ++ newline_indent (S level))
              ++ join ("," ++ newline_indent (S level))
                      (map (encode (S level)) (y :: l)))%string.
    now rewrite !str_app_assoc.
Qed.

Lemma dict_chunks_joined (level : nat) (d : list (string * pyobj)) :
  Forall (fun kv => joined (iterencode (S level) (snd kv))
                    = encode (S level) (snd kv)) d ->
  forall (kv : string * pyobj) (first : bool),
    joined (iterencode (S level) (snd kv)) = encode (S level) (snd kv) ->
    joined (dict_chunks level first
                        (map (fun kv => (fst kv, iterencode (S level) (snd kv)))
                             (kv :: d)))
    = ((if first then EmptyString else "," ++ newline_indent (S level))
        ++ join ("," ++ newline_indent (S level))
                (map (fun kv => encode_basestring (fst kv) ++ ": "
                                ++ encode (S level) (snd kv))
                     (kv :: d)))%string.
Proof.
  assert (Hfirst : forall (first : bool) (rest : list string),
             joined (app (if first then []
                          else [("," ++ newline_indent (S level))%string]) rest)
             = ((if first then EmptyString else "," ++ newline_indent (S level))
                 ++ joined rest)%string).
  { intros [|] rest; reflexivity. }
  induction 1 as [|kv' d Hkv' _ IH]; intros kv first Hkv.
  - cbn [map dict_chunks join fst snd]. rewrite Hfirst. f_equal.
    unfold joined in *. cbn [fold_right]. rewrite app_nil_r.
    f_equal. cbn [append]. now rewrite Hkv.
  - change (map (fun kv => (fst kv, iterencode (S level) (snd kv)))
                (kv :: kv' :: d))
      with ((fst kv, iterencode (S level) (snd kv))
              :: map (fun kv => (fst kv, iterencode (S level) (snd kv)))
                     (kv' :: d)).
    cbn [dict_chunks]. rewrite Hfirst. f_equal.
    change (joined (encode_basestring (fst kv) :: ": "
                      :: app (iterencode (S level) (snd kv))
                             (dict_chunks level false
                                (map (fun kv => (fst kv, iterencode (S level) (snd kv)))
                                     (kv' :: d)))))
      with (encode_basestring (fst kv) ++ ": "
              ++ joined (app (iterencode (S level) (snd kv))
                             (dict_chunks level false
                                (map (fun kv => (fst kv, iterencode (S level) (snd kv)))
                                     (kv' :: d)))))%string.
    rewrite joined_app, Hkv, (IH kv' false Hkv').
    change (map (fun kv => encode_basestring (fst kv) ++ ": "
                           ++ encode (S level) (snd kv))%string (kv :: kv' :: d))
      with ((encode_basestring (fst kv) ++ ": " ++ encode (S level) (snd kv))%string
              :: map (fun kv => encode_basestring (fst kv) ++ ": "
                                ++ encode (S level) (snd kv))%string (kv' :: d)).
    set (rest := map _ (kv' :: d)).
    change (join ("," ++ newline_indent (S level))
                 ((encode_basestring (fst kv) ++ ": "
                     ++ encode (S level) (snd kv))%string :: rest))
      with ((encode_basestring (fst kv) ++ ": " ++ encode (S level) (snd kv))
              ++ ("," ++ newline_indent (S level))
              ++ join ("," ++ newline_indent (S level)) rest)%string.
    now rewrite !str_app_assoc.
Qed.

(** [json.dump] writes, chunk by chunk, the text of [json.dumps]. *)
Lemma iterencode_joined (o : pyobj) :
  forall level, joined (iterencode level o) = encode level o.
Proof.
  induction o as [| b | s | l IH | d IH] using pyobj_induction; intros level.
  - reflexivity.
  - destruct b; reflexivity.
  - unfold joined. cbn [iterencode encode fold_right]. apply str_app_nil_r.
  - destruct l as [|x l]; [reflexivity|].
    inversion IH as [|? ? Hx Hl]; subst.
    cbn [iterencode encode]. rewrite joined_app.
    rewrite (list_chunks_joined level l); [| |exact (Hx (S level))].
    + unfold joined. cbn [fold_right].
      rewrite str_app_nil_r. cbn [append]. now rewrite !str_app_assoc.
    + eapply Forall_impl; [|exact Hl]. cbv beta. intros v Hv. apply Hv.
  - destruct d as [|kv d]; [reflexivity|].
    inversion IH as [|? ? Hkv Hd]; subst.
    cbn [iterencode encode].
    change (joined ("{" :: newline_indent (S level)
                        :: app (dict_chunks level true
                                   (map (fun kv => (fst kv, iterencode (S level) (snd kv)))
                                        (kv :: d)))
                               [newline_indent level; "}"]))
      with ("{" ++ newline_indent (S level)
              ++ joined (app (dict_chunks level true
                                (map (fun kv => (fst kv, iterencode (S level) (snd kv)))
                                     (kv :: d)))
                             [newline_indent level; "}"]))%string.
    rewrite joined_app.
    rewrite (dict_chunks_joined level d); [| |exact (Hkv (S level))].
    + unfold joined. cbn [fold_right]. rewrite str_app_nil_r.
      cbn [append]. rewrite ?str_app_assoc. reflexivity.
    + eapply Forall_impl; [|exact Hd]. cbv beta. intros v Hv. apply Hv.
Qed.

(** *** The chunks of an object that UTF-8 can encode *)

Lemma buf_ascii (level : nat) (first : bool) :
  is_ascii ((if first then "[" else ",") ++ newline_indent (S level)) = true.
Proof.
  rewrite is_ascii_app, newline_indent_ascii. now destruct first.
Qed.

Lemma list_chunks_encodable (level : nat) (l : list pyobj) :
  Forall (fun v => encodable v = true ->
                   forallb utf8_encodable (iterencode (S level) v) = true) l ->
  forall first,
    forallb encodable l = true ->
    forallb utf8_encodable
            (list_chunks level first
                         (map (fun v => (scalar v, iterencode (S level) v)) l))
    = true.
Proof.
  induction 1 as [|x l Hx _ IH]; intros first Henc; [reflexivity|].
  cbn [forallb] in Henc. apply andb_prop in Henc. destruct Henc as [Ex El].
  cbn [map list_chunks]. rewrite forallb_app, (IH false El), andb_true_r.
  destruct (scalar x) as [t|] eqn:E.
  - cbn [forallb]. rewrite andb_true_r.
    rewrite is_ascii_encodable_app by apply buf_ascii.
    exact (scalar_encodable x t E Ex).
  - cbn [forallb]. rewrite (Hx Ex), andb_true_r.
    apply is_ascii_encodable, buf_ascii.
Qed.

Lemma dict_chunks_encodable (level : nat) (d : list (string * pyobj)) :
  Forall (fun kv => encodable (snd kv) = true ->
                    forallb utf8_encodable (iterencode (S level) (snd kv)) = true)
         d ->
  forall first,
    forallb (fun kv => utf8_encodable (fst kv) && encodable (snd kv)) d = true ->
    forallb utf8_encodable
            (dict_chunks level first
                         (map (fun kv => (fst kv, iterencode (S level) (snd kv))) d))
    = true.
Proof.
  induction 1 as [|kv d Hkv _ IH]; intros first Henc; [reflexivity|].
  cbn [forallb] in Henc. apply andb_prop in Henc. destruct Henc as [Ekv Ed].
  apply andb_prop in Ekv. destruct Ekv as [Ek Ev].
  cbn [map dict_chunks fst snd]. rewrite forallb_app. apply andb_true_intro. split.
  - destruct first; [reflexivity|]. cbn [forallb]. rewrite andb_true_r.
    apply is_ascii_encodable. rewrite is_ascii_app, newline_indent_ascii.
    reflexivity.
  - cbn [forallb]. rewrite (encode_basestring_encodable _ Ek).
    change (utf8_encodable ": ") with true. cbn [andb].
    rewrite forallb_app, (Hkv Ev), (IH false Ed). reflexivity.
Qed.

Lemma iterencode_encodable (o : pyobj) :
  forall level,
    encodable o = true -> forallb utf8_encodable (iterencode level o) = true.
Proof.
  induction o as [| b | s | l IH | d IH] using pyobj_induction;
    intros level Henc.
  - reflexivity.
  - destruct b; reflexivity.
  - cbn [iterencode forallb]. cbn [encodable] in Henc.
    now rewrite (encode_basestring_encodable s Henc).
  - destruct l as [|x l]; [reflexivity|].
    cbn [iterencode]. rewrite forallb_app. apply andb_true_intro. split.
    + apply list_chunks_encodable; [|exact Henc].
      eapply Forall_impl; [|exact IH]. cbv beta. intros v Hv. apply Hv.
    + cbn [forallb]. rewrite (is_ascii_encodable _ (newline_indent_ascii level)).
      reflexivity.
  - destruct d as [|kv d]; [reflexivity|].
    cbn [iterencode forallb].
    rewrite (is_ascii_encodable _ (newline_indent_ascii (S level))).
    change (utf8_encodable "{") with true. cbn [andb].
    rewrite forallb_app. apply andb_true_intro. split.
    + apply dict_chunks_encodable; [|exact Henc].
      eapply Forall_impl; [|exact IH]. cbv beta. intros v Hv. apply Hv.
    + cbn [forallb]. rewrite (is_ascii_encodable _ (newline_indent_ascii level)).
      reflexivity.
Qed.

Lemma py_of_data_encodable (d : Dict.t (list row)) :
  encodable (py_of_data d) = data_encodable d.
Proof.
  unfold py_of_data, data_encodable. cbn [encodable].
  induction d as [|[lg rows] d IH]; [reflexivity|].
  cbn [map forallb fst snd]. rewrite IH. f_equal. f_equal.
  unfold py_of_rows, rows_encodable. cbn [encodable].
  induction rows as [|r rows IHr]; [reflexivity|].
  cbn [map forallb]. rewrite IHr. f_equal.
  unfold py_of_row, row_encodable. cbn [encodable].
  clear. induction r as [|[k v] r IHr]; [reflexivity|].
  cbn [map forallb fst snd encodable]. now rewrite IHr.
Qed.

End JsonChunks.

(** ** The Persister: JSON *)

Section PersisterJson.

Context {Svc : Type}.
Variable resolve : string -> string.
Variable writable : string -> bool.

Local Abbreviation save := (save_results Svc resolve writable).

(** What the JSON branch does when the file can be opened: the
    chunks of the document are written one by one, up to the first
    that UTF-8 cannot encode. *)
Lemma save_results_json_run data file_path (w : world Svc) :
  PyStr.lower (Path.suffix file_path) = ".json"%string ->
  writable file_path = true ->
  let texts := Json.iterencode 0 (py_of_data (data_at (heap w) data)) in
  save data file_path w =
  (mk_world (heap w)
            (if forallb PyStr.utf8_encodable texts
             then stdout w ++ [("Resultados guardados en " ++ resolve file_path
                                                           ++ " (JSON).")%string]
             else stdout w)
            (Dict.set (Dict.set (files w) (resolve file_path) EmptyString)
                      (resolve file_path) (written texts))
            (api_log w) (sleeps w) (svc w),
   write_outcome texts).
Proof.
  intros Hsuf Hwr texts. unfold save_results. rewrite Hsuf.
  change (".json" =? ".json")%string with true. cbv iota.
  unfold mbind at 1. unfold open_w at 1. rewrite Hwr.
  unfold mbind. cbv beta. cbn [heap]. fold texts.
  rewrite (write_all_spec resolve file_path texts _ EmptyString)
    by (cbn [files]; apply dict_get_set_same).
  cbn [heap stdout files api_log sleeps svc append].
  rewrite dict_set_set. unfold write_outcome, print.
  destruct (forallb PyStr.utf8_encodable texts);
    cbn [heap stdout files api_log sleeps svc]; now rewrite ?dict_set_set.
Qed.

(** The same when UTF-8 can encode every key and value of the
    mapping. *)
Lemma save_results_json data file_path (w : world Svc) :
  PyStr.lower (Path.suffix file_path) = ".json"%string ->
  writable file_path = true ->
  data_encodable (data_at (heap w) data) = true ->
  save data file_path w =
  (mk_world (heap w)
            (stdout w ++ [("Resultados guardados en " ++ resolve file_path
                                                      ++ " (JSON).")%string])
            (Dict.set (Dict.set (files w) (resolve file_path) EmptyString)
                      (resolve file_path)
                      (Json.dumps (py_of_data (data_at (heap w) data))))
            (api_log w) (sleeps w) (svc w),
   Ret tt).
Proof.
  intros Hsuf Hwr Henc.
  rewrite (save_results_json_run data file_path w Hsuf Hwr). cbv zeta.
  assert (Hall : forallb PyStr.utf8_encodable
                         (Json.iterencode 0 (py_of_data (data_at (heap w) data)))
                 = true).
  { apply iterencode_encodable. now rewrite py_of_data_encodable. }
  rewrite Hall, (written_all _ Hall), iterencode_joined.
  unfold write_outcome. rewrite Hall. reflexivity.
Qed.

(** C9: a mapping whose keys and values UTF-8 can encode, saved to a
    [.json] path that can be opened, is read back from the file as
    the same mapping: the call returns, and [json.loads] of the
    file's text is the object that was saved, with the same log
    groups in the same order, the same rows in the same order and the
    same fields and values; and no other mapping has that object. *)
Theorem C9_json_round_trip data file_path (w : world Svc) :
  PyStr.lower (Path.suffix file_path) = ".json"%string ->
  writable file_path = true ->
  data_wf (heap w) data ->
  data_encodable (data_at (heap w) data) = true ->
  let saved := data_at (heap w) data in
  snd (save data file_path w) = Ret tt
  /\ exists text,
      Dict.get (files (fst (save data file_path w))) (resolve file_path)
      = Some text
      /\ text = Json.dumps (py_of_data saved)
      /\ Json.loads text = Ok (py_of_data saved)
      /\ forall read_back,
          Json.loads text = Ok (py_of_data read_back) -> read_back = saved.
Proof.
  intros Hsuf Hwr Hwf Henc saved.
  rewrite (save_results_json data file_path w Hsuf Hwr Henc).
  cbn [fst snd files]. split; [reflexivity|].
  exists (Json.dumps (py_of_data saved)).
  assert (Hload : Json.loads (Json.dumps (py_of_data saved))
                  = Ok (py_of_data saved))
    by (apply loads_dumps, py_of_data_wf, Hwf).
  split; [apply dict_get_set_same|]. split; [reflexivity|].
  split; [exact Hload|].
  intros read_back H. rewrite Hload in H.
  symmetry. apply py_of_data_inj. congruence.
Qed.

End PersisterJson.

Lemma sample_data_wf : data_wf sample_heap sample_data.
Proof.
  split.
  - unfold Dict.wf. simpl. repeat constructor; simpl; intuition discriminate.
  - repeat constructor; simpl; intuition discriminate.
Qed.

Lemma C9_json_round_trip_witness :
  PyStr.lower (Path.suffix "out.json") = ".json"%string
  /\ data_wf sample_heap sample_data
  /\ data_encodable (data_at sample_heap sample_data) = true
  /\ exists text,
      Dict.get (files (fst (save_results unit sample_resolve (fun _ => true)
                                         sample_data "out.json" sample_world)))
               (sample_resolve "out.json") = Some text
      /\ Json.loads text = Ok (py_of_data (data_at sample_heap sample_data)).
Proof.
  split; [reflexivity|]. split; [exact sample_data_wf|].
  split; [reflexivity|].
  destruct (proj2 (C9_json_round_trip
                     sample_resolve (fun _ => true) sample_data "out.json"
                     sample_world eq_refl eq_refl sample_data_wf eq_refl))
    as [text [Hget [_ [Hload _]]]].
  exists text. split; [exact Hget|exact Hload].
Defined.

Lemma surrogate_data_wf : data_wf surrogate_heap surrogate_data.
Proof.
  split.
  - unfold Dict.wf. simpl. repeat constructor; simpl; intuition discriminate.
  - repeat constructor; simpl; intuition discriminate.
Qed.

(** A row with a value that UTF-8 cannot encode: the path can be
    opened and no key is repeated, yet the call raises
    [UnicodeEncodeError]; the file holds the document up to that
    value, and [json.loads] refuses it. *)
Lemma C9_counterexample :
  let run := save_results unit sample_resolve (fun _ => true)
                          surrogate_data "out.json" surrogate_world in
  let text :=
      ("{" ++ String PyStr.LF
         ("  " ++ String PyStr.dquote
            ("A" ++ String PyStr.dquote
               (": [" ++ String PyStr.LF
                  ("    {" ++ String PyStr.LF
                     ("      " ++ String PyStr.dquote
                        ("x" ++ String PyStr.dquote ": ")))))))%string in
  PyStr.lower (Path.suffix "out.json") = ".json"%string
  /\ data_wf surrogate_heap surrogate_data
  /\ data_at surrogate_heap surrogate_data
     = [("A", [[("x", lone_surrogate)]])]%string
  /\ snd run = Exc (UnicodeEncodeError "surrogates not allowed")
  /\ Dict.get (files (fst run)) (sample_resolve "out.json") = Some text
  /\ Json.loads text = Raise (ValueError "Expecting value").
Proof.
  cbv zeta. split; [reflexivity|]. split; [exact surrogate_data_wf|].
  vm_compute. repeat split; reflexivity.
Qed.

(** ** The calendar *)

Section Calendar.

Import DateTime.

Lemma month_day_table (leap : bool) :
  forallb (month_day_ok leap) (days_upto 365) = true.
Proof. destruct leap; vm_compute; reflexivity. Qed.

Lemma month_day_spec (leap : bool) (r : Z) :
  0 <= r < 365 ->
  let '(m, d) := month_day r leap in
  1 <= m <= 12
  /\ 1 <= d <= DAYS_IN_MONTH m + (if (m =? 2) && leap then 1 else 0)
  /\ DAYS_BEFORE_MONTH m + (if (2 <? m) && leap then 1 else 0) + d = r + 1.
Proof.
  intros Hr.
  pose proof (month_day_table leap) as H.
  rewrite forallb_forall in H.
  specialize (H r).
  assert (Hin : In r (days_upto 365)).
  { unfold days_upto. apply in_map_iff. exists (Z.to_nat r).
    split; [lia|]. apply in_seq. lia. }
  specialize (H Hin). unfold month_day_ok in H.
  destruct (month_day r leap) as [m d].
  repeat (apply andb_prop in H; destruct H as [H ?]).
  repeat split; lia.
Qed.

(** The leap year rule on a year written by its place in the 400, 100
    and 4 year cycles. *)
Lemma is_leap_cycles (a b c d : Z) :
  0 <= b < 4 -> 0 <= c < 25 -> 0 <= d < 4 ->
  is_leap (400 * a + 100 * b + 4 * c + d + 1)
  = (d =? 3) && (negb (c =? 24) || (b =? 3)).
Proof.
  intros Hb Hc Hd. unfold is_leap.
  set (y := 400 * a + 100 * b + 4 * c + d + 1).
  assert (H4 : y mod 4 = (d + 1) mod 4).
  { unfold y.
    replace (400 * a + 100 * b + 4 * c + d + 1)
      with (d + 1 + (100 * a + 25 * b + c) * 4) by lia.
    apply Z_mod_plus_full. }
  assert (H100 : y mod 100 = (4 * c + d + 1) mod 100).
  { unfold y.
    replace (400 * a + 100 * b + 4 * c + d + 1)
      with (4 * c + d + 1 + (4 * a + b) * 100) by lia.
    apply Z_mod_plus_full. }
  assert (H400 : y mod 400 = (100 * b + 4 * c + d + 1) mod 400).
  { unfold y.
    replace (400 * a + 100 * b + 4 * c + d + 1)
      with (100 * b + 4 * c + d + 1 + a * 400) by lia.
    apply Z_mod_plus_full. }
  rewrite H4, H100, H400. clear H4 H100 H400 y.
  destruct (d =? 3) eqn:Ed; destruct (c =? 24) eqn:Ec; destruct (b =? 3) eqn:Eb;
    rewrite ?Z.eqb_eq, ?Z.eqb_neq in *; cbn [negb andb orb];
    repeat match goal with
           | |- context [?x mod ?y =? 0] =>
             let E := fresh "E" in
             destruct (x mod y =? 0) eqn:E;
               rewrite ?Z.eqb_eq, ?Z.eqb_neq in E
           end;
    cbn [negb andb orb]; try reflexivity; exfalso;
    Z.div_mod_to_equations; lia.
Qed.

Lemma days_before_year_cycles (a b c d : Z) :
  0 <= b < 4 -> 0 <= c < 25 -> 0 <= d < 4 ->
  days_before_year (400 * a + 100 * b + 4 * c + d + 1)
  = DI400Y * a + DI100Y * b + DI4Y * c + 365 * d.
Proof.
  intros Hb Hc Hd. unfold days_before_year, DI400Y, DI100Y, DI4Y. cbv zeta.
  replace (400 * a + 100 * b + 4 * c + d + 1 - 1)
    with (400 * a + 100 * b + 4 * c + d) by lia.
  assert (H4 : (400 * a + 100 * b + 4 * c + d) / 4 = 100 * a + 25 * b + c)
    by (Z.div_mod_to_equations; lia).
  assert (H100 : (400 * a + 100 * b + 4 * c + d) / 100 = 4 * a + b)
    by (Z.div_mod_to_equations; lia).
  assert (H400 : (400 * a + 100 * b + 4 * c + d) / 400 = a)
    by (Z.div_mod_to_equations; lia).
  rewrite H4, H100, H400. lia.
Qed.

Lemma ord2ymd_unfold (n : Z) :
  ord2ymd n =
  let a := (n - 1) / DI400Y in
  let r400 := (n - 1) mod DI400Y in
  let b := r400 / DI100Y in
  let r100 := r400 mod DI100Y in
  let c := r100 / DI4Y in
  let r4 := r100 mod DI4Y in
  let d := r4 / 365 in
  let r1 := r4 mod 365 in
  if (d =? 4) || (b =? 4) then (a * 400 + 1 + b * 100 + c * 4 + d - 1, 12, 31)
  else
    let '(m, dd) := month_day r1 ((d =? 3) && (negb (c =? 24) || (b =? 3))) in
    (a * 400 + 1 + b * 100 + c * 4 + d, m, dd).
Proof.
  unfold ord2ymd, month_day. cbv zeta.
  destruct ((_ =? 4) || (_ =? 4)); [reflexivity|].
  destruct (_ <? _); reflexivity.
Qed.

(** [_ord2ymd] returns a date of the calendar, and [_ymd2ord] takes it
    back to the ordinal. *)
Lemma ord2ymd_spec (n : Z) :
  let '(y, m, d) := ord2ymd n in
  ymd2ord y m d = n
  /\ 1 <= m <= 12
  /\ 1 <= d <= days_in_month y m
  /\ 400 * ((n - 1) / DI400Y) + 1 <= y <= 400 * ((n - 1) / DI400Y) + 400.
Proof.
  rewrite ord2ymd_unfold. cbv zeta.
  pose proof (Z.div_mod (n - 1) DI400Y ltac:(discriminate)) as E400.
  pose proof (Z.mod_pos_bound (n - 1) DI400Y ltac:(reflexivity)) as B400.
  set (a := (n - 1) / DI400Y) in *. set (r400 := (n - 1) mod DI400Y) in *.
  pose proof (Z.div_mod r400 DI100Y ltac:(discriminate)) as E100.
  pose proof (Z.mod_pos_bound r400 DI100Y ltac:(reflexivity)) as B100.
  set (b := r400 / DI100Y) in *. set (r100 := r400 mod DI100Y) in *.
  pose proof (Z.div_mod r100 DI4Y ltac:(discriminate)) as E4.
  pose proof (Z.mod_pos_bound r100 DI4Y ltac:(reflexivity)) as B4.
  set (c := r100 / DI4Y) in *. set (r4 := r100 mod DI4Y) in *.
  pose proof (Z.div_mod r4 365 ltac:(discriminate)) as E1.
  pose proof (Z.mod_pos_bound r4 365 ltac:(reflexivity)) as B1.
  set (d := r4 / 365) in *. set (r1 := r4 mod 365) in *.
  unfold DI400Y, DI100Y, DI4Y in *.
  assert (Hb : 0 <= b <= 4) by nia.
  assert (Hc : 0 <= c <= 24) by nia.
  assert (Hd : 0 <= d <= 4) by nia.
  destruct ((d =? 4) || (b =? 4)) eqn:Hlast.
  - (* the last day of a 4 or of a 400 year cycle: 31 December of a leap year *)
    apply orb_prop in Hlast.
    assert (Hy : exists b' c',
               0 <= b' < 4 /\ 0 <= c' < 25
               /\ (negb (c' =? 24) || (b' =? 3)) = true
               /\ a * 400 + 1 + b * 100 + c * 4 + d - 1
                  = 400 * a + 100 * b' + 4 * c' + 3 + 1
               /\ n = 146097 * a + 36524 * b' + 1461 * c' + 1461).
    { destruct Hlast as [H|H]; apply Z.eqb_eq in H.
      - destruct (b =? 4) eqn:Eb; [apply Z.eqb_eq in Eb; lia|].
        apply Z.eqb_neq in Eb.
        exists b, c. assert (c < 24) by lia.
        assert (Hc24 : (c =? 24) = false) by (apply Z.eqb_neq; lia).
        rewrite Hc24. repeat split; try lia.
      - exists 3, 24. repeat split; try lia. }
    destruct Hy as [b' [c' [Hb' [Hc' [Hleap [Hyear Hn]]]]]].
    rewrite Hyear.
    unfold ymd2ord, days_before_month, days_in_month.
    rewrite is_leap_cycles, days_before_year_cycles by lia.
    rewrite Hleap. unfold DI400Y, DI100Y, DI4Y.
    change (DAYS_BEFORE_MONTH 12) with 334.
    change (DAYS_IN_MONTH 12) with 31.
    change (2 <? 12) with true. change (12 =? 2) with false.
    change (3 =? 3) with true.
    cbn [andb orb negb]. cbv iota.
    repeat split; lia.
  - apply orb_false_elim in Hlast. destruct Hlast as [Hd4 Hb4].
    apply Z.eqb_neq in Hd4. apply Z.eqb_neq in Hb4.
    pose proof (month_day_spec ((d =? 3) && (negb (c =? 24) || (b =? 3))) r1 B1)
      as Hmd.
    destruct (month_day r1 ((d =? 3) && (negb (c =? 24) || (b =? 3))))
      as [m dd].
    destruct Hmd as [Hm [Hdd Hsum]].
    replace (a * 400 + 1 + b * 100 + c * 4 + d)
      with (400 * a + 100 * b + 4 * c + d + 1) by lia.
    unfold ymd2ord, days_before_month, days_in_month.
    rewrite is_leap_cycles, days_before_year_cycles by lia.
    unfold DI400Y, DI100Y, DI4Y.
    set (leap := (d =? 3) && (negb (c =? 24) || (b =? 3))) in *.
    split; [lia|]. split; [lia|]. split; [|lia].
    destruct ((m =? 2) && leap) eqn:E2; [|lia].
    apply andb_prop in E2. destruct E2 as [E2 _]. apply Z.eqb_eq in E2.
    subst m. simpl in Hdd. lia.
Qed.

(** A year has 365 days, and one more when it is a leap year. *)
Lemma days_before_year_succ (y : Z) :
  days_before_year (y + 1)
  = days_before_year y + 365 + (if is_leap y then 1 else 0).
Proof.
  unfold days_before_year, is_leap. cbv zeta.
  replace (y + 1 - 1) with y by lia.
  destruct (y mod 4 =? 0) eqn:E4; destruct (y mod 100 =? 0) eqn:E100;
    destruct (y mod 400 =? 0) eqn:E400;
    rewrite ?Z.eqb_eq, ?Z.eqb_neq in *; cbn [negb andb orb];
    Z.div_mod_to_equations; lia.
Qed.

Lemma days_before_year_mono (y k : Z) :
  0 <= k -> days_before_year y + 365 * k <= days_before_year (y + k).
Proof.
  intros Hk. revert k Hk.
  apply (natlike_ind (fun k => days_before_year y + 365 * k
                               <= days_before_year (y + k))).
  - replace (y + 0) with y by lia. lia.
  - intros k Hk IH.
    replace (y + Z.succ k) with (y + k + 1) by lia.
    rewrite days_before_year_succ.
    destruct (is_leap (y + k)); lia.
Qed.

(** The day of the year of a date of the calendar. *)
Lemma day_of_year_bounds (y m d : Z) :
  1 <= m <= 12 -> 1 <= d <= days_in_month y m ->
  1 <= days_before_month y m + d <= 365 + (if is_leap y then 1 else 0).
Proof.
  intros Hm Hd. unfold days_before_month, days_in_month in *.
  assert (Htable : forall leap : bool,
             0 <= DAYS_BEFORE_MONTH m + (if (2 <? m) && leap then 1 else 0)
             /\ DAYS_BEFORE_MONTH m + (if (2 <? m) && leap then 1 else 0)
                + (if (m =? 2) && leap then 29 else DAYS_IN_MONTH m)
                <= 365 + (if leap then 1 else 0)).
  { assert (Hcases : m = 1 \/ m = 2 \/ m = 3 \/ m = 4 \/ m = 5 \/ m = 6 \/ m = 7
                     \/ m = 8 \/ m = 9 \/ m = 10 \/ m = 11 \/ m = 12) by lia.
    intros leap.
    repeat (destruct Hcases as [Hcases|Hcases]; [subst m|]); try subst m;
      destruct leap; vm_compute; split; discriminate. }
  specialize (Htable (is_leap y)). lia.
Qed.

(** The ordinal of a date the constructor accepts is in range. *)
Lemma ymd2ord_bounds (y m d : Z) :
  check_date_fields y m d = Ok tt -> 1 <= ymd2ord y m d <= MAXORDINAL.
Proof.
  unfold check_date_fields, MINYEAR, MAXYEAR.
  destruct ((1 <=? y) && (y <=? 9999)) eqn:Hy; [|discriminate].
  destruct ((1 <=? m) && (m <=? 12)) eqn:Hm; [|discriminate].
  destruct ((1 <=? d) && (d <=? days_in_month y m)) eqn:Hd; [|discriminate].
  intros _. cbn [negb] in *.
  apply andb_prop in Hy, Hm, Hd.
  destruct Hy as [Hy1 Hy2], Hm as [Hm1 Hm2], Hd as [Hd1 Hd2].
  apply Z.leb_le in Hy1, Hy2, Hm1, Hm2, Hd1, Hd2.
  pose proof (day_of_year_bounds y m d (conj Hm1 Hm2) (conj Hd1 Hd2)) as Hday.
  pose proof (days_before_year_mono 1 (y - 1) ltac:(lia)) as Hlo.
  pose proof (days_before_year_mono (y + 1) (9999 - y) ltac:(lia)) as Hhi.
  pose proof (days_before_year_succ y) as Hsucc.
  replace (1 + (y - 1)) with y in Hlo by lia.
  replace (y + 1 + (9999 - y)) with 10000 in Hhi by lia.
  change (days_before_year 1) with 0 in Hlo.
  change (days_before_year 10000) with 3652059 in Hhi.
  unfold ymd2ord, MAXORDINAL. lia.
Qed.

Lemma check_date_fields_ok (y m d : Z) :
  check_date_fields y m d = Ok tt
  <-> (1 <= y <= 9999 /\ 1 <= m <= 12 /\ 1 <= d <= days_in_month y m).
Proof.
  unfold check_date_fields, MINYEAR, MAXYEAR.
  destruct ((1 <=? y) && (y <=? 9999)) eqn:Hy;
    destruct ((1 <=? m) && (m <=? 12)) eqn:Hm;
    destruct ((1 <=? d) && (d <=? days_in_month y m)) eqn:Hd;
    cbn [negb];
    rewrite ?andb_true_iff, ?andb_false_iff, ?Z.leb_le, ?Z.leb_gt in *;
    split; intros H; try discriminate; try reflexivity; try lia.
Qed.

Lemma check_time_fields_ok (h mi s us : Z) :
  check_time_fields h mi s us = Ok tt
  <-> (0 <= h <= 23 /\ 0 <= mi <= 59 /\ 0 <= s <= 59 /\ 0 <= us <= 999999).
Proof.
  unfold check_time_fields.
  destruct ((0 <=? h) && (h <=? 23)) eqn:Hh;
    destruct ((0 <=? mi) && (mi <=? 59)) eqn:Hmi;
    destruct ((0 <=? s) && (s <=? 59)) eqn:Hs;
    destruct ((0 <=? us) && (us <=? 999999)) eqn:Hus;
    cbn [negb];
    rewrite ?andb_true_iff, ?andb_false_iff, ?Z.leb_le, ?Z.leb_gt in *;
    split; intros H; try discriminate; try reflexivity; try lia.
Qed.

(** A [datetime] the constructor accepts. *)
Lemma valid_fields (dt : datetime) :
  valid dt = true
  <-> (check_date_fields (year dt) (month dt) (day dt) = Ok tt
       /\ check_time_fields (hour dt) (minute dt) (second dt) (microsecond dt)
          = Ok tt).
Proof.
  unfold valid, new.
  destruct (check_date_fields (year dt) (month dt) (day dt)) as [[]|e]; cbn [bind].
  - destruct (check_time_fields (hour dt) (minute dt) (second dt) (microsecond dt))
      as [[]|e]; cbn [bind]; split; intros H; try discriminate; auto.
    destruct H; discriminate.
  - split; intros H; [discriminate|destruct H; discriminate].
Qed.

Lemma new_valid (y m d h mi s us : Z) (dt : datetime) :
  new y m d h mi s us = Ok dt ->
  dt = mk_datetime y m d h mi s us /\ valid dt = true.
Proof.
  intros H. assert (H' := H). unfold new in H.
  destruct (check_date_fields y m d) as [[]|e] eqn:Ed; cbn [bind] in H;
    [|discriminate].
  destruct (check_time_fields h mi s us) as [[]|e] eqn:Et; cbn [bind] in H;
    [|discriminate].
  injection H as <-. split; [reflexivity|].
  apply valid_fields. cbn. auto.
Qed.

(** Every ordinal in range is the ordinal of the date [_ord2ymd]
    returns, and the constructor accepts that date. *)
Lemma ord2ymd_valid (n : Z) :
  1 <= n <= MAXORDINAL ->
  let '(y, m, d) := ord2ymd n in
  check_date_fields y m d = Ok tt /\ ymd2ord y m d = n.
Proof.
  intros Hn. pose proof (ord2ymd_spec n) as H.
  destruct (ord2ymd n) as [[y m] d].
  destruct H as [Hord [Hm [Hd _]]].
  split; [|exact Hord].
  apply check_date_fields_ok. split; [|auto].
  pose proof (day_of_year_bounds y m d Hm Hd) as Hday.
  pose proof (days_before_year_succ y) as Hsucc.
  unfold ymd2ord, MAXORDINAL in *.
  split.
  - destruct (Z_lt_le_dec y 1) as [Hlt|]; [exfalso|assumption].
    pose proof (days_before_year_mono (y + 1) (1 - (y + 1)) ltac:(lia)) as Hmono.
    replace (y + 1 + (1 - (y + 1))) with 1 in Hmono by lia.
    change (days_before_year 1) with 0 in Hmono.
    destruct (is_leap y); lia.
  - destruct (Z_lt_le_dec 9999 y) as [Hgt|]; [exfalso|assumption].
    pose proof (days_before_year_mono 10000 (y - 10000) ltac:(lia)) as Hmono.
    replace (10000 + (y - 10000)) with y in Hmono by lia.
    change (days_before_year 10000) with 3652059 in Hmono.
    lia.
Qed.

(** [datetime.__add__] on a valid [datetime] and a [timedelta] of [k]
    seconds, less than a day: the carries of the two [timedelta]s
    worked out. *)
Lemma add_unfold (dt : datetime) (k : Z) :
  valid dt = true ->
  0 <= k < 86400 ->
  add dt (mk_timedelta 0 k 0) =
  let ord := toordinal dt in
  let q := (seconds_of_day dt + k) / 86400 in
  let s := (seconds_of_day dt + k) mod 86400 in
  if (0 <? ord + q) && (ord + q <=? MAXORDINAL) then
    let '(y, m, d) := ord2ymd (ord + q) in
    Ok (mk_datetime y m d (s / 3600) (s mod 3600 / 60) ((s mod 3600) mod 60)
                    (microsecond dt))
  else Raise (OverflowError "date value out of range").
Proof.
  intros Hvalid Hk.
  apply valid_fields in Hvalid. destruct Hvalid as [Hdate Htime].
  pose proof (ymd2ord_bounds _ _ _ Hdate) as Hord.
  apply check_time_fields_ok in Htime.
  destruct Htime as [Hh [Hmi [Hs Hus]]].
  unfold seconds_of_day, MAXORDINAL in *.
  unfold add, timedelta_add, timedelta_new, toordinal in *. cbv zeta.
  set (ord := ymd2ord (year dt) (month dt) (day dt)) in *.
  set (secs := hour dt * 3600 + minute dt * 60 + second dt) in *.
  assert (Hsecs : 0 <= secs < 86400) by (unfold secs; lia).
  assert (Hus0 : microsecond dt / 1000000 = 0) by (apply Z.div_small; lia).
  assert (Husm : microsecond dt mod 1000000 = microsecond dt)
    by (apply Z.mod_small; lia).
  rewrite Hus0, Husm, Z.add_0_r.
  rewrite (Z.div_small secs 86400), (Z.mod_small secs 86400), Z.add_0_r by lia.
  assert (Hchk1 : (999999999 <? Z.abs ord) = false) by (apply Z.ltb_ge; lia).
  rewrite Hchk1. cbn [bind td_days td_seconds td_microseconds].
  rewrite (Z.add_0_r (microsecond dt)), (Z.add_0_r ord), Hus0, Husm.
  replace (0 * 3600 + 0 * 60 + (secs + k) + 0) with (secs + k) by lia.
  pose proof (Z.div_mod (secs + k) 86400 ltac:(discriminate)) as Ediv.
  pose proof (Z.mod_pos_bound (secs + k) 86400 ltac:(reflexivity)) as Bmod.
  set (q := (secs + k) / 86400) in *. set (s' := (secs + k) mod 86400) in *.
  assert (Hq : 0 <= q <= 1) by lia.
  assert (Hchk2 : (999999999 <? Z.abs (ord + q)) = false) by (apply Z.ltb_ge; lia).
  rewrite Hchk2. cbn [bind td_days td_seconds td_microseconds].
  reflexivity.
Qed.

(** Adding [k] seconds, less than a day, to a valid [datetime] that
    stays in range: the sum is a valid [datetime], [k] seconds later. *)
Lemma add_seconds (dt : datetime) (k : Z) :
  valid dt = true ->
  0 <= k < 86400 ->
  local_seconds dt + k < end_of_time ->
  exists dt',
    add dt (mk_timedelta 0 k 0) = Ok dt'
    /\ valid dt' = true
    /\ local_seconds dt' = local_seconds dt + k
    /\ microsecond dt' = microsecond dt.
Proof.
  intros Hvalid Hk Hrange.
  rewrite (add_unfold dt k Hvalid Hk). cbv zeta.
  apply valid_fields in Hvalid. destruct Hvalid as [Hdate Htime].
  pose proof (ymd2ord_bounds _ _ _ Hdate) as Hord.
  apply check_time_fields_ok in Htime.
  destruct Htime as [Hh [Hmi [Hs Hus]]].
  unfold local_seconds, seconds_of_day, end_of_time, MAXORDINAL, toordinal in *.
  set (ord := ymd2ord (year dt) (month dt) (day dt)) in *.
  set (secs := hour dt * 3600 + minute dt * 60 + second dt) in *.
  pose proof (Z.div_mod (secs + k) 86400 ltac:(discriminate)) as Ediv.
  pose proof (Z.mod_pos_bound (secs + k) 86400 ltac:(reflexivity)) as Bmod.
  set (q := (secs + k) / 86400) in *. set (s' := (secs + k) mod 86400) in *.
  assert (Hq : 0 <= q <= 1) by lia.
  assert (Hin : 1 <= ord + q <= 3652059) by lia.
  assert (Hchk3 : (0 <? ord + q) && (ord + q <=? 3652059) = true).
  { apply andb_true_intro.
    split; [apply Z.ltb_lt|apply Z.leb_le]; lia. }
  rewrite Hchk3.
  pose proof (ord2ymd_valid (ord + q) Hin) as Hymd.
  destruct (ord2ymd (ord + q)) as [[y m] d].
  destruct Hymd as [Hdate' Hord'].
  eexists. split; [reflexivity|].
  pose proof (Z.div_mod s' 3600 ltac:(discriminate)) as E1.
  pose proof (Z.mod_pos_bound s' 3600 ltac:(reflexivity)) as B1.
  pose proof (Z.div_mod (s' mod 3600) 60 ltac:(discriminate)) as E2.
  pose proof (Z.mod_pos_bound (s' mod 3600) 60 ltac:(reflexivity)) as B2.
  split; [|split].
  - apply valid_fields. cbn [year month day hour minute second microsecond].
    split; [exact Hdate'|]. apply check_time_fields_ok. lia.
  - cbn [year month day hour minute second]. rewrite Hord'. lia.
  - reflexivity.
Qed.

(** Past the end of 9999-12-31 the sum is not a [datetime]:
    [OverflowError]. *)
Lemma add_overflow (dt : datetime) (k : Z) :
  valid dt = true ->
  0 <= k < 86400 ->
  end_of_time <= local_seconds dt + k ->
  add dt (mk_timedelta 0 k 0) = Raise (OverflowError "date value out of range").
Proof.
  intros Hvalid Hk Hrange.
  rewrite (add_unfold dt k Hvalid Hk). cbv zeta.
  unfold local_seconds, seconds_of_day, end_of_time, MAXORDINAL, toordinal in *.
  set (ord := ymd2ord (year dt) (month dt) (day dt)) in *.
  set (secs := hour dt * 3600 + minute dt * 60 + second dt) in *.
  pose proof (Z.div_mod (secs + k) 86400 ltac:(discriminate)) as Ediv.
  pose proof (Z.mod_pos_bound (secs + k) 86400 ltac:(reflexivity)) as Bmod.
  set (q := (secs + k) / 86400) in *. set (s' := (secs + k) mod 86400) in *.
  assert (Hchk3 : (ord + q <=? 3652059) = false) by (apply Z.leb_gt; lia).
  rewrite Hchk3, andb_false_r. reflexivity.
Qed.

(** The sum, when there is one, is a valid [datetime]. *)
Lemma add_valid (dt dt' : datetime) (k : Z) :
  valid dt = true ->
  0 <= k < 86400 ->
  add dt (mk_timedelta 0 k 0) = Ok dt' ->
  valid dt' = true /\ local_seconds dt + k < end_of_time.
Proof.
  intros Hvalid Hk Hadd.
  destruct (Z_lt_le_dec (local_seconds dt + k) end_of_time) as [Hin|Hout].
  - destruct (add_seconds dt k Hvalid Hk Hin) as [dt'' [Hadd' [Hv _]]].
    rewrite Hadd in Hadd'. injection Hadd' as <-. auto.
  - rewrite (add_overflow dt k Hvalid Hk Hout) in Hadd. discriminate.
Qed.

(** Seconds since the epoch of a [datetime] without microseconds. *)
Lemma timestamp_int_seconds (dt : datetime) :
  microsecond dt = 0 ->
  timestamp_int dt = local_seconds dt - 719163 * 86400.
Proof.
  intros Hus. unfold timestamp_int, utc_microseconds, local_seconds, seconds_of_day.
  rewrite Hus, Z.add_0_r, Z.quot_mul by discriminate. lia.
Qed.

(** Months follow one another within a year. *)
Lemma month_order (y m1 d1 m2 : Z) :
  1 <= m1 -> m1 < m2 -> m2 <= 12 -> d1 <= days_in_month y m1 ->
  days_before_month y m1 + d1 <= days_before_month y m2.
Proof.
  intros H1 H12 H2 Hd. unfold days_before_month, days_in_month in *.
  assert (Htable : forall leap : bool,
             DAYS_BEFORE_MONTH m1 + (if (2 <? m1) && leap then 1 else 0)
             + (if (m1 =? 2) && leap then 29 else DAYS_IN_MONTH m1)
             <= DAYS_BEFORE_MONTH (m1 + 1)
                + (if (2 <? m1 + 1) && leap then 1 else 0)).
  { assert (Hcases : m1 = 1 \/ m1 = 2 \/ m1 = 3 \/ m1 = 4 \/ m1 = 5 \/ m1 = 6
                     \/ m1 = 7 \/ m1 = 8 \/ m1 = 9 \/ m1 = 10 \/ m1 = 11) by lia.
    intros leap.
    repeat (destruct Hcases as [Hcases|Hcases]; [subst m1|]); try subst m1;
      destruct leap; vm_compute; discriminate. }
  assert (Hmono : forall leap : bool,
             DAYS_BEFORE_MONTH (m1 + 1) + (if (2 <? m1 + 1) && leap then 1 else 0)
             <= DAYS_BEFORE_MONTH m2 + (if (2 <? m2) && leap then 1 else 0)).
  { assert (Hc1 : m1 = 1 \/ m1 = 2 \/ m1 = 3 \/ m1 = 4 \/ m1 = 5 \/ m1 = 6
                  \/ m1 = 7 \/ m1 = 8 \/ m1 = 9 \/ m1 = 10 \/ m1 = 11) by lia.
    assert (Hc2 : m2 = 2 \/ m2 = 3 \/ m2 = 4 \/ m2 = 5 \/ m2 = 6
                  \/ m2 = 7 \/ m2 = 8 \/ m2 = 9 \/ m2 = 10 \/ m2 = 11 \/ m2 = 12)
      by lia.
    intros leap.
    repeat (destruct Hc1 as [Hc1|Hc1]; [subst m1|]); try subst m1;
      repeat (destruct Hc2 as [Hc2|Hc2]; [subst m2|]); try subst m2;
      try lia; destruct leap; vm_compute; discriminate. }
  specialize (Htable (is_leap y)). specialize (Hmono (is_leap y)). lia.
Qed.

(** The ordinal orders the dates of the calendar as year, month and
    day do. *)
Lemma ymd2ord_compare (y1 m1 d1 y2 m2 d2 : Z) :
  check_date_fields y1 m1 d1 = Ok tt ->
  check_date_fields y2 m2 d2 = Ok tt ->
  (ymd2ord y1 m1 d1 ?= ymd2ord y2 m2 d2)
  = match y1 ?= y2 with
    | Eq => match m1 ?= m2 with
            | Eq => d1 ?= d2
            | c => c
            end
    | c => c
    end.
Proof.
  intros H1 H2.
  apply check_date_fields_ok in H1, H2.
  destruct H1 as [Hy1 [Hm1 Hd1]], H2 as [Hy2 [Hm2 Hd2]].
  pose proof (day_of_year_bounds y1 m1 d1 Hm1 Hd1) as Hday1.
  pose proof (day_of_year_bounds y2 m2 d2 Hm2 Hd2) as Hday2.
  pose proof (days_before_year_succ y1) as Hs1.
  pose proof (days_before_year_succ y2) as Hs2.
  unfold ymd2ord.
  destruct (Z.compare_spec y1 y2) as [Ey|Ly|Gy].
  - subst y2. destruct (Z.compare_spec m1 m2) as [Em|Lm|Gm].
    + subst m2. destruct (Z.compare_spec d1 d2) as [Ed|Ld|Gd].
      * subst. apply Z.compare_refl.
      * apply Z.compare_lt_iff. lia.
      * apply Z.compare_gt_iff. lia.
    + apply Z.compare_lt_iff.
      pose proof (month_order y1 m1 d1 m2 ltac:(lia) Lm ltac:(lia) ltac:(lia)).
      lia.
    + apply Z.compare_gt_iff.
      pose proof (month_order y1 m2 d2 m1 ltac:(lia) Gm ltac:(lia) ltac:(lia)).
      lia.
  - apply Z.compare_lt_iff.
    pose proof (days_before_year_mono (y1 + 1) (y2 - (y1 + 1)) ltac:(lia)) as Hm.
    replace (y1 + 1 + (y2 - (y1 + 1))) with y2 in Hm by lia.
    destruct (is_leap y1); lia.
  - apply Z.compare_gt_iff.
    pose proof (days_before_year_mono (y2 + 1) (y1 - (y2 + 1)) ltac:(lia)) as Hm.
    replace (y2 + 1 + (y1 - (y2 + 1))) with y1 in Hm by lia.
    destruct (is_leap y2); lia.
Qed.

(** Comparing two valid [datetime]s field by field is comparing the
    instants they name. *)
Lemma cmp_instants (a b : datetime) :
  valid a = true -> valid b = true ->
  cmp a b = (utc_microseconds a ?= utc_microseconds b).
Proof.
  intros Ha Hb.
  apply valid_fields in Ha, Hb.
  destruct Ha as [Hda Hta], Hb as [Hdb Htb].
  pose proof (ymd2ord_compare _ _ _ _ _ _ Hda Hdb) as Hord.
  apply check_time_fields_ok in Hta, Htb.
  unfold cmp, utc_microseconds, toordinal.
  set (oa := ymd2ord (year a) (month a) (day a)) in *.
  set (ob := ymd2ord (year b) (month b) (day b)) in *.
  assert (Hdate : match year a ?= year b with
                  | Eq => match month a ?= month b with
                          | Eq => day a ?= day b
                          | c => c
                          end
                  | c => c
                  end = (oa ?= ob)) by (symmetry; exact Hord).
  clear Hord.
  destruct (year a ?= year b); [destruct (month a ?= month b);
                                 [destruct (day a ?= day b)|..]|..];
    symmetry in Hdate;
    try (change (oa < ob) in Hdate; symmetry; apply Z.compare_lt_iff; lia);
    try (change (oa > ob) in Hdate; symmetry; apply Z.compare_gt_iff; lia).
  apply Z.compare_eq_iff in Hdate.
  destruct (Z.compare_spec (hour a) (hour b)) as [Eh|Lh|Gh];
    [|symmetry; apply Z.compare_lt_iff; lia|symmetry; apply Z.compare_gt_iff; lia].
  destruct (Z.compare_spec (minute a) (minute b)) as [Em|Lm|Gm];
    [|symmetry; apply Z.compare_lt_iff; lia|symmetry; apply Z.compare_gt_iff; lia].
  destruct (Z.compare_spec (second a) (second b)) as [Es|Ls|Gs];
    [|symmetry; apply Z.compare_lt_iff; lia|symmetry; apply Z.compare_gt_iff; lia].
  rewrite Hdate, Eh, Em, Es.
  destruct (Z.compare_spec (microsecond a) (microsecond b)) as [Eu|Lu|Gu].
  - rewrite Eu. symmetry. apply Z.compare_refl.
  - symmetry. apply Z.compare_lt_iff. lia.
  - symmetry. apply Z.compare_gt_iff. lia.
Qed.

(** [a >= b] on valid [datetime]s: [a] is not before [b]. *)
Lemma ge_instants (a b : datetime) :
  valid a = true -> valid b = true ->
  ge a b = true <-> utc_microseconds b <= utc_microseconds a.
Proof.
  intros Ha Hb. unfold ge. rewrite (cmp_instants a b Ha Hb).
  destruct (Z.compare_spec (utc_microseconds a) (utc_microseconds b));
    split; intros H'; try reflexivity; try discriminate; lia.
Qed.

End Calendar.

(** ** The Time Parser *)

Lemma strptime_valid (data_string format : string) (dt : DateTime.datetime) :
  Strptime.strptime data_string format = Ok dt ->
  DateTime.valid dt = true /\ DateTime.microsecond dt = 0.
Proof.
  unfold Strptime.strptime.
  destruct (Strptime.pattern false format) as [p|]; [|discriminate].
  destruct (Strptime.re_match p data_string []) as [[g rest]|]; [|discriminate].
  destruct rest; [|discriminate].
  intros H. apply new_valid in H. destruct H as [-> Hvalid].
  split; [exact Hvalid|reflexivity].
Qed.

Lemma five_hours_value : five_hours = Ok (DateTime.mk_timedelta 0 18000 0).
Proof. reflexivity. Qed.

(** The start of the window is the parsed time plus the offset, as
    long as the sum is a [datetime]. *)
Lemma start_plus_five_hours (dt : DateTime.datetime) :
  DateTime.valid dt = true ->
  DateTime.microsecond dt = 0 ->
  local_seconds dt + 5 * 3600 < end_of_time ->
  exists start_dt,
    (h <- five_hours ;; DateTime.add dt h) = Ok start_dt
    /\ DateTime.valid start_dt = true
    /\ DateTime.microsecond start_dt = 0
    /\ local_seconds start_dt = local_seconds dt + 5 * 3600
    /\ to_epoch start_dt = to_epoch dt + 5 * 3600.
Proof.
  intros Hvalid Hus Hrange.
  destruct (add_seconds dt 18000 Hvalid ltac:(lia) ltac:(lia))
    as [start_dt [Hadd [Hvalid' [Hsecs Hus']]]].
  exists start_dt. rewrite five_hours_value. cbn [bind].
  split; [exact Hadd|]. split; [exact Hvalid'|].
  split; [congruence|]. split; [lia|].
  unfold to_epoch. rewrite !timestamp_int_seconds by congruence. lia.
Qed.

(** C5, as the claim states it, fails: 9999-12-31 20:00:00 is a valid
    pair, and adding the offset to it raises [OverflowError], which
    [main] does not catch; no start instant is computed. *)
Lemma C5_counterexample :
  parse_cli_time "9999-12-31" "20:00:00"
  = Ok (DateTime.mk_datetime 9999 12 31 20 0 0 0)
  /\ time_window sample_now (mk_args "9999-12-31" "20:00:00" None None None)
     = Raise (OverflowError "date value out of range")
  /\ snd (run_scripted failing_service true 5
                       (mk_args "9999-12-31" "20:00:00" None None None))
     = Exc (OverflowError "date value out of range").
Proof. repeat split; vm_compute; reflexivity. Qed.

(** C5, amended: for every pair of strings that parses to a local
    time up to 9999-12-31 18:59:59, the last one to which five hours
    can be added, the start instant the program computes is the parsed
    time plus exactly five hours: the sum is a valid [datetime], and
    its epoch seconds are those of the parsed time plus 18000.  The
    start of every window that [main] computes is that instant. *)
Theorem C5_start_instant (date_str time_str : string) (dt : DateTime.datetime) :
  parse_cli_time date_str time_str = Ok dt ->
  local_seconds dt + 5 * 3600 < end_of_time ->
  exists start_dt,
    (h <- five_hours ;; DateTime.add dt h) = Ok start_dt
    /\ DateTime.valid start_dt = true
    /\ local_seconds start_dt = local_seconds dt + 5 * 3600
    /\ to_epoch start_dt = to_epoch dt + 5 * 3600
    /\ forall now a s end_dt,
        fecha_ini a = date_str -> hora_ini a = time_str ->
        time_window now a = Ok (s, end_dt) -> s = start_dt.
Proof.
  intros Hparse Hrange.
  destruct (strptime_valid _ _ _ Hparse) as [Hvalid Hus].
  destruct (start_plus_five_hours dt Hvalid Hus Hrange)
    as [start_dt [Hadd [Hvalid' [_ [Hsecs Hepoch]]]]].
  exists start_dt. repeat split; try assumption.
  intros now a s end_dt Hd Ht Hwin. unfold time_window in Hwin.
  rewrite Hd, Ht, Hparse in Hwin. cbn [bind] in Hwin.
  rewrite five_hours_value in *. cbn [bind] in Hwin, Hadd.
  rewrite Hadd in Hwin. cbn [bind] in Hwin.
  destruct (if truthy (fecha_fin a) && truthy (hora_fin a) then _ else _)
    as [e|]; cbn [bind] in Hwin; [|discriminate].
  now injection Hwin as <- _.
Qed.

(** The example of the claim: 2025-05-08 07:14:00 gives the instant
    2025-05-08T12:14:00Z, second 1746706440 of the epoch. *)
Lemma start_instant_example :
  exists dt start_dt,
    parse_cli_time "2025-05-08" "07:14:00" = Ok dt
    /\ (h <- five_hours ;; DateTime.add dt h) = Ok start_dt
    /\ start_dt = DateTime.mk_datetime 2025 5 8 12 14 0 0
    /\ DateTime.to_str start_dt = "2025-05-08 12:14:00"%string
    /\ to_epoch start_dt = 1746706440.
Proof.
  exists (DateTime.mk_datetime 2025 5 8 7 14 0 0),
         (DateTime.mk_datetime 2025 5 8 12 14 0 0).
  repeat split; vm_compute; reflexivity.
Qed.

Lemma C5_start_instant_witness :
  parse_cli_time "2025-05-08" "07:14:00"
  = Ok (DateTime.mk_datetime 2025 5 8 7 14 0 0)
  /\ local_seconds (DateTime.mk_datetime 2025 5 8 7 14 0 0) + 5 * 3600
     < end_of_time
  /\ exists start_dt,
      (h <- five_hours ;; DateTime.add (DateTime.mk_datetime 2025 5 8 7 14 0 0) h)
      = Ok start_dt
      /\ to_epoch start_dt
         = to_epoch (DateTime.mk_datetime 2025 5 8 7 14 0 0) + 5 * 3600.
Proof.
  split; [reflexivity|]. split; [reflexivity|].
  destruct (C5_start_instant "2025-05-08" "07:14:00"
                             (DateTime.mk_datetime 2025 5 8 7 14 0 0)
                             eq_refl eq_refl)
    as [start_dt [Hadd [_ [_ [Hepoch _]]]]].
  exists start_dt. split; [exact Hadd|exact Hepoch].
Defined.

(** ** The time window *)

(** Both ends of a window are valid [datetime]s. *)
Lemma time_window_valid (now : DateTime.datetime) (a : args)
      (start_dt end_dt : DateTime.datetime) :
  DateTime.valid now = true ->
  time_window now a = Ok (start_dt, end_dt) ->
  DateTime.valid start_dt = true /\ DateTime.valid end_dt = true.
Proof.
  intros Hnow Hwin. unfold time_window in Hwin.
  rewrite five_hours_value in Hwin.
  destruct (parse_cli_time (fecha_ini a) (hora_ini a)) as [dt|] eqn:Hparse;
    cbn [bind] in Hwin; [|discriminate].
  destruct (DateTime.add dt (DateTime.mk_timedelta 0 18000 0)) as [s|] eqn:Hadd;
    cbn [bind] in Hwin; [|discriminate].
  destruct (strptime_valid _ _ _ Hparse) as [Hdt _].
  destruct (add_valid dt s 18000 Hdt ltac:(lia) Hadd) as [Hs _].
  assert (Hend : forall e,
             (if truthy (fecha_fin a) && truthy (hora_fin a)
              then match fecha_fin a, hora_fin a with
                   | Some d, Some t =>
                     dt' <- parse_cli_time d t ;;
                     h' <- Ok (DateTime.mk_timedelta 0 18000 0) ;;
                     DateTime.add dt' h'
                   | _, _ => Ok now
                   end
              else Ok now) = Ok e ->
             DateTime.valid e = true).
  { intros e He.
    destruct (truthy (fecha_fin a) && truthy (hora_fin a));
      [|injection He as <-; exact Hnow].
    destruct (fecha_fin a) as [d|]; [|injection He as <-; exact Hnow].
    destruct (hora_fin a) as [t|]; [|injection He as <-; exact Hnow].
    destruct (parse_cli_time d t) as [dt'|] eqn:Hparse'; cbn [bind] in He;
      [|discriminate].
    destruct (strptime_valid _ _ _ Hparse') as [Hdt' _].
    exact (proj1 (add_valid dt' e 18000 Hdt' ltac:(lia) He)). }
  destruct (if truthy (fecha_fin a) && truthy (hora_fin a) then _ else _)
    as [e|] eqn:He; cbn [bind] in Hwin; [|discriminate].
  injection Hwin as <- <-. split; [exact Hs|exact (Hend e eq_refl)].
Qed.

(** C6: when the start instant of the window, offset applied, is at or
    after its end instant, the two compared to the microsecond as the
    code compares them, [main] exits with status 1, which is not
    zero; it has made no call to the service and written no file. *)
Theorem C6_start_not_before_end
        {Svc : Type}
        (svc_start_query : Svc -> string -> Z -> Z -> string -> Svc * result string)
        (svc_get_query_results : Svc -> string -> Svc * result response)
        (tabulate_installed : bool) (now : DateTime.datetime)
        (resolve : string -> string) (writable : string -> bool)
        (fuel : nat) (a : args) (w : world Svc)
        (start_dt end_dt : DateTime.datetime) :
  DateTime.valid now = true ->
  time_window now a = Ok (start_dt, end_dt) ->
  DateTime.utc_microseconds end_dt <= DateTime.utc_microseconds start_dt ->
  let r := main Svc svc_start_query svc_get_query_results tabulate_installed
                now resolve writable fuel a w in
  snd r = Exit 1
  /\ exit_status (snd r) = Some 1
  /\ api_log (fst r) = api_log w
  /\ files (fst r) = files w
  /\ stdout (fst r)
     = stdout w ++ ["La fecha de inicio debe ser anterior a la final."%string].
Proof.
  intros Hnow Hwin Hle r.
  destruct (time_window_valid now a start_dt end_dt Hnow Hwin) as [Hs He].
  assert (Hge : DateTime.ge start_dt end_dt = true)
    by (apply ge_instants; assumption).
  unfold r.
  rewrite (main_start_not_before_end svc_start_query svc_get_query_results
             tabulate_installed now resolve writable fuel a w
             start_dt end_dt Hwin Hge).
  repeat split; reflexivity.
Qed.

Lemma C6_start_not_before_end_witness :
  let a := mk_args "2025-05-08" "07:14:00" (Some "2025-05-08") (Some "07:14:00")
                   (Some "r.json") in
  DateTime.valid sample_now = true
  /\ time_window sample_now a
     = Ok (DateTime.mk_datetime 2025 5 8 12 14 0 0,
           DateTime.mk_datetime 2025 5 8 12 14 0 0)
  /\ exit_status (snd (run_scripted failing_service true 5 a)) = Some 1
  /\ api_log (fst (run_scripted failing_service true 5 a)) = []
  /\ files (fst (run_scripted failing_service true 5 a)) = [].
Proof.
  intros a.
  assert (Hwin : time_window sample_now a
                 = Ok (DateTime.mk_datetime 2025 5 8 12 14 0 0,
                       DateTime.mk_datetime 2025 5 8 12 14 0 0))
    by (vm_compute; reflexivity).
  split; [reflexivity|]. split; [exact Hwin|].
  destruct (C6_start_not_before_end
              Scripted.start_query Scripted.get_query_results true
              sample_now sample_resolve (fun _ => true) 5 a
              (Scripted.init failing_service) _ _ eq_refl Hwin
              ltac:(vm_compute; discriminate))
    as [_ [Hexit [Hlog [Hfiles _]]]].
  split; [exact Hexit|]. split; [exact Hlog|exact Hfiles].
Defined.

(** A start that falls in the second of the current time: the command
    line gives the start to the second and no end, and the clock
    stands one microsecond after that second.  In epoch seconds the
    start is the end, yet the program does not exit: it submits its
    three queries, each over the range from that second to itself,
    and writes the file. *)
Lemma C6_counterexample :
  let now := DateTime.mk_datetime 2025 5 8 12 14 0 1 in
  let start_dt := DateTime.mk_datetime 2025 5 8 12 14 0 0 in
  let a := sample_args (Some "r.json") in
  let r := main Scripted.state Scripted.start_query Scripted.get_query_results
                true now sample_resolve (fun _ => true) 5 a
                (Scripted.init completing_service) in
  DateTime.valid now = true
  /\ time_window now a = Ok (start_dt, now)
  /\ to_epoch start_dt = 1746706440
  /\ to_epoch now = 1746706440
  /\ DateTime.ge start_dt now = false
  /\ snd r = Ret tt
  /\ submissions (api_log (fst r))
     = map (fun lg => submit lg 1746706440 1746706440) LOG_GROUPS
  /\ exists text, Dict.get (files (fst r)) "/cwd/r.json" = Some text.
Proof.
  vm_compute. repeat split; try reflexivity.
  eexists. reflexivity.
Qed.

(** ** The time format *)

Lemma count_char_app (c : ascii) (a b : string) :
  count_char c (a ++ b) = (count_char c a + count_char c b)%nat.
Proof. induction a as [|x a IH]; simpl; [reflexivity|rewrite IH; lia]. Qed.

Lemma match_classes_split cls s m r :
  Strptime.match_classes cls s = Some (m, r) -> s = (m ++ r)%string.
Proof.
  revert s m r. induction cls as [|p cls IH]; intros s m r H; simpl in H.
  - injection H as <- <-. reflexivity.
  - destruct s as [|c s]; [discriminate|].
    destruct (p c); [|discriminate].
    destruct (Strptime.match_classes cls s) as [[m' r']|] eqn:E; [|discriminate].
    injection H as <- <-. simpl. f_equal. apply IH, E.
Qed.

Lemma first_alt_split {A : Type} alts s (k : string -> string -> option A) x :
  Strptime.first_alt alts s k = Some x ->
  exists m r, s = (m ++ r)%string /\ k m r = Some x.
Proof.
  induction alts as [|a alts IH]; intros H; simpl in H; [discriminate|].
  destruct (Strptime.match_classes a s) as [[m r]|] eqn:E; [|auto].
  destruct (k m r) eqn:Ek; [|auto].
  injection H as <-. exists m, r. split; [apply (match_classes_split _ _ _ _ E)|exact Ek].
Qed.

Lemma spaces_then_split {A : Type} s (k : string -> option A) x :
  Strptime.spaces_then s k = Some x ->
  exists sp r, s = (sp ++ r)%string /\ k r = Some x.
Proof.
  induction s as [|c s IH]; intros H; simpl in H; [discriminate|].
  destruct (PyStr.is_space c); [|discriminate].
  destruct (Strptime.spaces_then s k) eqn:E.
  - injection H as <-. destruct (IH eq_refl) as [sp [r [Hs Hk]]].
    exists (String c sp), r. split; [simpl; now rewrite Hs|exact Hk].
  - exists (String c EmptyString), s. split; [reflexivity|exact H].
Qed.

(** A match consumes at least as many occurrences of a character as
    the format has literals of it. *)
Lemma re_match_literals (c : ascii) p s g g' rest :
  Strptime.re_match p s g = Some (g', rest) ->
  exists consumed,
    s = (consumed ++ rest)%string
    /\ (count_lit c p <= count_char c consumed)%nat.
Proof.
  revert s g. induction p as [|i p IH]; intros s g H; simpl in H.
  - injection H as <- <-. exists EmptyString. split; [reflexivity|simpl; lia].
  - destruct i as [x| |d alts].
    + destruct s as [|y s]; [discriminate|].
      destruct (Ascii.eqb x y) eqn:E; [|discriminate].
      apply Ascii.eqb_eq in E. subst y.
      destruct (IH _ _ H) as [consumed [Hs Hc]].
      exists (String x consumed). split; [simpl; now rewrite Hs|].
      simpl. lia.
    + apply spaces_then_split in H. destruct H as [sp [r [Hs Hk]]].
      destruct (IH _ _ Hk) as [consumed [Hr Hc]].
      exists (sp ++ consumed)%string. split.
      * rewrite Hs, Hr, str_app_assoc. reflexivity.
      * rewrite count_char_app. simpl. lia.
    + apply first_alt_split in H. destruct H as [m [r [Hs Hk]]].
      destruct (IH _ _ Hk) as [consumed [Hr Hc]].
      exists (m ++ consumed)%string. split.
      * rewrite Hs, Hr, str_app_assoc. reflexivity.
      * rewrite count_char_app. simpl. lia.
Qed.

(** The format of [parse_cli_time] asks for two colons: a date and a
    time that hold fewer between them are refused with [ValueError],
    whatever else they hold.  A time in the form [HH:MM], with a date
    that has no colon, is such a pair. *)
Lemma missing_seconds_rejected (date_str time_str : string) :
  (count_char ":" (date_str ++ " " ++ time_str) < 2)%nat ->
  exists msg, parse_cli_time date_str time_str = Raise (ValueError msg).
Proof.
  intros Hcount. unfold parse_cli_time, Strptime.strptime.
  assert (Hfmt : exists p,
             Strptime.pattern false "%Y-%m-%d %H:%M:%S" = Some p
             /\ count_lit ":" p = 2%nat).
  { eexists. split; [reflexivity|]. vm_compute. reflexivity. }
  destruct Hfmt as [p [Hp Hlit]]. rewrite Hp.
  destruct (Strptime.re_match p (date_str ++ " " ++ time_str) [])
    as [[g rest]|] eqn:Hm; [|eauto].
  destruct rest as [|x rest]; [|eauto].
  exfalso.
  destruct (re_match_literals ":" _ _ _ _ _ Hm) as [consumed [Hs Hc]].
  rewrite str_app_nil_r in Hs. rewrite <- Hs in Hc. lia.
Qed.

(** C2: the time [07:14], in the form [HH:MM] that the usage text of
    the module and its error message give, is refused: the format
    string asks for seconds.  [main] reports a format error and exits
    with status 1 without a query. *)
Theorem C2_hour_minute_rejected :
  parse_cli_time "2025-05-08" "07:14"
  = Raise (ValueError "time data does not match format")
  /\ let r := run_scripted failing_service true 5
                           (mk_args "2025-05-08" "07:14" None None
                                    (Some "a.json")) in
     snd r = Exit 1
     /\ stdout (fst r)
        = ["Error en el formato de fecha/hora. Usa YYYY-MM-DD HH:MM"%string]
     /\ api_log (fst r) = []
     /\ files (fst r) = [].
Proof. vm_compute. repeat split; reflexivity. Qed.

(** With the seconds written out the same date and time are accepted. *)
Lemma hour_minute_second_accepted :
  parse_cli_time "2025-05-08" "07:14:00"
  = Ok (DateTime.mk_datetime 2025 5 8 7 14 0 0).
Proof. vm_compute. reflexivity. Qed.

(** ** The aggregated result set of a run

    The hypotheses of the Persister's theorems hold of the mapping
    [main] builds: every address in it names an object of the heap, no
    log group occurs twice and no row holds a field twice. *)

Lemma flatten_row_wf (r : raw_row) (acc d : row) :
  Dict.wf acc -> flatten_row r acc = Ok d -> Dict.wf d.
Proof.
  revert acc. induction r as [|c r IH]; intros acc Hacc H; simpl in H.
  - now injection H as <-.
  - destruct (Dict.getitem c "field") as [k|]; cbn [bind] in H; [|discriminate].
    destruct (Dict.getitem c "value") as [v|]; cbn [bind] in H; [|discriminate].
    apply (IH (Dict.set acc k v)); [apply dict_set_wf, Hacc|exact H].
Qed.

Lemma flatten_wf (results : list raw_row) (ds : list row) :
  flatten results = Ok ds -> Forall (fun d => Dict.wf d) ds.
Proof.
  revert ds. induction results as [|r results IH]; intros ds H; simpl in H.
  - injection H as <-. constructor.
  - destruct (flatten_row r Dict.empty) as [d|] eqn:Hd; cbn [bind] in H;
      [|discriminate].
    destruct (flatten results) as [ds'|]; cbn [bind] in H; [|discriminate].
    injection H as <-. constructor; [|apply IH; reflexivity].
    apply (flatten_row_wf r Dict.empty d); [constructor|exact Hd].
Qed.

Lemma data_ok_grow (h t : heap_t) (data : Dict.t (list addr)) :
  data_ok h data -> data_ok (h ++ t) data.
Proof.
  unfold data_ok. intros H. eapply Forall_impl; [|exact H].
  intros kv Hkv. eapply Forall_impl; [|exact Hkv].
  intros a Ha. cbv beta in Ha. rewrite length_app.
  apply Nat.lt_lt_add_r. exact Ha.
Qed.

Lemma data_ok_set (h : heap_t) (data : Dict.t (list addr)) lg rows :
  data_ok h data ->
  Forall (fun a => (a < length h)%nat) rows ->
  data_ok h (Dict.set data lg rows).
Proof.
  unfold data_ok. intros Hdata Hrows.
  induction data as [|[k v] data IH]; simpl.
  - constructor; [exact Hrows|constructor].
  - inversion Hdata; subst.
    destruct (String.eqb lg k); constructor; auto.
Qed.

Lemma rows_wf_grow (h t : heap_t) (data : Dict.t (list addr)) :
  data_ok h data ->
  Forall (fun kv => Forall (fun a => Dict.wf (nth a h Dict.empty)) (snd kv)) data ->
  Forall (fun kv => Forall (fun a => Dict.wf (nth a (h ++ t) Dict.empty)) (snd kv))
         data.
Proof.
  intros Hok Hwf. induction data as [|kv data IH]; [constructor|].
  inversion Hok as [|? ? Hok1 Hok2]; inversion Hwf as [|? ? Hwf1 Hwf2]; subst.
  constructor; [|apply IH; assumption].
  apply Forall_forall. intros a Ha.
  rewrite Forall_forall in Hok1, Hwf1.
  rewrite app_nth1 by (apply Hok1, Ha). apply Hwf1, Ha.
Qed.

Lemma rows_wf_set (h : heap_t) (data : Dict.t (list addr)) lg rows :
  Forall (fun kv => Forall (fun a => Dict.wf (nth a h Dict.empty)) (snd kv)) data ->
  Forall (fun a => Dict.wf (nth a h Dict.empty)) rows ->
  Forall (fun kv => Forall (fun a => Dict.wf (nth a h Dict.empty)) (snd kv))
         (Dict.set data lg rows).
Proof.
  intros Hdata Hrows. induction data as [|[k v] data IH]; simpl.
  - constructor; [exact Hrows|constructor].
  - inversion Hdata; subst.
    destruct (String.eqb lg k); constructor; auto.
Qed.

Section RunInvariant.

Context {Svc : Type}.
Variable svc_start_query :
  Svc -> string -> Z -> Z -> string -> Svc * result string.
Variable svc_get_query_results : Svc -> string -> Svc * result response.
Variable tabulate_installed : bool.

Local Abbreviation wait := (wait_results Svc svc_get_query_results).
Local Abbreviation group :=
  (query_group Svc svc_start_query svc_get_query_results tabulate_installed).
Local Abbreviation groups :=
  (query_groups Svc svc_start_query svc_get_query_results tabulate_installed).

(** The poller leaves the heap alone. *)
Lemma wait_results_heap fuel qid interval (w : world Svc) :
  heap (fst (wait fuel qid interval w)) = heap w.
Proof.
  revert w. induction fuel as [|fuel IH]; intros w; [reflexivity|].
  simpl. unfold mbind at 1, get_query_results.
  destruct (svc_get_query_results (svc w) qid) as [s' [resp|e]]; [|reflexivity].
  cbn [lift ret].
  destruct (String.eqb (status resp) "Complete"); [reflexivity|].
  destruct (terminal_failure (status resp)); [reflexivity|].
  unfold mbind, sleep. cbn [heap stdout files api_log sleeps svc].
  rewrite IH. reflexivity.
Qed.

(** Allocating rows appends them and returns their addresses. *)
Lemma alloc_rows_spec (rows : list row) (w : world Svc) :
  alloc_rows Svc rows w =
  (mk_world (heap w ++ rows) (stdout w) (files w) (api_log w) (sleeps w) (svc w),
   Ret (seq (length (heap w)) (length rows))).
Proof.
  revert w. induction rows as [|r rows IH]; intros [h so fs al sl sv]; simpl.
  - unfold ret. now rewrite app_nil_r.
  - unfold mbind, alloc. cbn [heap stdout files api_log sleeps svc].
    rewrite IH. cbn [heap stdout files api_log sleeps svc ret].
    rewrite <- app_assoc, length_app, Nat.add_1_r. reflexivity.
Qed.

(** One turn of the loop keeps the objects of the heap and leaves a
    mapping that is well formed on the heap it leaves. *)
Lemma query_group_invariant fuel lg start_ts end_ts data (w : world Svc) w' data' :
  data_ok (heap w) data -> data_wf (heap w) data ->
  group fuel lg start_ts end_ts data w = (w', Ret data') ->
  (exists new, heap w' = heap w ++ new)
  /\ data_ok (heap w') data' /\ data_wf (heap w') data'.
Proof.
  intros Hok [Hkeys Hrows] Hrun.
  unfold query_group, mbind at 1, print at 1 in Hrun.
  unfold mbind at 1 in Hrun.
  unfold try_except_ClientError, mbind at 1, start_query in Hrun.
  cbn [heap stdout files api_log sleeps svc] in Hrun.
  destruct (svc_start_query (svc w) lg start_ts end_ts (PyStr.strip QUERY_STRING))
    as [s1 [qid|e]].
  - cbn [lift ret raise] in Hrun.
    unfold mbind at 1 in Hrun.
    pose proof (wait_results_heap fuel qid 1
                  (mk_world (heap w) (stdout w ++ [("===> Log group: " ++ lg)%string])
                            (files w)
                            (api_log w ++ [StartQuery lg start_ts end_ts
                                                      (PyStr.strip QUERY_STRING)])
                            (sleeps w) s1)) as Hheap.
    destruct (wait fuel qid 1 _) as [w1 [raw|e|c|]]; cbn [fst heap] in Hheap.
    + unfold mbind at 1 in Hrun.
      destruct (flatten raw) as [flat|e] eqn:Hflat; cbn [lift ret raise] in Hrun.
      * unfold mbind at 1 in Hrun. rewrite alloc_rows_spec in Hrun.
        unfold mbind at 1 in Hrun.
        assert (Hpp : forall rows (w0 : world Svc),
                   heap (fst (pretty_print Svc tabulate_installed rows w0)) = heap w0
                   /\ exists u, snd (pretty_print Svc tabulate_installed rows w0)
                                = Ret u).
        { intros rows w0. unfold pretty_print.
          destruct rows; [split; [reflexivity|eexists; reflexivity]|].
          destruct tabulate_installed; split; try reflexivity;
            eexists; reflexivity. }
        destruct (Hpp (seq (length (heap w1)) (length flat))
                      (mk_world (heap w1 ++ flat) (stdout w1) (files w1)
                                (api_log w1) (sleeps w1) (svc w1)))
          as [Hh [u Hu]].
        destruct (pretty_print Svc tabulate_installed _ _) as [w2 o2].
        cbn [fst snd heap] in Hh, Hu. subst o2.
        unfold ret at 1, mbind, print in Hrun.
        injection Hrun as <- <-. cbn [heap].
        rewrite Hh, Hheap.
        assert (Hnew : Forall (fun a => (a < length (heap w ++ flat))%nat)
                              (seq (length (heap w)) (length flat))).
        { apply Forall_forall. intros a Ha. apply in_seq in Ha.
          rewrite length_app. lia. }
        split; [exists flat; reflexivity|]. split.
        -- apply data_ok_set; [apply data_ok_grow, Hok|exact Hnew].
        -- split.
           ++ apply dict_set_wf, Hkeys.
           ++ apply rows_wf_set; [apply rows_wf_grow; assumption|].
              pose proof (flatten_wf raw flat Hflat) as Hflatwf.
              clear - Hflatwf. revert Hflatwf.
              generalize (heap w). intros h Hwf.
              induction Hwf as [|d ds Hd _ IH] in h |- *; [constructor|].
              cbn [length seq]. constructor.
              ** rewrite app_nth2, Nat.sub_diag by lia. exact Hd.
              ** specialize (IH (h ++ [d])).
                 rewrite <- app_assoc, length_app, Nat.add_1_r in IH. exact IH.
      * destruct e; try discriminate.
        unfold mbind, print, ret in Hrun. injection Hrun as <- <-.
        cbn [heap]. rewrite Hheap.
        split; [exists []; now rewrite app_nil_r|]. split; [exact Hok|].
        split; assumption.
    + destruct e; try discriminate.
      unfold mbind, print, ret in Hrun. injection Hrun as <- <-.
      cbn [heap]. rewrite Hheap.
      split; [exists []; now rewrite app_nil_r|]. split; [exact Hok|].
      split; assumption.
    + discriminate.
    + discriminate.
  - cbn [lift ret raise] in Hrun. destruct e; try discriminate.
    unfold mbind, print, ret in Hrun. injection Hrun as <- <-.
    cbn [heap].
    split; [exists []; now rewrite app_nil_r|]. split; [exact Hok|].
    split; assumption.
Qed.

(** The mapping built by the loop over the log groups is well formed
    on the heap the loop leaves. *)
Lemma query_groups_invariant fuel lgs start_ts end_ts data (w : world Svc) w' data' :
  data_ok (heap w) data -> data_wf (heap w) data ->
  groups fuel lgs start_ts end_ts data w = (w', Ret data') ->
  data_ok (heap w') data' /\ data_wf (heap w') data'.
Proof.
  revert data w. induction lgs as [|lg lgs IH]; intros data w Hok Hwf Hrun.
  - simpl in Hrun. injection Hrun as <- <-. auto.
  - simpl in Hrun. unfold mbind in Hrun.
    destruct (group fuel lg start_ts end_ts data w) as [w1 [d1|e|c|]] eqn:Hg;
      try discriminate.
    destruct (query_group_invariant _ _ _ _ _ _ _ _ Hok Hwf Hg) as [_ [Hok1 Hwf1]].
    exact (IH d1 w1 Hok1 Hwf1 Hrun).
Qed.

End RunInvariant.

(** * Further properties of the code *)

(** ** The Result Poller, for any number of fetches *)

Section PollerRuns.

Context {Svc : Type}.
Variable svc_get_query_results : Svc -> string -> Svc * result response.

Local Abbreviation wait := (wait_results Svc svc_get_query_results).

(** Replies that keep the poller waiting cost one fetch and one sleep
    each, and nothing else. *)
Lemma wait_results_polls qid interval (resps : list response) :
  forall (w : world Svc) s' fuel,
    polls svc_get_query_results qid (svc w) resps s' ->
    forallb keeps_waiting resps = true ->
    wait (length resps + fuel) qid interval w
    = wait fuel qid interval (after_polls w qid interval (length resps) s').
Proof.
  induction resps as [|r resps IH]; intros w s' fuel Hpolls Hwait.
  - inversion Hpolls; subst. unfold after_polls. cbn [length repeat plus].
    rewrite !app_nil_r. destruct w; reflexivity.
  - inversion Hpolls as [|? s1 ? ? ? Hget Hrest]; subst.
    cbn [forallb] in Hwait. apply andb_prop in Hwait. destruct Hwait as [Hr Hrs].
    unfold keeps_waiting in Hr. apply andb_prop in Hr. destruct Hr as [Hc Ht].
    apply negb_true_iff in Hc, Ht.
    cbn [length plus].
    rewrite (wait_results_running svc_get_query_results _ _ _ _ s1 r Hget Hc Ht).
    rewrite (IH (mk_world (heap w) (stdout w) (files w)
                          (api_log w ++ [GetQueryResults qid])
                          (sleeps w ++ [interval]) s1)
                s' fuel Hrest Hrs).
    unfold after_polls. cbn [heap stdout files api_log sleeps svc repeat].
    rewrite <- !app_assoc. reflexivity.
Qed.

(** X1: after any number [n] of replies that keep it waiting, whatever
    their status text, the poller returns the rows of the first
    [Complete] reply, having fetched [n + 1] times and slept exactly
    [n] times; when the next reply is instead [Cancelled], [Failed] or
    [Timeout] it raises the [RuntimeError] that names the query and
    that state, after the same [n] sleeps. *)
Theorem X1_poller_after_n_polls qid interval (resps : list response)
        (w : world Svc) s1 s2 fuel :
  polls svc_get_query_results qid (svc w) resps s1 ->
  forallb keeps_waiting resps = true ->
  (length resps < fuel)%nat ->
  (forall rows,
      svc_get_query_results s1 qid = (s2, Ok (mk_response "Complete" rows)) ->
      wait fuel qid interval w
      = (after_polls
           (mk_world (heap w) (stdout w) (files w)
                     (api_log w ++ [GetQueryResults qid]) (sleeps w) (svc w))
           qid interval (length resps) s2,
         Ret rows))
  /\ (forall resp,
         svc_get_query_results s1 qid = (s2, Ok resp) ->
         terminal_failure (status resp) = true ->
         wait fuel qid interval w
         = (after_polls
              (mk_world (heap w) (stdout w) (files w)
                        (api_log w ++ [GetQueryResults qid]) (sleeps w) (svc w))
              qid interval (length resps) s2,
            Exc (RuntimeError ("Consulta " ++ qid ++ " terminó con estado "
                                           ++ status resp)))).
Proof.
  intros Hpolls Hwait Hfuel.
  assert (Hsplit : fuel = (length resps + S (fuel - S (length resps)))%nat) by lia.
  assert (Hlog : forall n,
             (api_log w ++ repeat (GetQueryResults qid) n) ++ [GetQueryResults qid]
             = (api_log w ++ [GetQueryResults qid]) ++ repeat (GetQueryResults qid) n).
  { intros n. rewrite <- !app_assoc. f_equal.
    induction n as [|n IHn]; [reflexivity|]. cbn [repeat app]. now rewrite IHn. }
  split.
  - intros rows Hget. rewrite Hsplit.
    rewrite (wait_results_polls qid interval resps w s1 _ Hpolls Hwait).
    rewrite (wait_results_complete svc_get_query_results _ _ _ _ s2 rows)
      by exact Hget.
    unfold after_polls. cbn [heap stdout files api_log sleeps svc].
    rewrite Hlog. reflexivity.
  - intros resp Hget Hterm. rewrite Hsplit.
    rewrite (wait_results_polls qid interval resps w s1 _ Hpolls Hwait).
    rewrite (wait_results_terminated svc_get_query_results _ _ _ _ s2 resp)
      by assumption.
    unfold after_polls. cbn [heap stdout files api_log sleeps svc].
    rewrite Hlog. reflexivity.
Qed.

(** X2: the poller has no bound of its own.  Against a service that
    always answers with a status that keeps it waiting, it never
    returns: whatever number of fetches it is allowed, it makes them
    all, sleeps after each, and is still waiting. *)
Theorem X2_poller_never_gives_up qid interval :
  (forall s, exists s' r,
        svc_get_query_results s qid = (s', Ok r) /\ keeps_waiting r = true) ->
  forall fuel (w : world Svc),
    snd (wait fuel qid interval w) = Diverge
    /\ sleeps (fst (wait fuel qid interval w)) = sleeps w ++ repeat interval fuel
    /\ api_log (fst (wait fuel qid interval w))
       = api_log w ++ repeat (GetQueryResults qid) fuel.
Proof.
  intros Hsvc fuel. induction fuel as [|fuel IH]; intros w.
  - cbn [wait_results fst snd repeat]. rewrite !app_nil_r. auto.
  - destruct (Hsvc (svc w)) as [s' [r [Hget Hr]]].
    unfold keeps_waiting in Hr. apply andb_prop in Hr. destruct Hr as [Hc Ht].
    apply negb_true_iff in Hc, Ht.
    rewrite (wait_results_running svc_get_query_results _ _ _ _ s' r Hget Hc Ht).
    destruct (IH (mk_world (heap w) (stdout w) (files w)
                           (api_log w ++ [GetQueryResults qid])
                           (sleeps w ++ [interval]) s'))
      as [Hout [Hsl Hlog]].
    cbn [sleeps api_log] in Hsl, Hlog.
    rewrite Hout, Hsl, Hlog. cbn [repeat]. rewrite <- !app_assoc. auto.
Qed.

(** One turn of the poller's loop. *)
Lemma wait_results_step fuel qid interval (w : world Svc) :
  wait (S fuel) qid interval w
  = let fetched := mk_world (heap w) (stdout w) (files w)
                            (api_log w ++ [GetQueryResults qid]) (sleeps w) in
    match svc_get_query_results (svc w) qid with
    | (s', Raise e) => (fetched s', Exc e)
    | (s', Ok resp) =>
      if String.eqb (status resp) "Complete" then (fetched s', Ret (results resp))
      else if terminal_failure (status resp) then
        (fetched s',
         Exc (RuntimeError ("Consulta " ++ qid ++ " terminó con estado "
                                        ++ status resp)))
      else wait fuel qid interval
                (mk_world (heap w) (stdout w) (files w)
                          (api_log w ++ [GetQueryResults qid])
                          (sleeps w ++ [interval]) s')
    end.
Proof.
  cbn [wait_results]. unfold mbind at 1, get_query_results.
  destruct (svc_get_query_results (svc w) qid) as [s' [resp|e]]; [|reflexivity].
  cbn [lift ret].
  destruct (String.eqb (status resp) "Complete"); [reflexivity|].
  destruct (terminal_failure (status resp)); reflexivity.
Qed.

(** X3: the poller touches nothing but the service: in every run, for
    any service and any outcome, the heap, the console and the files
    are as they were, the only calls it adds are fetches of its own
    query, at most one per unit of fuel, and it sleeps no more often
    than it fetches. *)
Theorem X3_poller_only_fetches fuel qid interval (w : world Svc) :
  heap (fst (wait fuel qid interval w)) = heap w
  /\ stdout (fst (wait fuel qid interval w)) = stdout w
  /\ files (fst (wait fuel qid interval w)) = files w
  /\ exists n,
      api_log (fst (wait fuel qid interval w))
      = api_log w ++ repeat (GetQueryResults qid) n
      /\ (n <= fuel)%nat
      /\ (length (sleeps (fst (wait fuel qid interval w)))
          <= length (sleeps w) + n)%nat.
Proof.
  revert w. induction fuel as [|fuel IH]; intros w.
  - cbn. repeat split. exists O. cbn. rewrite app_nil_r. repeat split; lia.
  - rewrite wait_results_step. cbv zeta.
    destruct (svc_get_query_results (svc w) qid) as [s' [resp|e]].
    + destruct (String.eqb (status resp) "Complete").
      { cbn. repeat split. exists 1%nat. cbn. repeat split; lia. }
      destruct (terminal_failure (status resp)).
      { cbn. repeat split. exists 1%nat. cbn. repeat split; lia. }
      destruct (IH (mk_world (heap w) (stdout w) (files w)
                             (api_log w ++ [GetQueryResults qid])
                             (sleeps w ++ [interval]) s'))
        as [Hh [Hso [Hf [n [Hlog [Hn Hsl]]]]]].
      cbn [heap stdout files api_log sleeps] in Hh, Hso, Hf, Hlog, Hsl.
      repeat split; try assumption.
      exists (S n). rewrite Hlog. cbn [repeat]. rewrite <- app_assoc.
      rewrite length_app in Hsl. cbn [length] in Hsl.
      repeat split; try reflexivity; lia.
    + cbn. repeat split. exists 1%nat. cbn. repeat split; lia.
Qed.

End PollerRuns.

Lemma X1_poller_after_n_polls_witness :
  let st := Scripted.mk_state
              [] [("q", [running; running; running; complete sample_rows])] in
  let r := mk_response "Running" [] in
  polls Scripted.get_query_results "q" st [r; r; r]
        (Scripted.mk_state [] [("q", [complete sample_rows])])
  /\ forallb keeps_waiting [r; r; r] = true
  /\ snd (wait_results _ Scripted.get_query_results 4 "q" 2 (Scripted.init st))
     = Ret sample_rows
  /\ sleeps (fst (wait_results _ Scripted.get_query_results 4 "q" 2
                               (Scripted.init st)))
     = [2; 2; 2].
Proof.
  intros st r.
  assert (Hpolls : polls Scripted.get_query_results "q" st [r; r; r]
                         (Scripted.mk_state [] [("q", [complete sample_rows])])).
  { unfold st, r.
    eapply polls_cons; [reflexivity|].
    eapply polls_cons; [reflexivity|].
    eapply polls_cons; [reflexivity|].
    apply polls_nil. }
  split; [exact Hpolls|]. split; [reflexivity|].
  rewrite (proj1 (X1_poller_after_n_polls
                    Scripted.get_query_results "q" 2 [r; r; r] (Scripted.init st)
                    _ (Scripted.mk_state [] [("q", [])]) 4%nat
                    Hpolls eq_refl (le_n 4))
                 sample_rows eq_refl).
  split; reflexivity.
Defined.

Lemma X2_poller_never_gives_up_witness :
  (forall s, exists s' r,
        always_running s "q" = (s', Ok r) /\ keeps_waiting r = true)
  /\ snd (wait_results unit always_running 7 "q" 1
                       (mk_world [] [] Dict.empty [] [] tt))
     = Diverge.
Proof.
  assert (H : forall s, exists s' r,
               always_running s "q" = (s', Ok r) /\ keeps_waiting r = true).
  { intros s. exists s, (mk_response "Running" []). split; reflexivity. }
  split; [exact H|].
  exact (proj1 (X2_poller_never_gives_up always_running "q" 1 H 7%nat
                  (mk_world [] [] Dict.empty [] [] tt))).
Defined.

(** ** The Row Flattener on malformed rows *)

Lemma flatten_row_outcome (r : raw_row) (acc : row) :
  match flatten_row r acc with
  | Ok _ => forallb has_field_and_value r = true
  | Raise e =>
    forallb has_field_and_value r = false
    /\ (e = KeyError "field" \/ e = KeyError "value")
  end.
Proof.
  revert acc. induction r as [|c r IH]; intros acc; [reflexivity|].
  cbn [flatten_row forallb]. unfold Dict.getitem, has_field_and_value.
  destruct (Dict.get c "field") as [k|]; cbn [bind]; [|auto].
  destruct (Dict.get c "value") as [v|]; cbn [bind]; [|auto].
  cbn [andb]. apply IH.
Qed.

(** X4: [flatten] either returns one well-formed mapping per row, which
    it does exactly when every cell of every row has both a [field] and
    a [value] key, or it stops at a cell that lacks one with the
    [KeyError] of that key; it raises nothing else. *)
Theorem X4_flatten_key_error (results : list raw_row) :
  match flatten results with
  | Ok ds =>
    forallb (forallb has_field_and_value) results = true
    /\ length ds = length results
    /\ Forall (fun d => Dict.wf d) ds
  | Raise e =>
    forallb (forallb has_field_and_value) results = false
    /\ (e = KeyError "field" \/ e = KeyError "value")
  end.
Proof.
  induction results as [|r results IH].
  - cbn. repeat split. constructor.
  - cbn [flatten forallb].
    pose proof (flatten_row_outcome r Dict.empty) as Hr.
    destruct (flatten_row r Dict.empty) as [d|e] eqn:Hd; cbn [bind].
    + rewrite Hr. cbn [andb].
      destruct (flatten results) as [ds|e]; cbn [bind].
      * destruct IH as [Hall [Hlen Hwf]]. repeat split; try assumption.
        -- cbn [length]. now rewrite Hlen.
        -- constructor; [|exact Hwf].
           apply (flatten_row_wf r Dict.empty d); [constructor|exact Hd].
      * exact IH.
    + destruct Hr as [Hr He]. rewrite Hr. auto.
Qed.

(** ** The Reporter without [tabulate] *)

Section ReporterFallback.

Context {Svc : Type}.

(** X5: when [tabulate] cannot be imported, the Reporter prints a
    non-empty sequence of rows as one block of text, and that text is a
    JSON document: [json.loads] gives the rows back, in order, with
    their fields and values. *)
Theorem X5_reporter_fallback_is_json (r : addr) (rows : list addr) (w : world Svc) :
  Forall (fun d => Dict.wf d) (rows_at (heap w) (r :: rows)) ->
  exists text,
    pretty_print Svc false (r :: rows) w
    = (mk_world (heap w) (stdout w ++ [text]) (files w) (api_log w) (sleeps w)
                (svc w), Ret tt)
    /\ Json.loads text = Ok (py_of_rows (rows_at (heap w) (r :: rows))).
Proof.
  intros Hwf. eexists. split; [reflexivity|].
  apply loads_dumps, py_of_rows_wf, Hwf.
Qed.

End ReporterFallback.

Lemma X5_reporter_fallback_is_json_witness :
  Forall (fun d => Dict.wf d) (rows_at sample_heap [0%nat; 1%nat])
  /\ exists text,
      stdout (fst (pretty_print unit false [0%nat; 1%nat] sample_world)) = [text]
      /\ Json.loads text = Ok (py_of_rows sample_heap).
Proof.
  assert (Hwf : Forall (fun d => Dict.wf d) (rows_at sample_heap [0%nat; 1%nat])).
  { repeat constructor; simpl; intuition discriminate. }
  split; [exact Hwf|].
  destruct (X5_reporter_fallback_is_json 0%nat [1%nat] sample_world Hwf)
    as [text [Hrun Hload]].
  exists text. split; [|exact Hload].
  exact (f_equal (fun x => stdout (fst x)) Hrun).
Defined.

(** ** The Persister: the paths that write nothing, and what a call
    can touch *)

Lemma row_count_zero (h : heap_t) (data : Dict.t (list addr)) :
  row_count data = 0%nat -> data_ok h data /\ tagged_rows h data = [].
Proof.
  unfold row_count, data_ok, tagged_rows.
  induction data as [|[lg rows] data IH]; cbn [map list_sum flat_map fst snd].
  - intros _. split; [constructor|reflexivity].
  - intros H. apply Nat.eq_add_0 in H. destruct H as [Hrows Hrest].
    apply length_zero_iff_nil in Hrows. subst rows.
    destruct (IH Hrest) as [Hok Hnil]. split.
    + constructor; [constructor|exact Hok].
    + cbn [map app]. exact Hnil.
Qed.

Lemma tagged_rows_nil_count (h : heap_t) (data : Dict.t (list addr)) :
  tagged_rows h data = [] -> row_count data = 0%nat.
Proof.
  intros H. rewrite <- (tagged_rows_length h data), H. reflexivity.
Qed.

Section PersisterEdges.

Context {Svc : Type}.
Variable resolve : string -> string.
Variable writable : string -> bool.

Local Abbreviation save := (save_results Svc resolve writable).

Lemma save_results_unsupported data file_path (w : world Svc) :
  PyStr.lower (Path.suffix file_path) <> ".json"%string ->
  PyStr.lower (Path.suffix file_path) <> ".csv"%string ->
  save data file_path w =
  (mk_world (heap w)
            (stdout w ++ [("Extensión " ++ PyStr.lower (Path.suffix file_path)
                                        ++ " no soportada. Usa .json o .csv")%string])
            (files w) (api_log w) (sleeps w) (svc w),
   Ret tt).
Proof.
  intros Hj Hc. unfold save_results.
  apply String.eqb_neq in Hj. apply String.eqb_neq in Hc.
  rewrite Hj, Hc. reflexivity.
Qed.

Lemma save_results_json_unwritable data file_path (w : world Svc) :
  PyStr.lower (Path.suffix file_path) = ".json"%string ->
  writable file_path = false ->
  save data file_path w = (w, Exc (OSError file_path)).
Proof.
  intros Hsuf Hwr. unfold save_results. rewrite Hsuf.
  change (".json" =? ".json")%string with true. cbv iota.
  unfold mbind, open_w. rewrite Hwr. reflexivity.
Qed.

Lemma save_results_csv_empty data file_path (w : world Svc) :
  PyStr.lower (Path.suffix file_path) = ".csv"%string ->
  row_count data = 0%nat ->
  save data file_path w =
  (mk_world (heap w) (stdout w ++ ["No hay datos para guardar en CSV."%string])
            (files w) (api_log w) (sleeps w) (svc w),
   Ret tt).
Proof.
  intros Hsuf Hzero.
  destruct (row_count_zero (heap w) data Hzero) as [Hok Hnil].
  unfold save_results. rewrite Hsuf.
  change (".csv" =? ".json")%string with false.
  change (".csv" =? ".csv")%string with true. cbv iota.
  unfold mbind at 1. rewrite collect_rows_spec by exact Hok.
  rewrite Hnil. cbn [app length seq]. rewrite app_nil_r. reflexivity.
Qed.

Lemma save_results_csv_unwritable data file_path (w : world Svc) :
  PyStr.lower (Path.suffix file_path) = ".csv"%string ->
  writable file_path = false ->
  data_ok (heap w) data ->
  tagged_rows (heap w) data <> [] ->
  save data file_path w =
  (mk_world (heap w ++ tagged_rows (heap w) data)
            (stdout w) (files w) (api_log w) (sleeps w) (svc w),
   Exc (OSError file_path)).
Proof.
  intros Hsuf Hwr Hok Hne.
  unfold save_results. rewrite Hsuf.
  change (".csv" =? ".json")%string with false.
  change (".csv" =? ".csv")%string with true. cbv iota.
  unfold mbind at 1. rewrite collect_rows_spec by exact Hok.
  destruct (tagged_rows (heap w) data) as [|r0 rows0] eqn:Erows; [contradiction|].
  cbn [app length seq]. cbv beta iota.
  unfold mbind, open_w. rewrite Hwr. reflexivity.
Qed.

(** X6: for a path whose extension, lower-cased, is neither [.json]
    nor [.csv] (no extension at all included), the Persister writes no
    file and raises nothing: it prints one line, and nothing else
    changes.  When the extension is ASCII text, the line names it in
    lower case between the words of the message. *)
Theorem X6_unsupported_extension data file_path (w : world Svc) :
  PyStr.lower (Path.suffix file_path) <> ".json"%string ->
  PyStr.lower (Path.suffix file_path) <> ".csv"%string ->
  exists line,
    save data file_path w =
    (mk_world (heap w) (stdout w ++ [line]) (files w) (api_log w) (sleeps w)
              (svc w), Ret tt)
    /\ (PyStr.is_ascii (Path.suffix file_path) = true ->
        line = ("Extensión " ++ PyStr.lower (Path.suffix file_path)
                             ++ " no soportada. Usa .json o .csv")%string).
Proof.
  intros Hj Hc. eexists. split; [|intros _; reflexivity].
  now apply save_results_unsupported.
Qed.

(** X7: when the mapping has no row at all (no log group, or only log
    groups with empty lists), saving to a [.csv] path opens no file:
    an existing file at that path keeps its content, no [OSError] can
    arise from an unwritable path, no object is allocated, and the one
    line printed says there is nothing to save. *)
Theorem X7_csv_without_rows data file_path (w : world Svc) :
  PyStr.lower (Path.suffix file_path) = ".csv"%string ->
  row_count data = 0%nat ->
  save data file_path w =
  (mk_world (heap w) (stdout w ++ ["No hay datos para guardar en CSV."%string])
            (files w) (api_log w) (sleeps w) (svc w),
   Ret tt).
Proof. apply save_results_csv_empty. Qed.

(** X8: when the file cannot be opened for writing, the Persister
    raises the [OSError] of the path and prints nothing; no file is
    created or changed.  This holds for a [.json] path, and for a
    [.csv] path when there is at least one row. *)
Theorem X8_unwritable_path data file_path (w : world Svc) :
  writable file_path = false ->
  data_ok (heap w) data ->
  PyStr.lower (Path.suffix file_path) = ".json"%string
  \/ (PyStr.lower (Path.suffix file_path) = ".csv"%string
      /\ (0 < row_count data)%nat) ->
  snd (save data file_path w) = Exc (OSError file_path)
  /\ files (fst (save data file_path w)) = files w
  /\ stdout (fst (save data file_path w)) = stdout w.
Proof.
  intros Hwr Hok [Hsuf|[Hsuf Hrows]].
  - rewrite save_results_json_unwritable by assumption. repeat split.
  - rewrite save_results_csv_unwritable; try assumption; [repeat split|].
    intros Hnil. apply tagged_rows_nil_count in Hnil.
    rewrite Hnil in Hrows. inversion Hrows.
Qed.

(** Whatever the path and whether or not it can be written, a call of
    the Persister on rows that exist ends normally, or with the
    [OSError] of its path, or with a [UnicodeEncodeError]: the second
    only when the path cannot be opened and then without a change to
    the files, the third only after the file was opened.  It prints
    at most one line; it changes no file other than the one named; it
    makes no call to the service and does not sleep; and every row
    object that existed is unchanged. *)
Lemma save_results_frame data file_path (w : world Svc) :
  data_ok (heap w) data ->
  let w' := fst (save data file_path w) in
  (snd (save data file_path w) = Ret tt
   \/ (snd (save data file_path w) = Exc (OSError file_path)
       /\ writable file_path = false /\ files w' = files w)
   \/ (snd (save data file_path w)
       = Exc (UnicodeEncodeError "surrogates not allowed")
       /\ writable file_path = true))
  /\ (exists lines, stdout w' = stdout w ++ lines /\ (length lines <= 1)%nat)
  /\ (forall p, p <> resolve file_path ->
                Dict.get (files w') p = Dict.get (files w) p)
  /\ api_log w' = api_log w /\ sleeps w' = sleeps w /\ svc w' = svc w
  /\ (exists new, heap w' = heap w ++ new).
Proof.
  intros Hok w'. unfold w'. clear w'.
  destruct (String.eqb (PyStr.lower (Path.suffix file_path)) ".json") eqn:Ej;
    [apply String.eqb_eq in Ej
    |apply String.eqb_neq in Ej;
     destruct (String.eqb (PyStr.lower (Path.suffix file_path)) ".csv") eqn:Ec;
     [apply String.eqb_eq in Ec|apply String.eqb_neq in Ec]].
  - destruct (writable file_path) eqn:Hwr.
    + rewrite save_results_json_run by assumption. cbv zeta.
      cbn [fst snd stdout files api_log sleeps svc heap].
      split; [|split; [|split]].
      * unfold write_outcome. destruct (forallb _ _); [now left|right; right].
        now split.
      * destruct (forallb _ _); [eexists; split; [reflexivity|apply le_n]|].
        exists []. split; [now rewrite app_nil_r|apply Nat.le_0_l].
      * intros p Hp; now rewrite !dict_get_set_other by exact Hp.
      * repeat split. exists []. now rewrite app_nil_r.
    + rewrite save_results_json_unwritable by assumption. cbn [fst snd].
      split; [right; left; repeat split|].
      split; [exists []; split; [now rewrite app_nil_r|apply Nat.le_0_l]|].
      repeat split. exists []. now rewrite app_nil_r.
  - destruct (tagged_rows (heap w) data) as [|r0 rows0] eqn:Erows.
    + rewrite save_results_csv_empty;
        [|exact Ec|apply (tagged_rows_nil_count (heap w)), Erows].
      cbn [fst snd stdout files api_log sleeps svc heap].
      split; [now left|]. split; [eexists; split; [reflexivity|apply le_n]|].
      repeat split. exists []. now rewrite app_nil_r.
    + assert (Hne : tagged_rows (heap w) data <> []) by (rewrite Erows; discriminate).
      destruct (writable file_path) eqn:Hwr.
      * rewrite save_results_csv_run by assumption. cbv zeta.
        cbn [fst snd stdout files api_log sleeps svc heap].
        split; [|split; [|split]].
        -- unfold write_outcome. destruct (forallb _ _); [now left|right; right].
           now split.
        -- destruct (forallb _ _); [eexists; split; [reflexivity|apply le_n]|].
           exists []. split; [now rewrite app_nil_r|apply Nat.le_0_l].
        -- intros p Hp; now rewrite dict_get_set_other by exact Hp.
        -- repeat split. eexists. reflexivity.
      * rewrite save_results_csv_unwritable by assumption.
        cbn [fst snd stdout files api_log sleeps svc heap].
        split; [right; left; repeat split|].
        split; [exists []; split; [now rewrite app_nil_r|apply Nat.le_0_l]|].
        repeat split. eexists. reflexivity.
  - rewrite save_results_unsupported by assumption.
    cbn [fst snd stdout files api_log sleeps svc heap].
    split; [now left|]. split; [eexists; split; [reflexivity|apply le_n]|].
    repeat split. exists []. now rewrite app_nil_r.
Qed.

(** A path that cannot be opened leaves the files as they are,
    however the call ends. *)
Lemma save_results_unwritable_files data file_path (w : world Svc) :
  data_ok (heap w) data ->
  writable file_path = false ->
  files (fst (save data file_path w)) = files w.
Proof.
  intros Hok Hwr.
  destruct (String.eqb (PyStr.lower (Path.suffix file_path)) ".json") eqn:Ej;
    [apply String.eqb_eq in Ej
    |apply String.eqb_neq in Ej;
     destruct (String.eqb (PyStr.lower (Path.suffix file_path)) ".csv") eqn:Ec;
     [apply String.eqb_eq in Ec|apply String.eqb_neq in Ec]].
  - now rewrite save_results_json_unwritable by assumption.
  - destruct (tagged_rows (heap w) data) as [|r0 rows0] eqn:Erows.
    + rewrite save_results_csv_empty;
        [reflexivity|exact Ec|apply (tagged_rows_nil_count (heap w)), Erows].
    + rewrite save_results_csv_unwritable; try assumption; [reflexivity|].
      rewrite Erows. discriminate.
  - now rewrite save_results_unsupported by assumption.
Qed.

(** X11: saving the same mapping twice in a row to the same path
    leaves the files as one save leaves them: the file is opened for
    writing, not for appending, and the copies the CSV branch made the
    first time are not rows of the mapping. *)
Theorem X11_saving_twice data file_path (w : world Svc) :
  data_ok (heap w) data ->
  files (fst (save data file_path (fst (save data file_path w))))
  = files (fst (save data file_path w)).
Proof.
  intros Hok.
  destruct (String.eqb (PyStr.lower (Path.suffix file_path)) ".json") eqn:Ej;
    [apply String.eqb_eq in Ej
    |apply String.eqb_neq in Ej;
     destruct (String.eqb (PyStr.lower (Path.suffix file_path)) ".csv") eqn:Ec;
     [apply String.eqb_eq in Ec|apply String.eqb_neq in Ec]].
  - destruct (writable file_path) eqn:Hwr.
    + rewrite (save_results_json_run resolve writable data file_path w)
        by assumption.
      cbv zeta. cbn [fst]. rewrite save_results_json_run by assumption.
      cbv zeta. cbn [fst files heap]. now rewrite !dict_set_set.
    + rewrite (save_results_json_unwritable data file_path w) by assumption.
      cbn [fst]. now rewrite save_results_json_unwritable by assumption.
  - destruct (tagged_rows (heap w) data) as [|r0 rows0] eqn:Erows.
    + assert (Hz : row_count data = 0%nat)
        by (apply (tagged_rows_nil_count (heap w)), Erows).
      rewrite (save_results_csv_empty data file_path w) by assumption.
      cbn [fst]. now rewrite save_results_csv_empty by assumption.
    + assert (Hne : tagged_rows (heap w) data <> []) by (rewrite Erows; discriminate).
      assert (Hok' : data_ok (heap w ++ tagged_rows (heap w) data) data).
      { unfold data_ok in *. eapply Forall_impl; [|exact Hok].
        intros [lg rows] H. cbn [snd] in *.
        eapply Forall_impl; [|exact H].
        intros a Ha. cbv beta in Ha. rewrite length_app.
        apply Nat.lt_lt_add_r. exact Ha. }
      assert (Hsame : tagged_rows (heap w ++ tagged_rows (heap w) data) data
                      = tagged_rows (heap w) data)
        by (apply tagged_rows_app_heap, Hok).
      destruct (writable file_path) eqn:Hwr.
      * rewrite (save_results_csv_run resolve writable data file_path w)
          by assumption.
        cbv zeta. cbn [fst].
        rewrite save_results_csv_run; cbn [heap]; try assumption;
          [|now rewrite Hsame].
        cbv zeta. cbn [fst files]. rewrite Hsame. now rewrite dict_set_set.
      * rewrite (save_results_csv_unwritable data file_path w) by assumption.
        cbn [fst].
        rewrite save_results_csv_unwritable; cbn [heap]; try assumption;
          [reflexivity|now rewrite Hsame].
  - rewrite (save_results_unsupported data file_path w) by assumption.
    cbn [fst]. now rewrite save_results_unsupported by assumption.
Qed.

End PersisterEdges.

Lemma X6_unsupported_extension_witness :
  PyStr.lower (Path.suffix "results/.json") <> ".json"%string
  /\ PyStr.lower (Path.suffix "results/.json") <> ".csv"%string
  /\ exists line,
      save_results unit sample_resolve (fun _ => true) sample_data
                   "results/.json" sample_world
      = (mk_world sample_heap [line] Dict.empty [] [] tt, Ret tt)
      /\ line = "Extensión  no soportada. Usa .json o .csv"%string.
Proof.
  assert (Hj : PyStr.lower (Path.suffix "results/.json") <> ".json"%string)
    by discriminate.
  assert (Hc : PyStr.lower (Path.suffix "results/.json") <> ".csv"%string)
    by discriminate.
  split; [exact Hj|]. split; [exact Hc|].
  destruct (X6_unsupported_extension sample_resolve (fun _ => true) sample_data
                                     "results/.json" sample_world Hj Hc)
    as [line [Hrun Hline]].
  exists line. split; [exact Hrun|exact (Hline eq_refl)].
Defined.

Lemma X7_csv_without_rows_witness :
  let w := mk_world sample_heap [] [("/cwd/out.csv", "old")]%string [] [] tt in
  PyStr.lower (Path.suffix "out.csv") = ".csv"%string
  /\ row_count [("A", []); ("B", [])]%string = 0%nat
  /\ save_results unit sample_resolve (fun _ => false)
                  [("A", []); ("B", [])]%string "out.csv" w
     = (mk_world sample_heap ["No hay datos para guardar en CSV."%string]
                 [("/cwd/out.csv", "old")]%string [] [] tt, Ret tt).
Proof.
  intros w. split; [reflexivity|]. split; [reflexivity|].
  exact (X7_csv_without_rows sample_resolve (fun _ => false)
                             [("A", []); ("B", [])]%string "out.csv" w
                             eq_refl eq_refl).
Defined.

Lemma X8_unwritable_path_witness :
  data_ok sample_heap sample_data
  /\ (PyStr.lower (Path.suffix "out.csv") = ".csv"%string
      /\ (0 < row_count sample_data)%nat)
  /\ snd (save_results unit sample_resolve (fun _ => false) sample_data
                       "out.csv" sample_world)
     = Exc (OSError "out.csv")
  /\ files (fst (save_results unit sample_resolve (fun _ => false) sample_data
                              "out.csv" sample_world))
     = Dict.empty.
Proof.
  assert (Hrows : PyStr.lower (Path.suffix "out.csv") = ".csv"%string
                  /\ (0 < row_count sample_data)%nat)
    by (split; [reflexivity|apply Nat.lt_0_succ]).
  split; [exact sample_data_ok|]. split; [exact Hrows|].
  destruct (X8_unwritable_path sample_resolve (fun _ => false) sample_data
                               "out.csv" sample_world eq_refl sample_data_ok
                               (or_intror Hrows))
    as [Hout [Hfiles _]].
  split; [exact Hout|exact Hfiles].
Defined.

Lemma X11_saving_twice_witness :
  let save := save_results unit sample_resolve (fun _ => true) sample_data
                           "out.csv" in
  data_ok sample_heap sample_data
  /\ files (fst (save (fst (save sample_world))))
     = files (fst (save sample_world)).
Proof.
  intros save. split; [exact sample_data_ok|].
  exact (X11_saving_twice sample_resolve (fun _ => true) sample_data "out.csv"
                          sample_world sample_data_ok).
Defined.

(** ** The [log_group] column of the CSV file *)


Section CsvLogGroup.

Context {Svc : Type}.
Variable resolve : string -> string.
Variable writable : string -> bool.

Local Abbreviation save := (save_results Svc resolve writable).


End CsvLogGroup.


(** ** The loop over the log groups *)

Lemma submissions_app (a b : list api_call) :
  submissions (a ++ b) = submissions a ++ submissions b.
Proof. apply filter_app. Qed.

Lemma submissions_fetches (qid : string) (n : nat) :
  submissions (repeat (GetQueryResults qid) n) = [].
Proof. induction n as [|n IH]; [reflexivity|exact IH]. Qed.

Lemma adds_refl {Svc : Type} (w : world Svc) : adds [] w w.
Proof. split; [reflexivity|now rewrite app_nil_r]. Qed.

Lemma adds_trans {Svc : Type} (a b : list api_call) (x y z : world Svc) :
  adds a x y -> adds b y z -> adds (a ++ b) x z.
Proof.
  intros [Hf1 Hs1] [Hf2 Hs2]. split; [congruence|].
  now rewrite Hs2, Hs1, app_assoc.
Qed.

Section LoopRuns.

Context {Svc : Type}.
Variable svc_start_query :
  Svc -> string -> Z -> Z -> string -> Svc * result string.
Variable svc_get_query_results : Svc -> string -> Svc * result response.
Variable tabulate_installed : bool.

Local Abbreviation wait := (wait_results Svc svc_get_query_results).
Local Abbreviation group :=
  (query_group Svc svc_start_query svc_get_query_results tabulate_installed).
Local Abbreviation groups :=
  (query_groups Svc svc_start_query svc_get_query_results tabulate_installed).

(** The poller changes the log of calls, the sleeps and the state of
    the service only, and the calls it adds are fetches. *)
Lemma wait_results_frame fuel qid interval (w : world Svc) :
  heap (fst (wait fuel qid interval w)) = heap w
  /\ stdout (fst (wait fuel qid interval w)) = stdout w
  /\ files (fst (wait fuel qid interval w)) = files w
  /\ exists n,
      api_log (fst (wait fuel qid interval w))
      = api_log w ++ repeat (GetQueryResults qid) n.
Proof.
  revert w. induction fuel as [|fuel IH]; intros w.
  - cbn. repeat split. exists O. cbn. now rewrite app_nil_r.
  - rewrite wait_results_step. cbv zeta.
    destruct (svc_get_query_results (svc w) qid) as [s' [resp|e]].
    + destruct (String.eqb (status resp) "Complete").
      { cbn. repeat split. now exists 1%nat. }
      destruct (terminal_failure (status resp)).
      { cbn. repeat split. now exists 1%nat. }
      destruct (IH (mk_world (heap w) (stdout w) (files w)
                             (api_log w ++ [GetQueryResults qid])
                             (sleeps w ++ [interval]) s'))
        as [Hh [Hso [Hf [n Hlog]]]].
      cbn [heap stdout files api_log sleeps] in Hh, Hso, Hf, Hlog.
      repeat split; try assumption.
      exists (S n). rewrite Hlog. cbn [repeat]. now rewrite <- app_assoc.
    + cbn. repeat split. now exists 1%nat.
Qed.

Lemma pretty_print_report (rows : list addr) (w : world Svc) :
  pretty_print Svc tabulate_installed rows w
  = (mk_world (heap w)
              (stdout w ++ report tabulate_installed (rows_at (heap w) rows))
              (files w) (api_log w) (sleeps w) (svc w),
     Ret tt).
Proof.
  unfold pretty_print, report. destruct rows as [|r rows]; [reflexivity|].
  cbn [rows_at map]. destruct tabulate_installed; [|reflexivity].
  rewrite app_nil_r. destruct w; reflexivity.
Qed.

(** The body of the loop when the service refuses the query. *)
Lemma query_group_refused fuel lg start_ts end_ts salida (w : world Svc) s1 msg :
  svc_start_query (svc w) lg start_ts end_ts (PyStr.strip QUERY_STRING)
  = (s1, Raise (ClientError msg)) ->
  group fuel lg start_ts end_ts salida w
  = (mk_world (heap w) (stdout w ++ refused_lines lg msg) (files w)
              (api_log w ++ [submit lg start_ts end_ts]) (sleeps w) s1,
     Ret salida).
Proof.
  intros Hstart.
  unfold query_group, mbind at 1, print at 1. unfold mbind at 1.
  unfold try_except_ClientError, mbind at 1, start_query.
  cbn [heap stdout files api_log sleeps svc]. rewrite Hstart.
  cbn [lift ret raise]. unfold mbind, print, ret.
  cbn [heap stdout files api_log sleeps svc].
  unfold refused_lines, submit. now rewrite <- !app_assoc.
Qed.

(** The body of the loop when the service refuses with another error
    than [ClientError]. *)
Lemma query_group_start_error fuel lg start_ts end_ts salida (w : world Svc) s1 e :
  svc_start_query (svc w) lg start_ts end_ts (PyStr.strip QUERY_STRING)
  = (s1, Raise e) ->
  (forall msg, e <> ClientError msg) ->
  group fuel lg start_ts end_ts salida w
  = (mk_world (heap w) (stdout w ++ [("===> Log group: " ++ lg)%string]) (files w)
              (api_log w ++ [submit lg start_ts end_ts]) (sleeps w) s1,
     Exc e).
Proof.
  intros Hstart Hne.
  unfold query_group, mbind at 1, print at 1. unfold mbind at 1.
  unfold try_except_ClientError, mbind at 1, start_query.
  cbn [heap stdout files api_log sleeps svc]. rewrite Hstart.
  cbn [lift ret raise].
  destruct e; try reflexivity. now contradiction (Hne msg).
Qed.

(** The body of the loop once the query is submitted, by the outcome
    of the poller and of [flatten]. *)
Lemma query_group_submitted fuel lg start_ts end_ts salida (w : world Svc) s1 qid :
  svc_start_query (svc w) lg start_ts end_ts (PyStr.strip QUERY_STRING)
  = (s1, Ok qid) ->
  group fuel lg start_ts end_ts salida w
  = let failed (w2 : world Svc) (msg : string) :=
        (mk_world (heap w2)
                  (stdout w2 ++ [("Error consultando " ++ lg ++ ": " ++ msg)%string;
                                 EmptyString])
                  (files w2) (api_log w2) (sleeps w2) (svc w2),
         Ret salida) in
    match wait fuel qid 1
               (mk_world (heap w) (stdout w ++ [("===> Log group: " ++ lg)%string])
                         (files w) (api_log w ++ [submit lg start_ts end_ts])
                         (sleeps w) s1) with
    | (w2, Ret raw) =>
      match flatten raw with
      | Ok flat =>
        (mk_world (heap w2 ++ flat)
                  (stdout w2 ++ report tabulate_installed flat ++ [EmptyString])
                  (files w2) (api_log w2) (sleeps w2) (svc w2),
         Ret (Dict.set salida lg (seq (length (heap w2)) (length flat))))
      | Raise (ClientError msg) => failed w2 msg
      | Raise e => (w2, Exc e)
      end
    | (w2, Exc (ClientError msg)) => failed w2 msg
    | (w2, Exc e) => (w2, Exc e)
    | (w2, Exit c) => (w2, Exit c)
    | (w2, Diverge) => (w2, Diverge)
    end.
Proof.
  intros Hstart. cbv zeta.
  unfold query_group, mbind at 1, print at 1. unfold mbind at 1.
  unfold try_except_ClientError, mbind at 1, start_query.
  cbn [heap stdout files api_log sleeps svc]. rewrite Hstart.
  cbn [lift ret raise]. unfold mbind at 1. unfold submit.
  destruct (wait fuel qid 1 _) as [w2 [raw|e|c|]].
  - unfold mbind at 1.
    destruct (flatten raw) as [flat|e]; cbn [lift ret raise].
    + unfold mbind at 1. rewrite alloc_rows_spec.
      unfold mbind at 1. rewrite pretty_print_report.
      cbn [heap stdout files api_log sleeps svc]. rewrite rows_at_new.
      unfold ret at 1, mbind, print, ret.
      cbn [heap stdout files api_log sleeps svc].
      now rewrite <- app_assoc.
    + destruct e; try reflexivity.
      unfold mbind, print, ret. cbn [heap stdout files api_log sleeps svc].
      now rewrite <- app_assoc.
  - destruct e; try reflexivity.
    unfold mbind, print, ret. cbn [heap stdout files api_log sleeps svc].
    now rewrite <- app_assoc.
  - reflexivity.
  - reflexivity.
Qed.

(** Whatever happens, the body of the loop makes one submission, the
    one of its log group, and changes no file. *)
Lemma query_group_adds fuel lg start_ts end_ts salida (w : world Svc) :
  adds [submit lg start_ts end_ts] w (fst (group fuel lg start_ts end_ts salida w)).
Proof.
  assert (Hbase : forall s1 (w1 : world Svc),
             w1 = mk_world (heap w) (stdout w ++ [("===> Log group: " ++ lg)%string])
                           (files w) (api_log w ++ [submit lg start_ts end_ts])
                           (sleeps w) s1 ->
             adds [submit lg start_ts end_ts] w w1).
  { intros s1 w1 ->. split; [reflexivity|].
    cbn [api_log]. now rewrite submissions_app. }
  destruct (svc_start_query (svc w) lg start_ts end_ts (PyStr.strip QUERY_STRING))
    as [s1 [qid|e]] eqn:Hstart.
  - rewrite (query_group_submitted _ _ _ _ _ _ _ _ Hstart). cbv zeta.
    pose proof (Hbase s1 _ eq_refl) as H1.
    destruct (wait_results_frame
                fuel qid 1
                (mk_world (heap w) (stdout w ++ [("===> Log group: " ++ lg)%string])
                          (files w) (api_log w ++ [submit lg start_ts end_ts])
                          (sleeps w) s1))
      as [_ [_ [Hf [n Hlog]]]].
    assert (H2 : adds [] (mk_world (heap w)
                                   (stdout w ++ [("===> Log group: " ++ lg)%string])
                                   (files w) (api_log w ++ [submit lg start_ts end_ts])
                                   (sleeps w) s1)
                      (fst (wait fuel qid 1
                                 (mk_world (heap w)
                                           (stdout w ++ [("===> Log group: " ++ lg)%string])
                                           (files w)
                                           (api_log w ++ [submit lg start_ts end_ts])
                                           (sleeps w) s1)))).
    { split; [exact Hf|].
      rewrite Hlog, submissions_app, submissions_fetches. reflexivity. }
    pose proof (adds_trans _ _ _ _ _ H1 H2) as H. cbn [app] in H.
    destruct (wait fuel qid 1 _) as [w2 [raw|e|c|]]; cbn [fst] in H.
    + destruct (flatten raw) as [flat|e]; [exact H|].
      destruct e; exact H.
    + destruct e; exact H.
    + exact H.
    + exact H.
  - destruct (match e with ClientError _ => true | _ => false end) eqn:Ec.
    + destruct e; try discriminate.
      rewrite (query_group_refused _ _ _ _ _ _ _ _ Hstart). cbn [fst].
      split; [reflexivity|]. cbn [api_log]. now rewrite submissions_app.
    + rewrite (query_group_start_error _ _ _ _ _ _ _ _ Hstart);
        [|intros msg ->; discriminate].
      cbn [fst]. split; [reflexivity|]. cbn [api_log]. now rewrite submissions_app.
Qed.

(** The loop submits one query per log group, in the order of the
    list, for as long as it runs: all of them when it ends normally. *)
Lemma query_groups_adds fuel lgs start_ts end_ts salida (w : world Svc) :
  exists k,
    (k <= length lgs)%nat
    /\ adds (map (fun lg => submit lg start_ts end_ts) (firstn k lgs))
            w (fst (groups fuel lgs start_ts end_ts salida w))
    /\ (forall d, snd (groups fuel lgs start_ts end_ts salida w) = Ret d ->
                  k = length lgs)
    /\ (lgs = [] \/ (0 < k)%nat).
Proof.
  revert salida w. induction lgs as [|lg lgs IH]; intros salida w.
  - exists O. split; [apply le_n|]. split; [apply adds_refl|].
    split; [reflexivity|now left].
  - cbn [query_groups]. unfold mbind.
    pose proof (query_group_adds fuel lg start_ts end_ts salida w) as H1.
    destruct (group fuel lg start_ts end_ts salida w) as [w1 [d1|e|c|]];
      cbn [fst] in H1.
    + destruct (IH d1 w1) as [k [Hk [H2 [Hall _]]]].
      exists (S k). split; [cbn [length]; lia|]. split.
      * exact (adds_trans _ _ _ _ _ H1 H2).
      * split; [|right; lia].
        intros d Hd. cbn [length]. f_equal. exact (Hall d Hd).
    + exists 1%nat. split; [cbn [length]; lia|].
      split; [exact H1|]. split; [discriminate|right; lia].
    + exists 1%nat. split; [cbn [length]; lia|].
      split; [exact H1|]. split; [discriminate|right; lia].
    + exists 1%nat. split; [cbn [length]; lia|].
      split; [exact H1|]. split; [discriminate|right; lia].
Qed.

End LoopRuns.

(** ** Whole runs *)

Lemma data_at_set (h : heap_t) (data : Dict.t (list addr)) lg rows :
  data_at h (Dict.set data lg rows)
  = Dict.set (data_at h data) lg (rows_at h rows).
Proof.
  unfold data_at. induction data as [|[k v] data IH]; [reflexivity|].
  cbn [Dict.set map fst snd].
  destruct (String.eqb lg k); cbn [map fst snd]; [reflexivity|].
  now rewrite IH.
Qed.

Lemma data_at_grow (h t : heap_t) (data : Dict.t (list addr)) :
  data_ok h data -> data_at (h ++ t) data = data_at h data.
Proof.
  intros Hok. unfold data_at. apply map_ext_in.
  intros [lg rows] Hin. cbn [fst snd]. f_equal. apply rows_at_old.
  unfold data_ok in Hok. rewrite Forall_forall in Hok. exact (Hok _ Hin).
Qed.

Lemma flatten_row_raises (r : raw_row) (acc : row) (e : exn) :
  flatten_row r acc = Raise e -> e = KeyError "field" \/ e = KeyError "value".
Proof.
  intros H. pose proof (flatten_row_outcome r acc) as Ho.
  rewrite H in Ho. apply Ho.
Qed.

Lemma flatten_raises (results : list raw_row) (e : exn) :
  flatten results = Raise e -> e = KeyError "field" \/ e = KeyError "value".
Proof.
  induction results as [|r results IH]; [discriminate|].
  cbn [flatten].
  destruct (flatten_row r Dict.empty) as [d|e'] eqn:Hd; cbn [bind].
  - destruct (flatten results) as [ds|e']; cbn [bind]; [discriminate|].
    intros H. injection H as <-. now apply IH.
  - intros H. injection H as <-. exact (flatten_row_raises _ _ _ Hd).
Qed.

Lemma flatten_malformed (results : list raw_row) :
  forallb (forallb has_field_and_value) results = false ->
  exists e, flatten results = Raise e.
Proof.
  induction results as [|r results IH]; [discriminate|].
  cbn [flatten forallb]. intros H.
  pose proof (flatten_row_outcome r Dict.empty) as Hr.
  destruct (flatten_row r Dict.empty) as [d|e]; cbn [bind]; [|eauto].
  rewrite Hr in H. cbn [andb] in H.
  destruct (IH H) as [e He]. rewrite He. cbn [bind]. eauto.
Qed.

Section Runs.

Context {Svc : Type}.
Variable svc_start_query :
  Svc -> string -> Z -> Z -> string -> Svc * result string.
Variable svc_get_query_results : Svc -> string -> Svc * result response.
Variable tabulate_installed : bool.
Variable now : DateTime.datetime.
Variable resolve : string -> string.
Variable writable : string -> bool.

Local Abbreviation wait := (wait_results Svc svc_get_query_results).
Local Abbreviation group :=
  (query_group Svc svc_start_query svc_get_query_results tabulate_installed).
Local Abbreviation groups :=
  (query_groups Svc svc_start_query svc_get_query_results tabulate_installed).
Local Abbreviation save := (save_results Svc resolve writable).
Local Abbreviation run_main :=
  (main Svc svc_start_query svc_get_query_results tabulate_installed now
        resolve writable).

(** The world in which the program submits the query of [lg]. *)
Local Abbreviation submitted w lg start_ts end_ts s1 :=
  (mk_world (heap w) (stdout w ++ [("===> Log group: " ++ lg)%string]) (files w)
            (api_log w ++ [submit lg start_ts end_ts]) (sleeps w) s1).

(** X12: a [ClientError] is confined to its log group.  Whether the
    service raises it when the query is submitted or later, when the
    results are fetched, the loop prints the error line and an empty
    line, leaves the result set as it was, without an entry for that
    group, and goes on with the remaining log groups. *)
Theorem X12_client_error_is_confined fuel lg lgs start_ts end_ts salida
        (w : world Svc) s1 msg :
  (svc_start_query (svc w) lg start_ts end_ts (PyStr.strip QUERY_STRING)
   = (s1, Raise (ClientError msg)) ->
   groups fuel (lg :: lgs) start_ts end_ts salida w
   = groups fuel lgs start_ts end_ts salida
            (mk_world (heap w) (stdout w ++ refused_lines lg msg) (files w)
                      (api_log w ++ [submit lg start_ts end_ts]) (sleeps w) s1))
  /\ (forall qid w2,
         svc_start_query (svc w) lg start_ts end_ts (PyStr.strip QUERY_STRING)
         = (s1, Ok qid) ->
         wait fuel qid 1 (submitted w lg start_ts end_ts s1)
         = (w2, Exc (ClientError msg)) ->
         groups fuel (lg :: lgs) start_ts end_ts salida w
         = groups fuel lgs start_ts end_ts salida
                  (mk_world (heap w)
                            (stdout w ++ refused_lines lg msg) (files w)
                            (api_log w2) (sleeps w2) (svc w2))).
Proof.
  split.
  - intros Hstart. cbn [query_groups]. unfold mbind at 1.
    now rewrite (query_group_refused _ _ _ _ _ _ _ _ _ _ _ Hstart).
  - intros qid w2 Hstart Hwait. cbn [query_groups]. unfold mbind at 1.
    rewrite (query_group_submitted _ _ _ _ _ _ _ _ _ _ _ Hstart). cbv zeta.
    pose proof (wait_results_frame svc_get_query_results fuel qid 1
                                   (submitted w lg start_ts end_ts s1))
      as [Hh [Hso [Hf _]]].
    rewrite Hwait in *. cbn [fst heap stdout files] in Hh, Hso, Hf.
    rewrite Hh, Hso, Hf. unfold refused_lines.
    now rewrite <- app_assoc.
Qed.

(** X13: when the query of a log group completes and its rows are
    well formed, the body of the loop stores the flattened rows under
    the name of the group, in place of an earlier entry of that name
    if there is one; the rows of the other groups stay as they were;
    and what it prints after the header is the report of those rows
    and an empty line. *)
Theorem X13_group_stores_its_rows fuel lg start_ts end_ts salida
        (w : world Svc) s1 qid w2 raw flat :
  svc_start_query (svc w) lg start_ts end_ts (PyStr.strip QUERY_STRING)
  = (s1, Ok qid) ->
  wait fuel qid 1 (submitted w lg start_ts end_ts s1) = (w2, Ret raw) ->
  flatten raw = Ok flat ->
  data_ok (heap w) salida ->
  exists w3 salida',
    group fuel lg start_ts end_ts salida w = (w3, Ret salida')
    /\ data_at (heap w3) salida' = Dict.set (data_at (heap w) salida) lg flat
    /\ Dict.get (data_at (heap w3) salida') lg = Some flat
    /\ (forall lg', lg' <> lg ->
                    Dict.get (data_at (heap w3) salida') lg'
                    = Dict.get (data_at (heap w) salida) lg')
    /\ stdout w3
       = stdout w ++ [("===> Log group: " ++ lg)%string]
                ++ report tabulate_installed flat ++ [EmptyString]
    /\ files w3 = files w.
Proof.
  intros Hstart Hwait Hflat Hok.
  rewrite (query_group_submitted _ _ _ _ _ _ _ _ _ _ _ Hstart). cbv zeta.
  pose proof (wait_results_frame svc_get_query_results fuel qid 1
                                 (submitted w lg start_ts end_ts s1))
    as [Hh [Hso [Hf _]]].
  rewrite Hwait in *. cbn [fst heap stdout files] in Hh, Hso, Hf.
  rewrite Hflat. eexists. eexists. split; [reflexivity|].
  cbn [heap stdout files].
  assert (Hat : data_at (heap w2 ++ flat)
                        (Dict.set salida lg (seq (length (heap w2)) (length flat)))
                = Dict.set (data_at (heap w) salida) lg flat).
  { rewrite data_at_set, rows_at_new, Hh. f_equal. now apply data_at_grow. }
  rewrite Hat. split; [reflexivity|].
  split; [apply dict_get_set_same|].
  split; [intros lg' Hne; now apply dict_get_set_other|].
  split; [now rewrite Hso, <- app_assoc|exact Hf].
Qed.

(** X14: a row with a cell that lacks the key [field] or the key
    [value] ends the loop: the [KeyError] of [flatten] is not caught,
    the result set gets no entry, nothing more is printed and no later
    log group is queried. *)
Theorem X14_malformed_row_ends_the_loop fuel lg lgs start_ts end_ts salida
        (w : world Svc) s1 qid w2 raw :
  svc_start_query (svc w) lg start_ts end_ts (PyStr.strip QUERY_STRING)
  = (s1, Ok qid) ->
  wait fuel qid 1 (submitted w lg start_ts end_ts s1) = (w2, Ret raw) ->
  forallb (forallb has_field_and_value) raw = false ->
  exists k,
    (k = "field" \/ k = "value")%string
    /\ groups fuel (lg :: lgs) start_ts end_ts salida w = (w2, Exc (KeyError k)).
Proof.
  intros Hstart Hwait Hbad.
  destruct (flatten_malformed raw Hbad) as [e He].
  assert (Hk : exists k, (k = "field" \/ k = "value")%string /\ e = KeyError k).
  { destruct (flatten_raises raw e He) as [-> | ->]; eauto. }
  destruct Hk as [k [Hk ->]]. exists k. split; [exact Hk|].
  cbn [query_groups]. unfold mbind at 1.
  rewrite (query_group_submitted _ _ _ _ _ _ _ _ _ _ _ Hstart). cbv zeta.
  rewrite Hwait, He. reflexivity.
Qed.

(** [main] once the time window is accepted: the line with the range,
    the loop, then the Persister when [--out] was given. *)
Lemma main_unfold fuel (a : args) (w : world Svc) start_dt end_dt :
  time_window now a = Ok (start_dt, end_dt) ->
  DateTime.ge start_dt end_dt = false ->
  run_main fuel a w
  = match groups fuel LOG_GROUPS (to_epoch start_dt) (to_epoch end_dt) Dict.empty
                 (mk_world (heap w)
                           (stdout w
                              ++ [("Ejecutando consulta entre "
                                     ++ DateTime.to_str start_dt
                                     ++ " y " ++ DateTime.to_str end_dt ++ "..."
                                     ++ String PyStr.LF EmptyString)%string])
                           (files w) (api_log w) (sleeps w) (svc w)) with
    | (w1, Ret salida) =>
      match out a with
      | Some (String c p) => save salida (String c p) w1
      | _ => (w1, Ret tt)
      end
    | (w1, Exc x) => (w1, Exc x)
    | (w1, Exit c) => (w1, Exit c)
    | (w1, Diverge) => (w1, Diverge)
    end.
Proof.
  intros Hwin Hge. unfold main. rewrite Hwin, Hge.
  unfold mbind at 1, print at 1. unfold mbind at 1.
  destruct (groups fuel LOG_GROUPS _ _ _ _) as [w1 [salida|x|c|]];
    try reflexivity.
  destruct (out a) as [[|c p]|]; reflexivity.
Qed.

(** [main] when the time window is refused or empty: nothing but the
    console can have changed. *)
Lemma main_stops_early fuel (a : args) (w : world Svc) :
  match time_window now a with
  | Ok (start_dt, end_dt) => DateTime.ge start_dt end_dt = true
  | Raise _ => True
  end ->
  files (fst (run_main fuel a w)) = files w
  /\ api_log (fst (run_main fuel a w)) = api_log w
  /\ heap (fst (run_main fuel a w)) = heap w
  /\ forall u, snd (run_main fuel a w) <> Ret u.
Proof.
  unfold main. destruct (time_window now a) as [[start_dt end_dt]|e].
  - intros ->. cbn. repeat split. discriminate.
  - intros _. destruct e; cbn; repeat split; discriminate.
Qed.

(** The result set of the loop names rows that exist. *)
Lemma query_groups_data_ok fuel lgs start_ts end_ts (w w1 : world Svc) salida :
  groups fuel lgs start_ts end_ts Dict.empty w = (w1, Ret salida) ->
  data_ok (heap w1) salida /\ data_wf (heap w1) salida.
Proof.
  apply query_groups_invariant.
  - constructor.
  - split; constructor.
Qed.

(** X10: a run of the program writes at most one file, the one named
    by [--out], and not before the loop over the log groups has
    ended.  The files are as they were without [--out] or with an
    empty one; in a run that exits or never ends (a refused time, a
    query that never completes); in a run that ends with an exception
    other than an [OSError] or a [UnicodeEncodeError], the two that
    [save_results] can raise; and in a run whose path cannot be
    opened.  With [--out], every other file is as it was. *)
Theorem X10_run_writes_one_file fuel (a : args) (w : world Svc) :
  (truthy (out a) = false -> files (fst (run_main fuel a w)) = files w)
  /\ (forall c, snd (run_main fuel a w) = Exit c ->
                files (fst (run_main fuel a w)) = files w)
  /\ (snd (run_main fuel a w) = Diverge ->
      files (fst (run_main fuel a w)) = files w)
  /\ (forall e, snd (run_main fuel a w) = Exc e ->
                (forall path, e <> OSError path) ->
                (forall reason, e <> UnicodeEncodeError reason) ->
                files (fst (run_main fuel a w)) = files w)
  /\ (forall p, out a = Some p -> writable p = false ->
                files (fst (run_main fuel a w)) = files w)
  /\ (forall p name,
         out a = Some p -> name <> resolve p ->
         Dict.get (files (fst (run_main fuel a w))) name
         = Dict.get (files w) name).
Proof.
  destruct (time_window now a) as [[start_dt end_dt]|e] eqn:Hwin.
  2:{ destruct (main_stops_early fuel a w) as [Hf _]; [now rewrite Hwin|].
      rewrite Hf. repeat split; reflexivity. }
  destruct (DateTime.ge start_dt end_dt) eqn:Hge.
  { destruct (main_stops_early fuel a w) as [Hf _]; [now rewrite Hwin|].
    rewrite Hf. repeat split; reflexivity. }
  rewrite (main_unfold fuel a w _ _ Hwin Hge).
  destruct (query_groups_adds
              svc_start_query svc_get_query_results tabulate_installed
              fuel LOG_GROUPS (to_epoch start_dt) (to_epoch end_dt) Dict.empty
              (mk_world (heap w)
                        (stdout w
                           ++ [("Ejecutando consulta entre "
                                  ++ DateTime.to_str start_dt
                                  ++ " y " ++ DateTime.to_str end_dt ++ "..."
                                  ++ String PyStr.LF EmptyString)%string])
                        (files w) (api_log w) (sleeps w) (svc w)))
    as [k [_ [[Hfiles _] _]]].
  cbn [files] in Hfiles.
  destruct (groups fuel LOG_GROUPS _ _ _ _) as [w1 [salida|x|c|]] eqn:Hrun;
    cbn [fst] in Hfiles; cbn [fst snd];
    try (repeat split; intros; try rewrite Hfiles; reflexivity).
  destruct (query_groups_data_ok _ _ _ _ _ _ _ Hrun) as [Hok _].
  destruct (out a) as [[|c p]|] eqn:Hout; cbn [truthy fst snd];
    try (repeat split; intros; try rewrite Hfiles; reflexivity).
  destruct (save_results_frame resolve writable salida (String c p) w1 Hok)
    as [Hend [_ [Hother _]]].
  split; [discriminate|]. split; [|split; [|split; [|split]]].
  - intros c0 Hc. rewrite Hc in Hend.
    destruct Hend as [H|[[H _]|[H _]]]; discriminate.
  - intros Hd. rewrite Hd in Hend.
    destruct Hend as [H|[[H _]|[H _]]]; discriminate.
  - intros e He Hos Huni. rewrite He in Hend.
    destruct Hend as [H|[[H _]|[H _]]]; [discriminate| |];
      injection H as ->; exfalso; [apply (Hos _ eq_refl)|apply (Huni _ eq_refl)].
  - intros p' Hp' Hwr. injection Hp' as <-.
    rewrite (save_results_unwritable_files resolve writable salida _ w1 Hok Hwr).
    exact Hfiles.
  - intros p' name Hp' Hname. injection Hp' as <-.
    rewrite Hother by exact Hname. now rewrite Hfiles.
Qed.

(** X15: the queries a run submits.  When the time window is refused
    or empty the service is not called at all.  Otherwise the run
    submits one query per log group, in the order of [LOG_GROUPS], all
    with the same range, the epoch seconds of the two ends of the
    window, and the same query text: at least the first, all of them
    when the run ends normally, and none twice. *)
Theorem X15_submissions_in_order fuel (a : args) (w : world Svc) :
  match time_window now a with
  | Ok (start_dt, end_dt) =>
    if DateTime.ge start_dt end_dt then
      api_log (fst (run_main fuel a w)) = api_log w
    else
      exists k,
        (1 <= k <= length LOG_GROUPS)%nat
        /\ submissions (api_log (fst (run_main fuel a w)))
           = submissions (api_log w)
               ++ map (fun lg => submit lg (to_epoch start_dt) (to_epoch end_dt))
                      (firstn k LOG_GROUPS)
        /\ (snd (run_main fuel a w) = Ret tt -> k = length LOG_GROUPS)
  | Raise _ => api_log (fst (run_main fuel a w)) = api_log w
  end.
Proof.
  destruct (time_window now a) as [[start_dt end_dt]|e] eqn:Hwin.
  2:{ destruct (main_stops_early fuel a w) as [_ [Hlog _]]; [now rewrite Hwin|].
      exact Hlog. }
  destruct (DateTime.ge start_dt end_dt) eqn:Hge.
  { destruct (main_stops_early fuel a w) as [_ [Hlog _]]; [now rewrite Hwin|].
    exact Hlog. }
  rewrite (main_unfold fuel a w _ _ Hwin Hge).
  destruct (query_groups_adds
              svc_start_query svc_get_query_results tabulate_installed
              fuel LOG_GROUPS (to_epoch start_dt) (to_epoch end_dt) Dict.empty
              (mk_world (heap w)
                        (stdout w
                           ++ [("Ejecutando consulta entre "
                                  ++ DateTime.to_str start_dt
                                  ++ " y " ++ DateTime.to_str end_dt ++ "..."
                                  ++ String PyStr.LF EmptyString)%string])
                        (files w) (api_log w) (sleeps w) (svc w)))
    as [k [Hk [[_ Hsub] [Hall Hpos]]]].
  cbn [api_log] in Hsub.
  assert (Hk1 : (1 <= k <= length LOG_GROUPS)%nat).
  { destruct Hpos as [Hnil|Hpos]; [discriminate|]. split; [exact Hpos|exact Hk]. }
  exists k. split; [exact Hk1|].
  destruct (groups fuel LOG_GROUPS _ _ _ _) as [w1 [salida|x|c|]] eqn:Hrun;
    cbn [fst snd] in Hsub, Hall; cbn [fst snd];
    try (split; [exact Hsub|discriminate]).
  destruct (query_groups_data_ok _ _ _ _ _ _ _ Hrun) as [Hok _].
  assert (Hall' : k = length LOG_GROUPS) by exact (Hall salida eq_refl).
  destruct (out a) as [[|c p]|] eqn:Hout; cbn [fst snd];
    try (split; [exact Hsub|intros _; exact Hall']).
  destruct (save_results_frame resolve writable salida (String c p) w1 Hok)
    as [_ [_ [_ [Hlog _]]]].
  rewrite Hlog. split; [exact Hsub|intros _; exact Hall'].
Qed.

(** The poller returns the rows of the first [Complete] reply. *)
Lemma wait_results_completes fuel qid interval (w : world Svc)
      (resps : list response) s2 s' raw :
  polls svc_get_query_results qid (svc w) resps s2 ->
  forallb keeps_waiting resps = true ->
  (length resps < fuel)%nat ->
  svc_get_query_results s2 qid = (s', Ok (mk_response "Complete" raw)) ->
  exists w2, wait fuel qid interval w = (w2, Ret raw) /\ svc w2 = s'.
Proof.
  intros Hpolls Hwait Hfuel Hget.
  assert (Hsplit : fuel = (length resps + S (fuel - S (length resps)))%nat) by lia.
  rewrite Hsplit.
  rewrite (wait_results_polls svc_get_query_results qid interval resps w s2 _
                              Hpolls Hwait).
  rewrite (wait_results_complete svc_get_query_results _ _ _ _ s' raw)
    by exact Hget.
  eexists. split; reflexivity.
Qed.

(** The body of the loop against a service that answers the query. *)
Lemma query_group_answers fuel lg start_ts end_ts salida (w : world Svc)
      raw flat s' :
  answers svc_start_query svc_get_query_results fuel start_ts end_ts lg
          (svc w) raw s' ->
  flatten raw = Ok flat ->
  data_ok (heap w) salida ->
  exists w3 salida',
    group fuel lg start_ts end_ts salida w = (w3, Ret salida')
    /\ svc w3 = s'
    /\ files w3 = files w
    /\ data_ok (heap w3) salida'
    /\ data_at (heap w3) salida' = Dict.set (data_at (heap w) salida) lg flat.
Proof.
  intros [s1 s2 qid resps Hstart Hpolls Hwaiting Hfuel Hget] Hflat Hok.
  destruct (wait_results_completes fuel qid 1 (submitted w lg start_ts end_ts s1)
                                   resps s2 s' raw Hpolls Hwaiting Hfuel Hget)
    as [w2 [Hwait Hsvc]].
  rewrite (query_group_submitted _ _ _ _ _ _ _ _ _ _ _ Hstart). cbv zeta.
  pose proof (wait_results_frame svc_get_query_results fuel qid 1
                                 (submitted w lg start_ts end_ts s1))
    as [Hh [_ [Hf _]]].
  rewrite Hwait in *. cbn [fst heap files] in Hh, Hf.
  rewrite Hflat. eexists. eexists. split; [reflexivity|].
  cbn [heap files svc]. split; [exact Hsvc|]. split; [exact Hf|].
  rewrite Hh. split.
  - apply data_ok_set; [apply data_ok_grow, Hok|].
    apply Forall_forall. intros x Hx. apply in_seq in Hx.
    rewrite length_app. lia.
  - rewrite data_at_set, rows_at_new. f_equal. now apply data_at_grow.
Qed.

(** The body of the loop against a service that refuses the query. *)
Lemma query_groups_refused fuel lgs start_ts end_ts salida :
  (forall st lg, exists st' msg,
        svc_start_query st lg start_ts end_ts (PyStr.strip QUERY_STRING)
        = (st', Raise (ClientError msg))) ->
  forall w : world Svc,
  exists w1,
    groups fuel lgs start_ts end_ts salida w = (w1, Ret salida)
    /\ heap w1 = heap w /\ files w1 = files w.
Proof.
  intros Hsvc. induction lgs as [|lg lgs IH]; intros w.
  - exists w. repeat split.
  - destruct (Hsvc (svc w) lg) as [st' [msg Hstart]].
    cbn [query_groups]. unfold mbind at 1.
    rewrite (query_group_refused _ _ _ _ _ _ _ _ _ _ _ Hstart).
    destruct (IH (mk_world (heap w) (stdout w ++ refused_lines lg msg) (files w)
                           (api_log w ++ [submit lg start_ts end_ts]) (sleeps w)
                           st'))
      as [w1 [Hrun [Hh Hf]]].
    exists w1. split; [exact Hrun|]. split; [exact Hh|exact Hf].
Qed.

(** X16: a run whose three queries complete with rows that UTF-8 can
    encode, saved with [--out] to a [.json] path that can be opened,
    ends normally, and the file it leaves is a JSON document that
    reads back as the mapping from each log group, in the order of
    [LOG_GROUPS], to the flattened rows the service returned for
    it. *)
Theorem X16_run_saves_every_group fuel (a : args) (w : world Svc)
        start_dt end_dt p s1 s2 s3 raw1 raw2 raw3 flat1 flat2 flat3 :
  time_window now a = Ok (start_dt, end_dt) ->
  DateTime.ge start_dt end_dt = false ->
  answers svc_start_query svc_get_query_results fuel
          (to_epoch start_dt) (to_epoch end_dt)
          "/aws/lambda/bm-qrec-api-redeban" (svc w) raw1 s1 ->
  answers svc_start_query svc_get_query_results fuel
          (to_epoch start_dt) (to_epoch end_dt)
          "/aws/lambda/bm-qrec-authorizer" s1 raw2 s2 ->
  answers svc_start_query svc_get_query_results fuel
          (to_epoch start_dt) (to_epoch end_dt)
          "/aws/lambda/bm-qrec-do-transaction" s2 raw3 s3 ->
  flatten raw1 = Ok flat1 -> flatten raw2 = Ok flat2 -> flatten raw3 = Ok flat3 ->
  rows_encodable flat1 = true -> rows_encodable flat2 = true ->
  rows_encodable flat3 = true ->
  out a = Some p -> truthy (out a) = true ->
  PyStr.lower (Path.suffix p) = ".json"%string ->
  writable p = true ->
  snd (run_main fuel a w) = Ret tt
  /\ exists text,
      Dict.get (files (fst (run_main fuel a w))) (resolve p) = Some text
      /\ Json.loads text
         = Ok (py_of_data [("/aws/lambda/bm-qrec-api-redeban", flat1);
                           ("/aws/lambda/bm-qrec-authorizer", flat2);
                           ("/aws/lambda/bm-qrec-do-transaction", flat3)]%string).
Proof.
  intros Hwin Hge Ha1 Ha2 Ha3 Hf1 Hf2 Hf3 He1 He2 He3 Hout Htruthy Hsuf Hwr.
  rewrite (main_unfold fuel a w _ _ Hwin Hge).
  set (w0 := mk_world (heap w) _ (files w) (api_log w) (sleeps w) (svc w)).
  assert (Hok0 : data_ok (heap w0) Dict.empty) by constructor.
  destruct (query_group_answers fuel _ _ _ Dict.empty w0 raw1 flat1 s1 Ha1 Hf1 Hok0)
    as [w1 [d1 [Hg1 [Hs1 [_ [Hok1 Hat1]]]]]].
  rewrite <- Hs1 in Ha2.
  destruct (query_group_answers fuel _ _ _ d1 w1 raw2 flat2 s2 Ha2 Hf2 Hok1)
    as [w2 [d2 [Hg2 [Hs2 [_ [Hok2 Hat2]]]]]].
  rewrite <- Hs2 in Ha3.
  destruct (query_group_answers fuel _ _ _ d2 w2 raw3 flat3 s3 Ha3 Hf3 Hok2)
    as [w3 [d3 [Hg3 [_ [_ [Hok3 Hat3]]]]]].
  assert (Hrun : groups fuel LOG_GROUPS (to_epoch start_dt) (to_epoch end_dt)
                        Dict.empty w0 = (w3, Ret d3)).
  { unfold LOG_GROUPS. cbn [query_groups]. unfold mbind.
    rewrite Hg1, Hg2, Hg3. reflexivity. }
  rewrite Hrun.
  destruct (query_groups_data_ok _ _ _ _ _ _ _ Hrun) as [_ Hwf].
  rewrite Hout in *. destruct p as [|c p]; [discriminate|].
  assert (Hat : data_at (heap w3) d3
                = [("/aws/lambda/bm-qrec-api-redeban", flat1);
                   ("/aws/lambda/bm-qrec-authorizer", flat2);
                   ("/aws/lambda/bm-qrec-do-transaction", flat3)]%string)
    by (rewrite Hat3, Hat2, Hat1; reflexivity).
  assert (Henc : data_encodable (data_at (heap w3) d3) = true).
  { rewrite Hat. unfold data_encodable. cbn [forallb fst snd].
    now rewrite He1, He2, He3. }
  rewrite (save_results_json resolve writable d3 (String c p) w3 Hsuf Hwr Henc).
  cbn [fst snd files]. split; [reflexivity|].
  eexists. split; [apply dict_get_set_same|].
  rewrite loads_dumps by (apply py_of_data_wf, Hwf).
  now rewrite Hat.
Qed.

(** X17: a run in which the service refuses every query with a
    [ClientError] still ends normally, with exit status 0.  Saved to a
    writable [.json] path its result is the empty object; for a
    [.csv] path no file is written. *)
Theorem X17_nothing_retrieved fuel (a : args) (w : world Svc) start_dt end_dt :
  time_window now a = Ok (start_dt, end_dt) ->
  DateTime.ge start_dt end_dt = false ->
  (forall st lg, exists st' msg,
        svc_start_query st lg (to_epoch start_dt) (to_epoch end_dt)
                        (PyStr.strip QUERY_STRING)
        = (st', Raise (ClientError msg))) ->
  (truthy (out a) = false ->
   exit_status (snd (run_main fuel a w)) = Some 0
   /\ files (fst (run_main fuel a w)) = files w)
  /\ (forall p,
         out a = Some p -> truthy (out a) = true ->
         PyStr.lower (Path.suffix p) = ".json"%string ->
         writable p = true ->
         exit_status (snd (run_main fuel a w)) = Some 0
         /\ Dict.get (files (fst (run_main fuel a w))) (resolve p)
            = Some "{}"%string)
  /\ (forall p,
         out a = Some p -> truthy (out a) = true ->
         PyStr.lower (Path.suffix p) = ".csv"%string ->
         exit_status (snd (run_main fuel a w)) = Some 0
         /\ files (fst (run_main fuel a w)) = files w).
Proof.
  intros Hwin Hge Hsvc.
  rewrite (main_unfold fuel a w _ _ Hwin Hge).
  destruct (query_groups_refused fuel LOG_GROUPS _ _ Dict.empty Hsvc
              (mk_world (heap w)
                        (stdout w
                           ++ [("Ejecutando consulta entre "
                                  ++ DateTime.to_str start_dt
                                  ++ " y " ++ DateTime.to_str end_dt ++ "..."
                                  ++ String PyStr.LF EmptyString)%string])
                        (files w) (api_log w) (sleeps w) (svc w)))
    as [w1 [Hrun [_ Hf]]].
  rewrite Hrun. cbn [files] in Hf.
  split; [|split].
  - intros Hfalse. destruct (out a) as [[|c p]|]; try discriminate;
      cbn [fst snd exit_status]; auto.
  - intros p Hout Htruthy Hsuf Hwr. rewrite Hout in *.
    destruct p as [|c p]; [discriminate|].
    rewrite (save_results_json resolve writable Dict.empty (String c p) w1
                               Hsuf Hwr eq_refl).
    cbn [fst snd files exit_status]. split; [reflexivity|].
    apply dict_get_set_same.
  - intros p Hout Htruthy Hsuf. rewrite Hout in *.
    destruct p as [|c p]; [discriminate|].
    rewrite (save_results_csv_empty resolve writable Dict.empty _ w1 Hsuf eq_refl).
    cbn [fst snd files exit_status]. auto.
Qed.

End Runs.

Lemma X12_client_error_is_confined_witness :
  let lg := "/aws/lambda/bm-qrec-api-redeban"%string in
  let run := query_groups Scripted.state Scripted.start_query
                          Scripted.get_query_results true 5 in
  snd (wait_results _ Scripted.get_query_results 5 "q1" 1
                    (fst (start_query _ Scripted.start_query lg 0 60
                                      (Scripted.init throttling_service))))
  = Exc (ClientError "ThrottlingException")
  /\ exists w',
      run [lg; "other"%string] 0 60 Dict.empty (Scripted.init throttling_service)
      = run ["other"%string] 0 60 Dict.empty w'
      /\ stdout w' = refused_lines lg "ThrottlingException".
Proof.
  intros lg run. split; [reflexivity|].
  eexists. split.
  - exact (proj2 (X12_client_error_is_confined
                    Scripted.start_query Scripted.get_query_results true
                    5 lg ["other"%string] 0 60 Dict.empty
                    (Scripted.init throttling_service) _ "ThrottlingException")
                 "q1" _ eq_refl eq_refl).
  - reflexivity.
Defined.

Lemma X13_group_stores_its_rows_witness :
  let lg := "/aws/lambda/bm-qrec-api-redeban"%string in
  flatten sample_rows = Ok [[("a", "1"); ("b", "2")]]%string
  /\ data_ok [] [(lg, [])]
  /\ exists w3 salida',
      query_group Scripted.state Scripted.start_query Scripted.get_query_results
                  false 5 lg 0 60 [(lg, [])] (Scripted.init completing_service)
      = (w3, Ret salida')
      /\ data_at (heap w3) salida' = [(lg, [[("a", "1"); ("b", "2")]])]%string.
Proof.
  intros lg.
  assert (Hok : data_ok [] [(lg, [])]) by repeat constructor.
  split; [reflexivity|]. split; [exact Hok|].
  destruct (X13_group_stores_its_rows
              Scripted.start_query Scripted.get_query_results false
              5 lg 0 60 [(lg, [])] (Scripted.init completing_service)
              _ "q1" _ sample_rows _ eq_refl eq_refl eq_refl Hok)
    as [w3 [salida' [Hrun [Hat _]]]].
  exists w3, salida'. split; [exact Hrun|exact Hat].
Defined.

Lemma X14_malformed_row_ends_the_loop_witness :
  let lg := "/aws/lambda/bm-qrec-api-redeban"%string in
  forallb (forallb has_field_and_value)
          [[Scripted.cell_of "a" "1"; [("field", "b")]]]%string = false
  /\ exists k w2,
      query_groups Scripted.state Scripted.start_query Scripted.get_query_results
                   true 5 [lg; "other"%string] 0 60 Dict.empty
                   (Scripted.init malformed_service)
      = (w2, Exc (KeyError k)).
Proof.
  intros lg. split; [reflexivity|].
  destruct (X14_malformed_row_ends_the_loop
              Scripted.start_query Scripted.get_query_results true
              5 lg ["other"%string] 0 60 Dict.empty
              (Scripted.init malformed_service)
              _ "q1" _ _ eq_refl eq_refl eq_refl)
    as [k [_ Hrun]].
  eexists. eexists. exact Hrun.
Defined.

Lemma completing_service_answers :
  let ans := answers Scripted.start_query Scripted.get_query_results 5
                     1746706440 1746748800 in
  exists s1 s2 s3,
    ans "/aws/lambda/bm-qrec-api-redeban"%string completing_service sample_rows s1
    /\ ans "/aws/lambda/bm-qrec-authorizer"%string s1 sample_rows s2
    /\ ans "/aws/lambda/bm-qrec-do-transaction"%string s2 [] s3.
Proof.
  intros ans. eexists. eexists. eexists. split; [|split].
  - eapply (answers_intro _ _ _ _ _ _ _ _ _ _ _ "q1" []);
      [reflexivity|apply polls_nil|reflexivity|apply Nat.lt_0_succ|reflexivity].
  - eapply (answers_intro _ _ _ _ _ _ _ _ _ _ _ "q2" [mk_response "Running" []]);
      [reflexivity
      |eapply polls_cons; [reflexivity|apply polls_nil]
      |reflexivity|repeat constructor|reflexivity].
  - eapply (answers_intro _ _ _ _ _ _ _ _ _ _ _ "q3" []);
      [reflexivity|apply polls_nil|reflexivity|apply Nat.lt_0_succ|reflexivity].
Defined.

Lemma X16_run_saves_every_group_witness :
  let r := run_scripted completing_service true 5 (sample_args (Some "r.json")) in
  time_window sample_now (sample_args (Some "r.json"))
  = Ok (DateTime.mk_datetime 2025 5 8 12 14 0 0, sample_now)
  /\ snd r = Ret tt
  /\ exists text,
      Dict.get (files (fst r)) "/cwd/r.json" = Some text
      /\ Json.loads text
         = Ok (py_of_data
                 [("/aws/lambda/bm-qrec-api-redeban", [[("a", "1"); ("b", "2")]]);
                  ("/aws/lambda/bm-qrec-authorizer", [[("a", "1"); ("b", "2")]]);
                  ("/aws/lambda/bm-qrec-do-transaction", [])]%string).
Proof.
  intros r. split; [reflexivity|].
  destruct completing_service_answers as [s1 [s2 [s3 [H1 [H2 H3]]]]].
  exact (X16_run_saves_every_group
           Scripted.start_query Scripted.get_query_results true sample_now
           sample_resolve (fun _ => true) 5 (sample_args (Some "r.json"))
           (Scripted.init completing_service)
           (DateTime.mk_datetime 2025 5 8 12 14 0 0) sample_now "r.json"
           s1 s2 s3 sample_rows sample_rows []
           [[("a", "1"); ("b", "2")]]%string [[("a", "1"); ("b", "2")]]%string []
           eq_refl eq_refl H1 H2 H3 eq_refl eq_refl eq_refl eq_refl eq_refl
           eq_refl eq_refl eq_refl eq_refl eq_refl).
Defined.

Lemma X17_nothing_retrieved_witness :
  let run out :=
      main unit refuse_all always_running true sample_now sample_resolve
           (fun _ => true) 5 (sample_args out)
           (mk_world [] [] Dict.empty [] [] tt) in
  (forall st lg, exists st' msg,
        refuse_all st lg 1746706440 1746748800 (PyStr.strip QUERY_STRING)
        = (st', Raise (ClientError msg)))
  /\ exit_status (snd (run (Some "r.json"))) = Some 0
  /\ Dict.get (files (fst (run (Some "r.json")))) "/cwd/r.json" = Some "{}"%string
  /\ exit_status (snd (run (Some "r.csv"))) = Some 0
  /\ files (fst (run (Some "r.csv"))) = Dict.empty.
Proof.
  intros run.
  assert (Hsvc : forall st lg, exists st' msg,
               refuse_all st lg 1746706440 1746748800 (PyStr.strip QUERY_STRING)
               = (st', Raise (ClientError msg))).
  { intros st lg. exists st, "AccessDeniedException"%string. reflexivity. }
  split; [exact Hsvc|].
  assert (Hjson := proj1 (proj2 (X17_nothing_retrieved
                                   refuse_all always_running true sample_now
                                   sample_resolve (fun _ => true) 5
                                   (sample_args (Some "r.json"))
                                   (mk_world [] [] Dict.empty [] [] tt)
                                   (DateTime.mk_datetime 2025 5 8 12 14 0 0)
                                   sample_now eq_refl eq_refl Hsvc))
                         "r.json"%string eq_refl eq_refl eq_refl eq_refl).
  assert (Hcsv := proj2 (proj2 (X17_nothing_retrieved
                                  refuse_all always_running true sample_now
                                  sample_resolve (fun _ => true) 5
                                  (sample_args (Some "r.csv"))
                                  (mk_world [] [] Dict.empty [] [] tt)
                                  (DateTime.mk_datetime 2025 5 8 12 14 0 0)
                                  sample_now eq_refl eq_refl Hsvc))
                        "r.csv"%string eq_refl eq_refl eq_refl).
  destruct Hjson as [Hj1 Hj2]. destruct Hcsv as [Hc1 Hc2].
  repeat split; assumption.
Defined.

(** ** Epoch seconds and the order of instants *)

Lemma utc_microseconds_whole (dt : DateTime.datetime) :
  DateTime.microsecond dt = 0 ->
  DateTime.utc_microseconds dt = to_epoch dt * 1000000.
Proof.
  intros Hus. unfold to_epoch, DateTime.timestamp_int, DateTime.utc_microseconds.
  rewrite Hus, !Z.add_0_r, Z.quot_mul by discriminate. reflexivity.
Qed.

Lemma cmp_epoch (a b : DateTime.datetime) :
  DateTime.valid a = true -> DateTime.valid b = true ->
  DateTime.microsecond a = 0 -> DateTime.microsecond b = 0 ->
  DateTime.cmp a b = (to_epoch a ?= to_epoch b).
Proof.
  intros Ha Hb Hua Hub.
  rewrite (cmp_instants a b Ha Hb).
  rewrite (utc_microseconds_whole a Hua), (utc_microseconds_whole b Hub).
  destruct (Z.compare_spec (to_epoch a) (to_epoch b)) as [E|L|G].
  - rewrite E. apply Z.compare_refl.
  - apply Z.compare_lt_iff. lia.
  - apply Z.compare_gt_iff. lia.
Qed.

Lemma cmp_eq (a b : DateTime.datetime) : DateTime.cmp a b = Eq -> a = b.
Proof.
  destruct a as [y1 m1 d1 h1 mi1 s1 u1], b as [y2 m2 d2 h2 mi2 s2 u2].
  unfold DateTime.cmp.
  cbn [DateTime.year DateTime.month DateTime.day DateTime.hour DateTime.minute
       DateTime.second DateTime.microsecond].
  destruct (y1 ?= y2) eqn:Ey; try discriminate.
  destruct (m1 ?= m2) eqn:Em; try discriminate.
  destruct (d1 ?= d2) eqn:Ed; try discriminate.
  destruct (h1 ?= h2) eqn:Eh; try discriminate.
  destruct (mi1 ?= mi2) eqn:Emi; try discriminate.
  destruct (s1 ?= s2) eqn:Es; try discriminate.
  intros Eu.
  apply Z.compare_eq in Ey, Em, Ed, Eh, Emi, Es, Eu. now subst.
Qed.

(** X18: on valid datetimes with whole seconds, such as the Time
    Parser returns, [to_epoch] keeps the order that [main] tests: one
    datetime is before, at or after another exactly when its epoch
    second is smaller, equal or larger; and two of them with the same
    epoch second are the same datetime. *)
Theorem X18_epoch_keeps_order (a b : DateTime.datetime) :
  DateTime.valid a = true -> DateTime.valid b = true ->
  DateTime.microsecond a = 0 -> DateTime.microsecond b = 0 ->
  DateTime.cmp a b = (to_epoch a ?= to_epoch b)
  /\ (DateTime.ge a b = true <-> to_epoch b <= to_epoch a)
  /\ (to_epoch a = to_epoch b -> a = b).
Proof.
  intros Ha Hb Hua Hub.
  pose proof (cmp_epoch a b Ha Hb Hua Hub) as Hcmp.
  split; [exact Hcmp|]. split.
  - unfold DateTime.ge. rewrite Hcmp.
    destruct (Z.compare_spec (to_epoch a) (to_epoch b)) as [E|L|G];
      split; intros H; try reflexivity; try discriminate; lia.
  - intros E. apply cmp_eq. rewrite Hcmp, E. apply Z.compare_refl.
Qed.

Lemma X18_epoch_keeps_order_witness :
  let a := DateTime.mk_datetime 2024 2 29 23 59 59 0 in
  let b := DateTime.mk_datetime 2024 3 1 0 0 0 0 in
  DateTime.valid a = true /\ DateTime.valid b = true
  /\ DateTime.cmp a b = (to_epoch a ?= to_epoch b)
  /\ (to_epoch a = to_epoch b -> a = b).
Proof.
  intros a b. split; [reflexivity|]. split; [reflexivity|].
  destruct (X18_epoch_keeps_order a b eq_refl eq_refl eq_refl eq_refl)
    as [Hcmp [_ Hinj]].
  split; [exact Hcmp|exact Hinj].
Defined.

(** ** The time window with an explicit end *)

Lemma parsed_plus_five_hours (d t : string) (dt s : DateTime.datetime) :
  parse_cli_time d t = Ok dt ->
  DateTime.add dt (DateTime.mk_timedelta 0 18000 0) = Ok s ->
  DateTime.valid dt = true /\ DateTime.microsecond dt = 0
  /\ DateTime.valid s = true /\ DateTime.microsecond s = 0
  /\ to_epoch s = to_epoch dt + 18000.
Proof.
  intros Hparse Hadd.
  destruct (strptime_valid _ _ _ Hparse) as [Hdt Hus].
  destruct (add_valid dt s 18000 Hdt ltac:(lia) Hadd) as [Hs Hlt].
  destruct (start_plus_five_hours dt Hdt Hus ltac:(lia))
    as [s' [Hs' [_ [Hus' [_ Hepoch]]]]].
  rewrite five_hours_value in Hs'. cbn [bind] in Hs'.
  rewrite Hadd in Hs'. injection Hs' as <-.
  repeat split; assumption.
Qed.

(** X19: with an end date and an end time on the command line, both
    ends of the range are the typed times moved by the same five
    hours, so the length of the range in seconds is the difference of
    the typed times; and [main] goes on to query exactly when the
    typed start is strictly before the typed end. *)
Theorem X19_explicit_window (now : DateTime.datetime) (a : args)
        (start_dt end_dt : DateTime.datetime) :
  time_window now a = Ok (start_dt, end_dt) ->
  truthy (fecha_fin a) && truthy (hora_fin a) = true ->
  exists d t dt dt',
    fecha_fin a = Some d /\ hora_fin a = Some t
    /\ parse_cli_time (fecha_ini a) (hora_ini a) = Ok dt
    /\ parse_cli_time d t = Ok dt'
    /\ to_epoch start_dt = to_epoch dt + 18000
    /\ to_epoch end_dt = to_epoch dt' + 18000
    /\ (DateTime.ge start_dt end_dt = false <-> to_epoch dt < to_epoch dt')
    /\ (DateTime.ge start_dt end_dt = false ->
        to_epoch start_dt < to_epoch end_dt).
Proof.
  intros Hwin Hend. unfold time_window in Hwin.
  rewrite five_hours_value, Hend in Hwin.
  destruct (parse_cli_time (fecha_ini a) (hora_ini a)) as [dt|] eqn:Hparse;
    cbn [bind] in Hwin; [|discriminate].
  destruct (DateTime.add dt (DateTime.mk_timedelta 0 18000 0)) as [s|] eqn:Hadd;
    cbn [bind] in Hwin; [|discriminate].
  destruct (fecha_fin a) as [d|]; [|discriminate].
  destruct (hora_fin a) as [t|]; [|cbn in Hend; now rewrite andb_false_r in Hend].
  destruct (parse_cli_time d t) as [dt'|] eqn:Hparse'; cbn [bind] in Hwin;
    [|discriminate].
  destruct (DateTime.add dt' (DateTime.mk_timedelta 0 18000 0)) as [e|] eqn:Hadd';
    cbn [bind] in Hwin; [|discriminate].
  injection Hwin as <- <-.
  destruct (parsed_plus_five_hours _ _ _ _ Hparse Hadd)
    as [_ [_ [Hs [Hus Hes]]]].
  destruct (parsed_plus_five_hours _ _ _ _ Hparse' Hadd')
    as [_ [_ [He [Hue Hee]]]].
  assert (Hge : DateTime.ge s e = false <-> to_epoch s < to_epoch e).
  { unfold DateTime.ge. rewrite (cmp_epoch s e Hs He Hus Hue).
    destruct (Z.compare_spec (to_epoch s) (to_epoch e)) as [E|L|G];
      split; intros H; try reflexivity; try discriminate; lia. }
  exists d, t, dt, dt'. repeat split; try assumption; try reflexivity.
  - intros H. apply Hge in H. lia.
  - intros H. apply Hge. lia.
  - apply Hge.
Qed.

Lemma X19_explicit_window_witness :
  let a := mk_args "2025-05-07" "23:11:37" (Some "2025-05-07") (Some "23:11:47")
                   None in
  time_window sample_now a
  = Ok (DateTime.mk_datetime 2025 5 8 4 11 37 0,
        DateTime.mk_datetime 2025 5 8 4 11 47 0)
  /\ exists dt dt',
      parse_cli_time "2025-05-07" "23:11:37" = Ok dt
      /\ parse_cli_time "2025-05-07" "23:11:47" = Ok dt'
      /\ to_epoch (DateTime.mk_datetime 2025 5 8 4 11 37 0) = to_epoch dt + 18000
      /\ to_epoch (DateTime.mk_datetime 2025 5 8 4 11 47 0) = to_epoch dt' + 18000.
Proof.
  intros a. split; [reflexivity|].
  destruct (X19_explicit_window sample_now a
                                (DateTime.mk_datetime 2025 5 8 4 11 37 0)
                                (DateTime.mk_datetime 2025 5 8 4 11 47 0)
                                eq_refl eq_refl)
    as [d [t [dt [dt' [Hd [Ht [Hp [Hp' [Hs [He _]]]]]]]]]].
  injection Hd as <-. injection Ht as <-.
  exists dt, dt'. repeat split; assumption.
Defined.

(** ** What the Time Parser returns and raises *)

Lemma new_raises (y m d h mi s us : Z) (e : exn) :
  DateTime.new y m d h mi s us = Raise e -> exists msg, e = ValueError msg.
Proof.
  unfold DateTime.new, DateTime.check_date_fields, DateTime.check_time_fields.
  repeat match goal with
         | |- context [if ?b then _ else _] => destruct b; cbn [bind]
         end;
    intros H; try discriminate; injection H as <-; eauto.
Qed.

Lemma strptime_raises (data_string format : string) (e : exn) :
  Strptime.strptime data_string format = Raise e -> exists msg, e = ValueError msg.
Proof.
  unfold Strptime.strptime.
  destruct (Strptime.pattern false format) as [p|];
    [|intros H; injection H as <-; eauto].
  destruct (Strptime.re_match p data_string []) as [[g rest]|];
    [|intros H; injection H as <-; eauto].
  destruct rest; [apply new_raises|intros H; injection H as <-; eauto].
Qed.

(** X20: the Time Parser has two outcomes only.  It returns a
    datetime that exists in the calendar (year 1 to 9999, a month, a
    day of that month in that year, an hour below 24, minutes and
    seconds below 60) with no fraction of a second, or it raises
    [ValueError]; it raises no other exception. *)
Theorem X20_time_parser_outcomes (date_str time_str : string) :
  match parse_cli_time date_str time_str with
  | Ok dt =>
    1 <= DateTime.year dt <= 9999
    /\ 1 <= DateTime.month dt <= 12
    /\ 1 <= DateTime.day dt
       <= DateTime.days_in_month (DateTime.year dt) (DateTime.month dt)
    /\ 0 <= DateTime.hour dt <= 23
    /\ 0 <= DateTime.minute dt <= 59
    /\ 0 <= DateTime.second dt <= 59
    /\ DateTime.microsecond dt = 0
  | Raise e => exists msg, e = ValueError msg
  end.
Proof.
  destruct (parse_cli_time date_str time_str) as [dt|e] eqn:Hparse.
  - destruct (strptime_valid _ _ _ Hparse) as [Hvalid Hus].
    apply valid_fields in Hvalid. destruct Hvalid as [Hd Ht].
    apply check_date_fields_ok in Hd. apply check_time_fields_ok in Ht.
    intuition.
  - exact (strptime_raises _ _ _ Hparse).
Qed.

Section RefusedTimes.

Context {Svc : Type}.
Variable svc_start_query :
  Svc -> string -> Z -> Z -> string -> Svc * result string.
Variable svc_get_query_results : Svc -> string -> Svc * result response.
Variable tabulate_installed : bool.
Variable now : DateTime.datetime.
Variable resolve : string -> string.
Variable writable : string -> bool.

Local Abbreviation run_main :=
  (main Svc svc_start_query svc_get_query_results tabulate_installed now
        resolve writable).

(** X21: whenever the Time Parser refuses the start, the run prints
    the line about the format and exits with status 1; it has not
    called the service and writes no file.  A date and a time that
    hold fewer than two colons between them, such as an hour and
    minute without seconds, are always refused. *)
Theorem X21_refused_start_exits (fuel : nat) (a : args) (w : world Svc) :
  (forall e,
      parse_cli_time (fecha_ini a) (hora_ini a) = Raise e ->
      run_main fuel a w
      = (mk_world (heap w)
                  (stdout w
                     ++ ["Error en el formato de fecha/hora. Usa YYYY-MM-DD HH:MM"%string])
                  (files w) (api_log w) (sleeps w) (svc w),
         Exit 1))
  /\ ((count_char ":" (fecha_ini a ++ " " ++ hora_ini a) < 2)%nat ->
      exists e, parse_cli_time (fecha_ini a) (hora_ini a) = Raise e).
Proof.
  split.
  - intros e Hparse.
    destruct (strptime_raises _ _ _ Hparse) as [msg ->].
    apply (main_value_error _ _ _ _ _ _ _ _ _ msg).
    unfold time_window. now rewrite Hparse.
  - intros Hcolons.
    destruct (missing_seconds_rejected _ _ Hcolons) as [msg Hmsg]. eauto.
Qed.

End RefusedTimes.

(** ** Reading back a printed time *)

Lemma match_classes_app cls s m r rest :
  Strptime.match_classes cls s = Some (m, r) ->
  Strptime.match_classes cls (s ++ rest)%string = Some (m, (r ++ rest)%string).
Proof.
  revert s m r. induction cls as [|p cls IH]; intros s m r; simpl.
  - intros H. injection H as <- <-. reflexivity.
  - destruct s as [|c s]; [discriminate|]. simpl.
    destruct (p c); [|discriminate].
    destruct (Strptime.match_classes cls s) as [[m' r']|] eqn:E; [|discriminate].
    intros H. injection H as <- <-. now rewrite (IH _ _ _ E).
Qed.

Lemma match_classes_none cls s rest :
  Strptime.match_classes cls s = None ->
  (length cls <= String.length s)%nat ->
  Strptime.match_classes cls (s ++ rest)%string = None.
Proof.
  revert s. induction cls as [|p cls IH]; intros s; simpl; [discriminate|].
  destruct s as [|c s]; simpl; [intros _ H; inversion H|].
  destruct (p c); [|reflexivity].
  destruct (Strptime.match_classes cls s) as [[m' r']|] eqn:E; [discriminate|].
  intros _ Hlen. rewrite IH; [reflexivity|exact E|lia].
Qed.

Lemma first_alt_picks {A : Type} alts m rest (k : string -> string -> option A) x :
  picks alts m = true ->
  k m rest = Some x ->
  Strptime.first_alt alts (m ++ rest)%string k = Some x.
Proof.
  induction alts as [|a alts IH]; simpl; [discriminate|].
  destruct (Strptime.match_classes a m) as [[m' r]|] eqn:E.
  - destruct r as [|c r]; [|discriminate]. intros _ Hk.
    rewrite (match_classes_app _ _ _ _ rest E).
    apply match_classes_split in E. rewrite str_app_nil_r in E. subst m'.
    cbn [append]. now rewrite Hk.
  - intros H Hk. apply andb_prop in H. destruct H as [Hlen Hpicks].
    apply Nat.leb_le in Hlen.
    rewrite (match_classes_none _ _ rest E Hlen). now apply IH.
Qed.

Lemma spaces_then_one {A : Type} (r : string) (k : string -> option A) :
  first_nonspace r = true ->
  Strptime.spaces_then (String " " r) k = k r.
Proof.
  intros H. cbn [Strptime.spaces_then].
  change (PyStr.is_space " ") with true. cbv iota.
  destruct r as [|c r]; [discriminate|].
  cbn [Strptime.spaces_then]. cbn [first_nonspace] in H.
  apply negb_true_iff in H. now rewrite H.
Qed.

Lemma first_nonspace_app (m r : string) :
  first_nonspace m = true -> first_nonspace (m ++ r)%string = true.
Proof. destruct m; [discriminate|exact (fun H => H)]. Qed.

Lemma cli_pattern_compiled :
  Strptime.pattern false "%Y-%m-%d %H:%M:%S" = Some cli_pattern.
Proof. reflexivity. Qed.

Lemma group_here (g : Strptime.groups) (d : ascii) (m : string) (default : Z) :
  Strptime.group ((d, m) :: g) d default = text_value m.
Proof. cbn [Strptime.group]. now rewrite Ascii.eqb_refl. Qed.

(** The expression of the format on a text whose six numbers are each
    read whole by their directive. *)
Lemma re_match_cli (Y Mo D H Mi S : string) :
  picks (alts_of "Y") Y = true -> picks (alts_of "m") Mo = true ->
  picks (alts_of "d") D = true -> picks (alts_of "H") H = true ->
  picks (alts_of "M") Mi = true -> picks (alts_of "S") S = true ->
  first_nonspace H = true ->
  Strptime.re_match
    cli_pattern
    ((Y ++ "-" ++ Mo ++ "-" ++ D) ++ " " ++ (H ++ ":" ++ Mi ++ ":" ++ S))%string []
  = Some ([("Y", Y); ("m", Mo); ("d", D); ("H", H); ("M", Mi); ("S", S)]%char,
          EmptyString).
Proof.
  intros HY Hm Hd HH HM HS Hsp.
  rewrite !str_app_assoc.
  unfold cli_pattern. cbn [Strptime.re_match].
  apply first_alt_picks; [exact HY|]. cbn [append Strptime.re_match app].
  change (Ascii.eqb "-" "-") with true. cbv iota.
  apply first_alt_picks; [exact Hm|]. cbn [append Strptime.re_match app].
  change (Ascii.eqb "-" "-") with true. cbv iota.
  apply first_alt_picks; [exact Hd|]. cbn [append Strptime.re_match app].
  rewrite spaces_then_one by (apply first_nonspace_app, Hsp).
  apply first_alt_picks; [exact HH|]. cbn [append Strptime.re_match app].
  change (Ascii.eqb ":" ":") with true. cbv iota.
  apply first_alt_picks; [exact HM|]. cbn [append Strptime.re_match app].
  change (Ascii.eqb ":" ":") with true. cbv iota.
  rewrite <- (str_app_nil_r S) at 1.
  apply first_alt_picks; [exact HS|]. reflexivity.
Qed.

Lemma reads_all_spec (d : ascii) (width : nat) (lo hi v : Z) :
  reads_all d width lo hi = true ->
  0 <= lo ->
  lo <= v <= hi ->
  picks (alts_of d) (PyStr.zero_pad width v) = true
  /\ text_value (PyStr.zero_pad width v) = v
  /\ first_nonspace (PyStr.zero_pad width v) = true.
Proof.
  intros Hall Hlo Hv. unfold reads_all in Hall.
  rewrite forallb_forall in Hall.
  assert (Hin : In v (days_upto (Z.to_nat (hi + 1)))).
  { unfold days_upto. apply in_map_iff. exists (Z.to_nat v).
    split; [lia|]. apply in_seq. lia. }
  specialize (Hall v Hin).
  apply orb_prop in Hall. destruct Hall as [Hlt|Hreads];
    [apply Z.ltb_lt in Hlt; lia|].
  unfold reads in Hreads.
  apply andb_prop in Hreads. destruct Hreads as [Hreads Hsp].
  apply andb_prop in Hreads. destruct Hreads as [Hp Hval].
  apply Z.eqb_eq in Hval. auto.
Qed.

Lemma reads_year : reads_all "Y" 4 1 9999 = true.
Proof. vm_compute. reflexivity. Qed.

Lemma reads_month : reads_all "m" 2 1 12 = true.
Proof. vm_compute. reflexivity. Qed.

Lemma reads_day : reads_all "d" 2 1 31 = true.
Proof. vm_compute. reflexivity. Qed.

Lemma reads_hour : reads_all "H" 2 0 23 = true.
Proof. vm_compute. reflexivity. Qed.

Lemma reads_minute : reads_all "M" 2 0 59 = true.
Proof. vm_compute. reflexivity. Qed.

Lemma reads_second : reads_all "S" 2 0 59 = true.
Proof. vm_compute. reflexivity. Qed.

Lemma days_in_month_le (y m : Z) : DateTime.days_in_month y m <= 31.
Proof.
  unfold DateTime.days_in_month.
  destruct ((m =? 2) && DateTime.is_leap y); [lia|].
  unfold DateTime.DAYS_IN_MONTH.
  destruct m as [|p|p]; try lia.
  do 4 (try destruct p as [p|p|]); lia.
Qed.

(** X22: what the program prints for a datetime with whole seconds
    is text the Time Parser takes back.  For every valid datetime
    without a fraction of a second, [str] gives the date, a blank and
    the time, every number zero padded, and [parse_cli_time] on that
    date and that time returns the same datetime. *)
Theorem X22_printed_time_parses_back (dt : DateTime.datetime) :
  DateTime.valid dt = true ->
  DateTime.microsecond dt = 0 ->
  DateTime.to_str dt = (date_text dt ++ " " ++ time_text dt)%string
  /\ parse_cli_time (date_text dt) (time_text dt) = Ok dt.
Proof.
  intros Hvalid Hus.
  destruct dt as [y m d h mi s us]. cbn [DateTime.microsecond] in Hus. subst us.
  split.
  { unfold DateTime.to_str, date_text, time_text.
    cbn [DateTime.year DateTime.month DateTime.day DateTime.hour DateTime.minute
         DateTime.second DateTime.microsecond].
    change (0 =? 0) with true. cbv iota.
    rewrite !str_app_assoc, str_app_nil_r. reflexivity. }
  pose proof Hvalid as Hfields.
  apply valid_fields in Hfields.
  cbn [DateTime.year DateTime.month DateTime.day DateTime.hour DateTime.minute
       DateTime.second DateTime.microsecond] in Hfields.
  destruct Hfields as [Hd Ht].
  apply check_date_fields_ok in Hd. apply check_time_fields_ok in Ht.
  pose proof (days_in_month_le y m) as Hdim.
  destruct (reads_all_spec "Y" 4 1 9999 y reads_year ltac:(lia) ltac:(lia)) as [HY [VY _]].
  destruct (reads_all_spec "m" 2 1 12 m reads_month ltac:(lia) ltac:(lia)) as [Hm [Vm _]].
  destruct (reads_all_spec "d" 2 1 31 d reads_day ltac:(lia) ltac:(lia)) as [HD [VD _]].
  destruct (reads_all_spec "H" 2 0 23 h reads_hour ltac:(lia) ltac:(lia)) as [HH [VH Hsp]].
  destruct (reads_all_spec "M" 2 0 59 mi reads_minute ltac:(lia) ltac:(lia)) as [HM [VM _]].
  destruct (reads_all_spec "S" 2 0 59 s reads_second ltac:(lia) ltac:(lia)) as [HS [VS _]].
  unfold parse_cli_time, Strptime.strptime.
  rewrite cli_pattern_compiled.
  unfold date_text, time_text.
  cbn [DateTime.year DateTime.month DateTime.day DateTime.hour DateTime.minute
       DateTime.second].
  rewrite (re_match_cli _ _ _ _ _ _ HY Hm HD HH HM HS Hsp).
  rewrite group_here.
  assert (Hg : forall (d0 d1 : ascii) m0 g def,
             Ascii.eqb d1 d0 = false ->
             Strptime.group ((d0, m0) :: g) d1 def = Strptime.group g d1 def).
  { intros d0 d1 m0 g def E. cbn [Strptime.group]. now rewrite E. }
  repeat (rewrite group_here || rewrite Hg by reflexivity).
  rewrite VY, Vm, VD, VH, VM, VS.
  unfold DateTime.valid in Hvalid.
  cbn [DateTime.year DateTime.month DateTime.day DateTime.hour DateTime.minute
       DateTime.second DateTime.microsecond] in Hvalid.
  destruct (DateTime.new y m d h mi s 0) as [dt'|e] eqn:Hnew; [|discriminate].
  apply new_valid in Hnew. destruct Hnew as [-> _]. reflexivity.
Qed.

Lemma X22_printed_time_parses_back_witness :
  let dt := DateTime.mk_datetime 2024 2 29 23 59 59 0 in
  DateTime.valid dt = true
  /\ DateTime.to_str dt = "2024-02-29 23:59:59"%string
  /\ parse_cli_time "2024-02-29" "23:59:59" = Ok dt.
Proof.
  intros dt. split; [reflexivity|]. split; [reflexivity|].
  exact (proj2 (X22_printed_time_parses_back dt eq_refl eq_refl)).
Defined.

(** ** The end of the window, and the exits of a run *)

Section Exits.

Context {Svc : Type}.
Variable svc_start_query :
  Svc -> string -> Z -> Z -> string -> Svc * result string.
Variable svc_get_query_results : Svc -> string -> Svc * result response.
Variable tabulate_installed : bool.
Variable now : DateTime.datetime.
Variable resolve : string -> string.
Variable writable : string -> bool.

Local Abbreviation wait := (wait_results Svc svc_get_query_results).
Local Abbreviation group :=
  (query_group Svc svc_start_query svc_get_query_results tabulate_installed).
Local Abbreviation groups :=
  (query_groups Svc svc_start_query svc_get_query_results tabulate_installed).
Local Abbreviation run_main :=
  (main Svc svc_start_query svc_get_query_results tabulate_installed now
        resolve writable).

(** X23: an end that is not complete is ignored without a word.  When
    the end date or the end time is missing or empty, the run is the
    run of the same command line without either: the window ends at
    the current time, and what was typed for the end is not read, not
    even to check that it is a date. *)
Theorem X23_lone_end_is_ignored (fuel : nat) (a : args) (w : world Svc) :
  truthy (fecha_fin a) && truthy (hora_fin a) = false ->
  let a' := mk_args (fecha_ini a) (hora_ini a) None None (out a) in
  time_window now a = time_window now a'
  /\ (forall start_dt end_dt,
         time_window now a = Ok (start_dt, end_dt) -> end_dt = now)
  /\ run_main fuel a w = run_main fuel a' w.
Proof.
  intros Hend a'.
  assert (Hwin : time_window now a = time_window now a').
  { unfold time_window, a'. cbn [fecha_ini hora_ini fecha_fin hora_fin truthy andb].
    now rewrite Hend. }
  split; [exact Hwin|]. split.
  - intros start_dt end_dt H. rewrite Hwin in H.
    unfold time_window, a' in H.
    cbn [fecha_ini hora_ini fecha_fin hora_fin truthy andb] in H.
    destruct (parse_cli_time (fecha_ini a) (hora_ini a)) as [dt|];
      cbn [bind] in H; [|discriminate].
    destruct five_hours as [h|]; cbn [bind] in H; [|discriminate].
    destruct (DateTime.add dt h) as [s|]; cbn [bind] in H; [|discriminate].
    now injection H as _ <-.
  - unfold main. now rewrite Hwin.
Qed.

Lemma wait_results_no_exit fuel qid interval (w : world Svc) c :
  snd (wait fuel qid interval w) <> Exit c.
Proof.
  revert w. induction fuel as [|fuel IH]; intros w; [discriminate|].
  rewrite wait_results_step. cbv zeta.
  destruct (svc_get_query_results (svc w) qid) as [s' [resp|e]]; [|discriminate].
  destruct (String.eqb (status resp) "Complete"); [discriminate|].
  destruct (terminal_failure (status resp)); [discriminate|].
  apply IH.
Qed.

Lemma query_group_no_exit fuel lg start_ts end_ts salida (w : world Svc) c :
  snd (group fuel lg start_ts end_ts salida w) <> Exit c.
Proof.
  destruct (svc_start_query (svc w) lg start_ts end_ts (PyStr.strip QUERY_STRING))
    as [s1 [qid|e]] eqn:Hstart.
  - rewrite (query_group_submitted _ _ _ _ _ _ _ _ _ _ _ Hstart). cbv zeta.
    pose proof (wait_results_no_exit
                  fuel qid 1
                  (mk_world (heap w) (stdout w ++ [("===> Log group: " ++ lg)%string])
                            (files w) (api_log w ++ [submit lg start_ts end_ts])
                            (sleeps w) s1)) as Hno.
    destruct (wait fuel qid 1 _) as [w2 [raw|e|c'|]]; cbn [snd] in Hno.
    + destruct (flatten raw) as [flat|e]; [discriminate|].
      destruct e; discriminate.
    + destruct e; discriminate.
    + intros _. exact (Hno c' eq_refl).
    + discriminate.
  - destruct (match e with ClientError _ => true | _ => false end) eqn:Ec.
    + destruct e; try discriminate.
      rewrite (query_group_refused _ _ _ _ _ _ _ _ _ _ _ Hstart). discriminate.
    + rewrite (query_group_start_error _ _ _ _ _ _ _ _ _ _ _ Hstart);
        [discriminate|intros msg ->; discriminate].
Qed.

Lemma query_groups_no_exit fuel lgs start_ts end_ts salida (w : world Svc) c :
  snd (groups fuel lgs start_ts end_ts salida w) <> Exit c.
Proof.
  revert salida w. induction lgs as [|lg lgs IH]; intros salida w; [discriminate|].
  cbn [query_groups]. unfold mbind.
  pose proof (query_group_no_exit fuel lg start_ts end_ts salida w) as Hno.
  destruct (group fuel lg start_ts end_ts salida w) as [w1 [d1|e|c'|]];
    cbn [snd] in Hno.
  - apply IH.
  - discriminate.
  - intros _. exact (Hno c' eq_refl).
  - discriminate.
Qed.

(** After [parse_args], [sys.exit] is about the times. *)
Lemma main_exit_is_about_the_times (fuel : nat) (a : args) (w : world Svc) c :
  snd (run_main fuel a w) = Exit c ->
  c = 1
  /\ api_log (fst (run_main fuel a w)) = api_log w
  /\ files (fst (run_main fuel a w)) = files w
  /\ ((exists msg, time_window now a = Raise (ValueError msg))
      \/ (exists start_dt end_dt,
             time_window now a = Ok (start_dt, end_dt)
             /\ DateTime.ge start_dt end_dt = true)).
Proof.
  destruct (time_window now a) as [[start_dt end_dt]|e] eqn:Hwin.
  - destruct (DateTime.ge start_dt end_dt) eqn:Hge.
    + rewrite (main_start_not_before_end _ _ _ _ _ _ fuel a w _ _ Hwin Hge).
      cbn [fst snd api_log files]. intros H. injection H as <-.
      repeat split. right. eauto.
    + rewrite (main_unfold _ _ _ _ _ _ fuel a w _ _ Hwin Hge).
      pose proof (query_groups_no_exit
                    fuel LOG_GROUPS (to_epoch start_dt) (to_epoch end_dt) Dict.empty
                    (mk_world (heap w)
                              (stdout w
                                 ++ [("Ejecutando consulta entre "
                                        ++ DateTime.to_str start_dt
                                        ++ " y " ++ DateTime.to_str end_dt ++ "..."
                                        ++ String PyStr.LF EmptyString)%string])
                              (files w) (api_log w) (sleeps w) (svc w)))
        as Hno.
      destruct (groups fuel LOG_GROUPS _ _ _ _) as [w1 [salida|x|c'|]] eqn:Hrun;
        cbn [snd] in Hno; cbn [fst snd]; try discriminate.
      * destruct (query_groups_data_ok _ _ _ _ _ _ _ _ _ _ Hrun) as [Hok _].
        destruct (out a) as [[|ch p]|]; cbn [snd]; try discriminate.
        destruct (save_results_frame resolve writable salida (String ch p) w1 Hok)
          as [[Hret|[[Hexc _]|[Hexc _]]] _]; intros H; rewrite H in *;
          discriminate.
      * intros _. now contradiction (Hno c' eq_refl).
  - unfold main. rewrite Hwin.
    destruct e; cbn; intros H; try discriminate.
    injection H as <-. repeat split. left. eauto.
Qed.

Variable parse_args : list string -> list string * (args + Z).

Local Abbreviation run_argv :=
  (main_argv Svc svc_start_query svc_get_query_results tabulate_installed now
             resolve writable parse_args).

(** X24: a run ends through [sys.exit] for one of two reasons, the
    command line or the times.  Either [parse_args] ended the run
    itself, with the status [argparse] chose; or the arguments were
    read, the status is 1, and the start or the end was refused by
    the Time Parser or the window is empty.  In both cases the
    service was not called and no file was written.  Nothing that
    happens after the window is accepted makes the program exit that
    way. *)
Theorem X24_exit_is_about_the_times (fuel : nat) (argv : list string)
        (w : world Svc) c :
  snd (run_argv fuel argv w) = Exit c ->
  api_log (fst (run_argv fuel argv w)) = api_log w
  /\ files (fst (run_argv fuel argv w)) = files w
  /\ ((exists printed, parse_args argv = (printed, inr c))
      \/ (exists printed a,
             parse_args argv = (printed, inl a)
             /\ c = 1
             /\ ((exists msg, time_window now a = Raise (ValueError msg))
                 \/ (exists start_dt end_dt,
                        time_window now a = Ok (start_dt, end_dt)
                        /\ DateTime.ge start_dt end_dt = true)))).
Proof.
  unfold main_argv.
  destruct (parse_args argv) as [printed [a|status]] eqn:Hparse.
  - intros Hexit.
    destruct (main_exit_is_about_the_times fuel a _ c Hexit)
      as [Hc [Hlog [Hfiles Hwhy]]].
    cbn [api_log files] in Hlog, Hfiles.
    split; [exact Hlog|]. split; [exact Hfiles|].
    right. exists printed, a. split; [reflexivity|]. split; [exact Hc|exact Hwhy].
  - unfold sys_exit. cbn [fst snd api_log files]. intros H. injection H as <-.
    split; [reflexivity|]. split; [reflexivity|]. left. now exists printed.
Qed.

End Exits.

Lemma X23_lone_end_is_ignored_witness :
  let a := mk_args "2025-05-08" "07:14:00" (Some "not a date") None
                   (Some "r.json") in
  truthy (fecha_fin a) && truthy (hora_fin a) = false
  /\ time_window sample_now a
     = Ok (DateTime.mk_datetime 2025 5 8 12 14 0 0, sample_now)
  /\ run_scripted completing_service true 5 a
     = run_scripted completing_service true 5 (sample_args (Some "r.json")).
Proof.
  intros a. split; [reflexivity|]. split; [reflexivity|].
  exact (proj2 (proj2 (X23_lone_end_is_ignored
                         Scripted.start_query Scripted.get_query_results true
                         sample_now sample_resolve (fun _ => true) 5 a
                         (Scripted.init completing_service) eq_refl))).
Defined.

Lemma X24_exit_is_about_the_times_witness :
  let run := main_argv Scripted.state Scripted.start_query
                       Scripted.get_query_results true sample_now
                       sample_resolve (fun _ => true) sample_parse_args 5
                       ["2025-05-08"; "07:14"; "--out"; "a.json"]%string
                       (Scripted.init completing_service) in
  snd run = Exit 1
  /\ api_log (fst run) = []
  /\ files (fst run) = Dict.empty.
Proof.
  intros run.
  assert (Hexit : snd run = Exit 1) by reflexivity.
  split; [exact Hexit|].
  destruct (X24_exit_is_about_the_times
              Scripted.start_query Scripted.get_query_results true sample_now
              sample_resolve (fun _ => true) sample_parse_args 5
              ["2025-05-08"; "07:14"; "--out"; "a.json"]%string
              (Scripted.init completing_service) 1 Hexit)
    as [Hlog [Hfiles _]].
  split; [exact Hlog|exact Hfiles].
Defined.
